(** * nova/compute/manager.py: the instance-lifecycle orchestration of the
      compute-node manager, embedded as state-and-exception passing
      functions over a log of the calls made to the external collaborators
      (record store, hypervisor driver, network, volume, scheduler, image
      service, resource tracker). *)

From Stdlib Require Import List ZArith Bool String Lia Arith.
Import ListNotations.
Open Scope string_scope.
Open Scope Z_scope.
Open Scope list_scope.

Set Implicit Arguments.

(** ** Constants of nova.compute.vm_states / task_states / power_state *)

Module vm_states.
Inductive t :=
| ACTIVE | BUILDING | PAUSED | SUSPENDED | STOPPED | RESCUED | RESIZED
| SOFT_DELETED | DELETED | ERROR.

Definition eqb (a b : t) : bool :=
  match a, b with
  | ACTIVE, ACTIVE | BUILDING, BUILDING | PAUSED, PAUSED
  | SUSPENDED, SUSPENDED | STOPPED, STOPPED | RESCUED, RESCUED
  | RESIZED, RESIZED | SOFT_DELETED, SOFT_DELETED | DELETED, DELETED
  | ERROR, ERROR => true
  | _, _ => false
  end.
End vm_states.

Module task_states.
(** The step tags manager.py refers to; ['deleting'] (compared literally in
    [_run_instance]) is [DELETING]. *)
Inductive t :=
| SCHEDULING | NETWORKING | BLOCK_DEVICE_MAPPING | SPAWNING | DELETING
| SOFT_DELETING | RESTORING | POWERING_OFF | POWERING_ON | STOPPING
| STARTING | RESIZE_PREP | RESIZE_MIGRATING | RESIZE_MIGRATED
| RESIZE_FINISH | RESIZE_REVERTING | IMAGE_SNAPSHOT | IMAGE_BACKUP
| IMAGE_UPLOADING | REBUILDING | REBUILD_BLOCK_DEVICE_MAPPING
| REBUILD_SPAWNING | RESCUING | UNRESCUING | PAUSING | UNPAUSING
| SUSPENDING | MIGRATING.

Definition is_deleting (a : t) : bool :=
  match a with DELETING => true | _ => false end.
End task_states.

Module power_state.
Inductive t :=
| NOSTATE | RUNNING | PAUSED | SHUTDOWN | CRASHED | SUSPENDED | BUILDING.

Definition eqb (a b : t) : bool :=
  match a, b with
  | NOSTATE, NOSTATE | RUNNING, RUNNING | PAUSED, PAUSED
  | SHUTDOWN, SHUTDOWN | CRASHED, CRASHED | SUSPENDED, SUSPENDED
  | BUILDING, BUILDING => true
  | _, _ => false
  end.
End power_state.

(** ** Exceptions (all of them subclasses of Python's [Exception]) *)

Inductive exn :=
| InstanceNotFound
| UnexpectedTaskStateError (actual : option task_states.t)
| InstanceTerminationFailure
| NetworkNotFound
| DiskNotFound
| VolumeNotFound
| ComputeResourcesUnavailable
| NovaException
| InstanceExists
| ImageTooLarge
| ImageRotationNotAllowed
| RotationRequiredForBackup
| NotImplementedError
| KeyError
| IndexError
| OtherError (tag : nat).

(** [except exception.NotFound]: the not-found family. *)
Definition is_NotFound (e : exn) : bool :=
  match e with
  | InstanceNotFound | NetworkNotFound | DiskNotFound | VolumeNotFound => true
  | _ => false
  end.

Definition is_UnexpectedTaskStateError (e : exn) : bool :=
  match e with UnexpectedTaskStateError _ => true | _ => false end.

Definition is_InstanceNotFound (e : exn) : bool :=
  match e with InstanceNotFound => true | _ => false end.

(** [traceback.format_exception] applied to [exc_info]: the stringified
    failure. *)
Definition format_exception (e : exn) : list string :=
  match e with
  | InstanceNotFound => ["InstanceNotFound"]
  | UnexpectedTaskStateError _ => ["UnexpectedTaskStateError"]
  | InstanceTerminationFailure => ["InstanceTerminationFailure"]
  | NetworkNotFound => ["NetworkNotFound"]
  | DiskNotFound => ["DiskNotFound"]
  | VolumeNotFound => ["VolumeNotFound"]
  | ComputeResourcesUnavailable => ["ComputeResourcesUnavailable"]
  | NovaException => ["NovaException"]
  | InstanceExists => ["InstanceExists"]
  | ImageTooLarge => ["ImageTooLarge"]
  | ImageRotationNotAllowed => ["ImageRotationNotAllowed"]
  | RotationRequiredForBackup => ["RotationRequiredForBackup"]
  | NotImplementedError => ["NotImplementedError"]
  | KeyError => ["KeyError"]
  | IndexError => ["IndexError"]
  | OtherError _ => ["Exception"]
  end.

(** ** Records exchanged with the collaborators *)

(** An instance record as the record store returns it (the keys manager.py
    reads in the workflows below). *)
Record instance := Instance {
  uuid : string;
  name : string;
  host : string;
  node : string;
  vm_state : vm_states.t;
  task_state : option task_states.t;
  power_state_of : power_state.t;
  image_ref : option string;
  access_ip_v4 : option string;
  access_ip_v6 : option string;
  deleted_at : option Z;
  root_gb : Z
}.

(** Keyword arguments of [instance_update]. [kw_task_state None] is
    [task_state=None]; [kw_expected_task_state] carries the tuple of
    accepted task states. *)
Inductive kwarg :=
| kw_vm_state (v : vm_states.t)
| kw_task_state (t : option task_states.t)
| kw_expected_task_state (ts : list (option task_states.t))
| kw_power_state (p : power_state.t)
| kw_host (h : string)
| kw_node (n : string)
| kw_launched_at (t : Z)
| kw_terminated_at (t : Z)
| kw_system_metadata
| kw_access_ip_v4 (a : string)
| kw_access_ip_v6 (a : string).

Definition sets_task_state (k : kwarg) : bool :=
  match k with kw_task_state _ => true | _ => false end.

Definition sets_vm_state_to (v : vm_states.t) (k : kwarg) : bool :=
  match k with kw_vm_state v' => vm_states.eqb v v' | _ => false end.

(** A block device mapping row. *)
Record bdm := Bdm {
  bdm_id : nat;
  volume_id : option string;
  device_name : string;
  delete_on_termination : bool
}.

(** A backup image of the image service. *)
Record image := Image {
  image_id : string;
  created_at : Z
}.

(** [filter_properties['retry']]: a dict whose keys may be absent. *)
Record retry_info := Retry {
  num_attempts : option Z;
  retry_hosts : option (list string);
  retry_exc : option (list string)
}.

(** Python truthiness of the retry dict: some key is present. *)
Definition retry_truthy (r : retry_info) : bool :=
  match num_attempts r, retry_hosts r, retry_exc r with
  | None, None, None => false
  | _, _, _ => true
  end.

Record filter_properties_t := FilterProperties {
  fp_retry : option retry_info;
  fp_limits : list (string * Z)
}.

(** [request_spec]: the keys [_run_instance] and [_reschedule] touch, and
    the number of further keys (for truthiness). *)
Record request_spec_t := RequestSpec {
  rs_instance_uuids : option (list string);
  rs_security_group : option (list string);
  rs_other_keys : nat
}.

Definition request_spec_truthy (r : option request_spec_t) : bool :=
  match r with
  | None => false
  | Some d =>
      match rs_instance_uuids d, rs_security_group d, rs_other_keys d with
      | None, None, O => false
      | _, _, _ => true
      end
  end.

(** A virtual interface of [network_info]: the network label and the fixed
    ips as (version, address). *)
Record vif := Vif {
  vif_label : string;
  vif_fixed_ips : list (Z * string)
}.

(** Image metadata as [_get_image_meta] returns it ([size] may be absent). *)
Record image_meta_t := ImageMeta {
  im_id : string;
  im_name : string;
  im_size : option Z
}.

(** A migration record. *)
Record migration := Migration {
  migration_id : nat;
  source_compute : string;
  source_node : string;
  dest_compute : string;
  dest_node : string;
  dest_host : string;
  new_instance_type_id : nat
}.

(** ** Calls to the collaborators

    Every call that leaves the manager is an element of [call]; a run of a
    workflow is recorded as the list of the calls it made, each with the
    exception it raised, if any. *)

Inductive call :=
(* self.conductor_api *)
| conductor_instance_update (u : string) (kwargs : list kwarg)
| conductor_instance_get_by_uuid (u : string)
| conductor_instance_get_all_by_host (h : string)
| conductor_block_device_mapping_get_all_by_instance (u : string)
| conductor_instance_info_cache_delete (u : string)
| conductor_instance_destroy (u : string)
| conductor_block_device_mapping_destroy (ids : list nat)
| conductor_quota_rollback (reservations : list string)
| conductor_quota_commit (reservations : list string)
| conductor_migration_get (mid : nat)
| conductor_migration_update (mid : nat) (status : string)
| conductor_instance_type_get (type_id : nat)
| conductor_network_migrate_instance_start (u : string)
| conductor_compute_stop (u : string)
| conductor_action_event_start (u : string) (event_name : string)
| conductor_action_event_finish (u : string) (event_name : string)
(* compute_utils *)
| add_instance_fault_from_exc (u : string) (e : exn)
| notify_about_instance_usage (u : string) (event_suffix : string)
(* self.driver *)
| driver_instance_exists (n : string)
| driver_get_available_nodes
| driver_macs_for_instance (u : string)
| driver_spawn (u : string)
| driver_get_info (u : string)
| driver_destroy (u : string)
| driver_get_volume_connector (u : string)
| driver_migrate_disk_and_power_off (u : string) (dest : string)
| driver_confirm_migration (u : string)
| driver_legacy_nwinfo
| driver_get_num_instances
(* self.network_api *)
| network_allocate_for_instance (u : string)
| network_deallocate_for_instance (u : string)
| network_get_instance_nw_info (u : string)
| network_setup_networks_on_host (u : string) (h : string) (teardown : bool)
(* self.volume_api *)
| volume_get (v : string)
| volume_delete (v : string)
| volume_terminate_connection (v : string)
| volume_detach (v : string)
(* rpc apis *)
| scheduler_run_instance (request_spec : option request_spec_t)
                         (filter_properties : filter_properties_t)
| compute_rpcapi_finish_resize (u : string) (dest : string)
| consoleauth_delete_tokens_for_instance (u : string)
(* image services *)
| image_service_show (ref : string)
| image_service_detail (backup_type : string) (u : string)
| image_service_delete (id : string)
(* resource tracker of a node *)
| rt_instance_claim (n : string) (u : string)
| rt_claim_abort (n : string) (u : string)
| rt_update_usage (n : string) (u : string)
| rt_confirm_resize (n : string) (mid : nat)
(* the volume-service conversation of _setup_block_device_mapping *)
| setup_block_device_mapping (u : string)
(* LOG.exception (traceback of the exception being handled) and
   _log_original_error *)
| LOG_exception (msg : string) (e : exn)
| log_original_error (e : exn) (u : string).

Record event := Ev {
  ev_call : call;
  ev_raised : option exn
}.

(** ** The environment: configuration and the collaborators' behaviour

    The collaborators are deterministic functions of the history (the log of
    the calls made so far, newest first): [raises] says whether a call
    raises, the other fields give the value a successful call returns. *)
Record Env := {
  (* self.host and CONF *)
  self_host : string;
  is_quantum_security_groups : bool;
  default_access_ip_network_name : option string;
  reclaim_instance_interval : Z;
  vnc_enabled : bool;
  spice_enabled : bool;
  (* behaviour *)
  raises : call -> list event -> option exn;
  instance_update_result : string -> list kwarg -> list event -> instance;
  instance_get_by_uuid_result : string -> list event -> instance;
  instance_get_all_by_host_result : list event -> list instance;
  block_device_mappings : string -> list event -> list bdm;
  migration_get_result : nat -> list event -> migration;
  available_nodes : list event -> list string;
  instance_exists : string -> list event -> bool;
  get_info_state : string -> list event -> power_state.t;
  nw_info : string -> list event -> list vif;
  image_show : string -> list event -> image_meta_t;
  image_detail : string -> string -> list event -> list image;
  utcnow : list event -> Z
}.

(** ** The state of the manager process

    [log] is the history, newest call first. [_resource_tracker_dict] holds
    the node names that have a tracker. [request_spec_obj] and
    [filter_properties_obj] are the two dict objects of a build request:
    the workflow and the tuple [method_args] hold references to the same
    objects, so a mutation is seen by whoever reads them later. *)
Record World := {
  log : list event;
  _resource_tracker_dict : list string;
  request_spec_obj : option request_spec_t;
  filter_properties_obj : filter_properties_t
}.

Definition record (ev : event) (w : World) : World :=
  {| log := ev :: log w;
     _resource_tracker_dict := _resource_tracker_dict w;
     request_spec_obj := request_spec_obj w;
     filter_properties_obj := filter_properties_obj w |}.

Definition set_resource_tracker_dict (d : list string) (w : World) : World :=
  {| log := log w;
     _resource_tracker_dict := d;
     request_spec_obj := request_spec_obj w;
     filter_properties_obj := filter_properties_obj w |}.

Definition set_request_spec_obj (r : option request_spec_t) (w : World) : World :=
  {| log := log w;
     _resource_tracker_dict := _resource_tracker_dict w;
     request_spec_obj := r;
     filter_properties_obj := filter_properties_obj w |}.

Definition set_filter_properties_obj (f : filter_properties_t) (w : World) : World :=
  {| log := log w;
     _resource_tracker_dict := _resource_tracker_dict w;
     request_spec_obj := request_spec_obj w;
     filter_properties_obj := f |}.

(** ** The monad: state passing with exceptions *)

Inductive result (A : Type) :=
| Ok (a : A)
| Raise (e : exn).
Arguments Ok {A} a.
Arguments Raise {A} e.

Definition M (A : Type) : Type := World -> result A * World.

Definition ret {A} (a : A) : M A := fun w => (Ok a, w).

Definition raise {A} (e : exn) : M A := fun w => (Raise e, w).

Definition bind {A B} (m : M A) (k : A -> M B) : M B :=
  fun w =>
    match m w with
    | (Ok a, w') => k a w'
    | (Raise e, w') => (Raise e, w')
    end.

Declare Scope py_scope.
Delimit Scope py_scope with py.
Notation "x <- m ;; k" := (bind m (fun x => k))
  (at level 100, m at next level, right associativity) : py_scope.
Notation "m ;;; k" := (bind m (fun _ => k))
  (at level 100, right associativity) : py_scope.
Open Scope py_scope.

(** [try: body  except Exception as e: handler e]. The handler re-raises
    what its [except] clauses do not match. *)
Definition try_except {A} (body : M A) (handler : exn -> M A) : M A :=
  fun w =>
    match body w with
    | (Ok a, w') => (Ok a, w')
    | (Raise e, w') => handler e w'
    end.

(** [try: body  except ...: handler  else: orelse]: the [else] suite runs
    after a body that did not raise, outside the reach of the handlers. *)
Definition try_except_else {A B} (body : M A) (handler : exn -> M B)
           (orelse : A -> M B) : M B :=
  fun w =>
    match body w with
    | (Ok a, w') => orelse a w'
    | (Raise e, w') => handler e w'
    end.

(** Modelled from the spec: [excutils.save_and_reraise_exception] is not
    among the sources. Section 7 has the saved exception "re-raised to the
    caller" once the suite is done; a suite that raises itself lets its own
    exception out, as any Python [with] block does. *)
Definition save_and_reraise_exception {A} (saved : exn) (suite : M unit) : M A :=
  fun w =>
    match suite w with
    | (Ok _, w') => (Raise saved, w')
    | (Raise e, w') => (Raise e, w')
    end.

(** [for x in xs: f x] *)
Fixpoint for_each {A} (xs : list A) (f : A -> M unit) : M unit :=
  match xs with
  | [] => ret tt
  | x :: xs' => f x ;;; for_each xs' f
  end.

Definition get_world : M World := fun w => (Ok w, w).

Definition modify (f : World -> World) : M unit := fun w => (Ok tt, f w).

(** [with cm: suite] for a context manager whose [__exit__] runs [on_exit]
    and returns a false value: the suite's exception goes on unless
    [on_exit] raises itself. *)
Definition with_exit {A} (suite : M A) (on_exit : option exn -> M unit) : M A :=
  fun w =>
    match suite w with
    | (Ok a, w') => (on_exit None ;;; ret a) w'
    | (Raise e, w') => (on_exit (Some e) ;;; raise e) w'
    end.

Definition mem (s : string) (l : list string) : bool :=
  existsb (String.eqb s) l.

(** ** The instance entry points of ComputeManager

    The public methods of ComputeManager that take an instance, in the
    order of the source, with the decorators each one has there. *)
Module rpc.
Inductive t :=
| refresh_instance_security_rules | run_instance | terminate_instance
| stop_instance | start_instance | soft_delete_instance | restore_instance
| power_off_instance | power_on_instance | rebuild_instance
| reboot_instance | snapshot_instance | set_admin_password | inject_file
| rescue_instance | unrescue_instance | change_instance_metadata
| confirm_resize | revert_resize | finish_revert_resize | prep_resize
| resize_instance | finish_resize | add_fixed_ip_to_instance
| remove_fixed_ip_from_instance | pause_instance | unpause_instance
| get_diagnostics | suspend_instance | resume_instance | reset_network
| inject_network_info | get_console_output | get_vnc_console
| get_spice_console | validate_console_port | reserve_block_device_name
| attach_volume | detach_volume | remove_volume_connection
| attach_interface | detach_interface | check_can_live_migrate_destination
| check_can_live_migrate_source | pre_live_migration | live_migration
| post_live_migration_at_destination
| rollback_live_migration_at_destination.

Definition func_name (ep : t) : string :=
  match ep with
  | refresh_instance_security_rules => "refresh_instance_security_rules"
  | run_instance => "run_instance"
  | terminate_instance => "terminate_instance"
  | stop_instance => "stop_instance"
  | start_instance => "start_instance"
  | soft_delete_instance => "soft_delete_instance"
  | restore_instance => "restore_instance"
  | power_off_instance => "power_off_instance"
  | power_on_instance => "power_on_instance"
  | rebuild_instance => "rebuild_instance"
  | reboot_instance => "reboot_instance"
  | snapshot_instance => "snapshot_instance"
  | set_admin_password => "set_admin_password"
  | inject_file => "inject_file"
  | rescue_instance => "rescue_instance"
  | unrescue_instance => "unrescue_instance"
  | change_instance_metadata => "change_instance_metadata"
  | confirm_resize => "confirm_resize"
  | revert_resize => "revert_resize"
  | finish_revert_resize => "finish_revert_resize"
  | prep_resize => "prep_resize"
  | resize_instance => "resize_instance"
  | finish_resize => "finish_resize"
  | add_fixed_ip_to_instance => "add_fixed_ip_to_instance"
  | remove_fixed_ip_from_instance => "remove_fixed_ip_from_instance"
  | pause_instance => "pause_instance"
  | unpause_instance => "unpause_instance"
  | get_diagnostics => "get_diagnostics"
  | suspend_instance => "suspend_instance"
  | resume_instance => "resume_instance"
  | reset_network => "reset_network"
  | inject_network_info => "inject_network_info"
  | get_console_output => "get_console_output"
  | get_vnc_console => "get_vnc_console"
  | get_spice_console => "get_spice_console"
  | validate_console_port => "validate_console_port"
  | reserve_block_device_name => "reserve_block_device_name"
  | attach_volume => "attach_volume"
  | detach_volume => "detach_volume"
  | remove_volume_connection => "remove_volume_connection"
  | attach_interface => "attach_interface"
  | detach_interface => "detach_interface"
  | check_can_live_migrate_destination =>
      "check_can_live_migrate_destination"
  | check_can_live_migrate_source => "check_can_live_migrate_source"
  | pre_live_migration => "pre_live_migration"
  | live_migration => "live_migration"
  | post_live_migration_at_destination =>
      "post_live_migration_at_destination"
  | rollback_live_migration_at_destination =>
      "rollback_live_migration_at_destination"
  end.

(** Decorated with [@reverts_task_state]. *)
Definition has_reverts_task_state (ep : t) : bool :=
  match ep with
  | run_instance | stop_instance | start_instance | soft_delete_instance
  | restore_instance | power_off_instance | power_on_instance
  | rebuild_instance | reboot_instance | snapshot_instance
  | set_admin_password | inject_file | rescue_instance | unrescue_instance
  | change_instance_metadata | revert_resize | finish_revert_resize
  | prep_resize | resize_instance | finish_resize | add_fixed_ip_to_instance
  | remove_fixed_ip_from_instance | pause_instance | unpause_instance
  | suspend_instance | resume_instance | reset_network
  | reserve_block_device_name | attach_volume | detach_volume => true
  | _ => false
  end.

(** Decorated with [@wrap_instance_event]. *)
Definition has_wrap_instance_event (ep : t) : bool :=
  match ep with
  | run_instance | terminate_instance | stop_instance | start_instance
  | soft_delete_instance | restore_instance | rebuild_instance
  | reboot_instance | set_admin_password | rescue_instance
  | unrescue_instance | confirm_resize | revert_resize
  | finish_revert_resize | prep_resize | resize_instance | finish_resize
  | pause_instance | unpause_instance | suspend_instance
  | resume_instance => true
  | _ => false
  end.

(** Decorated with [@wrap_instance_fault]. *)
Definition has_wrap_instance_fault (ep : t) : bool :=
  match ep with
  | run_instance | terminate_instance | stop_instance | start_instance
  | soft_delete_instance | restore_instance | power_off_instance
  | power_on_instance | rebuild_instance | reboot_instance
  | snapshot_instance | set_admin_password | inject_file | rescue_instance
  | unrescue_instance | change_instance_metadata | confirm_resize
  | revert_resize | finish_revert_resize | prep_resize | resize_instance
  | finish_resize | add_fixed_ip_to_instance | remove_fixed_ip_from_instance
  | pause_instance | unpause_instance | get_diagnostics | suspend_instance
  | resume_instance | reset_network | inject_network_info
  | get_console_output | get_vnc_console | get_spice_console
  | validate_console_port | reserve_block_device_name | attach_volume
  | detach_volume => true
  | _ => false
  end.
End rpc.

Section Manager.

Variable env : Env.

(** *** Primitive steps *)

(** A call to a collaborator: recorded, and raising when [raises] says so. *)
Definition ext (c : call) : M unit :=
  fun w =>
    match raises env c (log w) with
    | None => (Ok tt, record (Ev c None) w)
    | Some e => (Raise e, record (Ev c (Some e)) w)
    end.

(** A call whose return value is used. *)
Definition ask {A} (c : call) (value : list event -> A) : M A :=
  fun w =>
    match raises env c (log w) with
    | None => (Ok (value (log w)), record (Ev c None) w)
    | Some e => (Raise e, record (Ev c (Some e)) w)
    end.

(** A log line that matters to the properties below. *)
Definition note (c : call) : M unit :=
  fun w => (Ok tt, record (Ev c None) w).

(** *** Helpers of ComputeManager *)

Definition _get_resource_tracker (nodename : string) : M string :=
  w <- get_world ;;
  if mem nodename (_resource_tracker_dict w) then ret nodename
  else
    nodes <- ask driver_get_available_nodes (available_nodes env) ;;
    if negb (mem nodename nodes) then raise NovaException
    else
      modify (fun w =>
                set_resource_tracker_dict
                  (nodename :: _resource_tracker_dict w) w) ;;;
      ret nodename.

Definition _instance_update (instance_uuid : string) (kwargs : list kwarg)
  : M instance :=
  instance_ref <- ask (conductor_instance_update instance_uuid kwargs)
                      (instance_update_result env instance_uuid kwargs) ;;
  (if String.eqb (host instance_ref) (self_host env) then
     nodes <- ask driver_get_available_nodes (available_nodes env) ;;
     if mem (node instance_ref) nodes then
       rt <- _get_resource_tracker (node instance_ref) ;;
       ext (rt_update_usage rt (uuid instance_ref))
     else ret tt
   else ret tt) ;;;
  ret instance_ref.

Definition _set_instance_error_state (instance_uuid : string) : M unit :=
  try_except
    (_instance_update instance_uuid [kw_vm_state vm_states.ERROR] ;;; ret tt)
    (fun e => if is_InstanceNotFound e then ret tt else raise e).

Definition _get_power_state (i : instance) : M power_state.t :=
  try_except
    (ask (driver_get_info (uuid i)) (get_info_state env (uuid i)))
    (fun e => if is_NotFound e then ret power_state.NOSTATE else raise e).

Definition _notify_about_instance_usage (i : instance) (event_suffix : string)
  : M unit :=
  ext (notify_about_instance_usage (uuid i) event_suffix).

Definition _deallocate_network (i : instance) : M unit :=
  ext (network_deallocate_for_instance (uuid i)).

Definition _get_instance_nw_info (i : instance) : M (list vif) :=
  ask (network_get_instance_nw_info (uuid i)) (nw_info env (uuid i)).

Definition _legacy_nw_info (network_info : list vif) : M (list vif) :=
  ext driver_legacy_nwinfo ;;; ret network_info.

Definition _quota_commit (reservations : list string) : M unit :=
  match reservations with
  | [] => ret tt
  | _ => ext (conductor_quota_commit reservations)
  end.

Definition _quota_rollback (reservations : list string) : M unit :=
  match reservations with
  | [] => ret tt
  | _ => ext (conductor_quota_rollback reservations)
  end.

(** *** Decorators *)

(** [reverts_task_state]: [kwargs_instance] is [kwargs['instance']['uuid']],
    [None] when the instance was not passed by keyword (the [KeyError] is
    swallowed with the rest). *)
Definition reverts_task_state {A} (kwargs_instance : option string)
           (function : M A) : M A :=
  try_except function
    (fun e =>
       if is_UnexpectedTaskStateError e then
         note (LOG_exception "Possibly task preempted." e) ;;;
         raise e
       else
         save_and_reraise_exception e
           (try_except
              (match kwargs_instance with
               | Some u => _instance_update u [kw_task_state None] ;;; ret tt
               | None => raise KeyError
               end)
              (fun _ => ret tt))).

Definition wrap_instance_fault {A} (instance_uuid : string) (function : M A)
  : M A :=
  try_except function
    (fun e =>
       if is_InstanceNotFound e then raise e
       else
         save_and_reraise_exception e
           (ext (add_instance_fault_from_exc instance_uuid e))).

(** Modelled from the spec: [compute_utils.EventReporter] is not among the
    sources; section 9 has it report the start and the result of the
    action around the workflow body. *)
Definition EventReporter {A} (event_name instance_uuid : string)
           (suite : M A) : M A :=
  ext (conductor_action_event_start instance_uuid event_name) ;;;
  with_exit suite
    (fun _ => ext (conductor_action_event_finish instance_uuid event_name)).

(** The decorated function's value is dropped. *)
Definition wrap_instance_event {A} (func_name instance_uuid : string)
           (function : M A) : M unit :=
  EventReporter (String.append "compute_" func_name) instance_uuid
                (function ;;; ret tt).

(** An entry point under the decorators it has: [wrap_instance_fault]
    innermost, then [wrap_instance_event], then [reverts_task_state].
    ([exception.wrap_exception], outermost in the source, only notifies and
    re-raises; the per-uuid lock is moot in a sequential run.) *)
Definition under_inner_decorators (ep : rpc.t) (instance_uuid : string)
           (function : M unit) : M unit :=
  let f1 := if rpc.has_wrap_instance_fault ep
            then wrap_instance_fault instance_uuid function
            else function in
  if rpc.has_wrap_instance_event ep
  then wrap_instance_event (rpc.func_name ep) instance_uuid f1
  else f1.

Definition decorated (ep : rpc.t) (instance_uuid : string) (function : M unit)
  : M unit :=
  if rpc.has_reverts_task_state ep
  then reverts_task_state (Some instance_uuid)
                          (under_inner_decorators ep instance_uuid function)
  else under_inner_decorators ep instance_uuid function.

(** [_error_out_instance_on_exception] *)
Definition _error_out_instance_on_exception {A} (instance_uuid : string)
           (reservations : list string) (suite : M A) : M A :=
  try_except suite
    (fun error =>
       _quota_rollback reservations ;;;
       save_and_reraise_exception error
         (_set_instance_error_state instance_uuid)).


(** *** Build workflow *)

Definition truthy_str (s : option string) : bool :=
  match s with
  | Some s => negb (String.eqb s "")
  | None => false
  end.

Definition _check_instance_exists (i : instance) : M unit :=
  exists_ <- ask (driver_instance_exists (name i))
                 (instance_exists env (name i)) ;;
  if exists_ then raise InstanceExists else ret tt.

(** Returns the image metadata, [None] for the empty dict of an instance
    started from a volume. *)
Definition _check_image_size (i : instance) : M (option image_meta_t) :=
  match image_ref i with
  | Some ref =>
      if negb (String.eqb ref "") then
        image_meta <- ask (image_service_show ref) (image_show env ref) ;;
        match im_size image_meta with
        | None => ret (Some image_meta)
        | Some size_bytes =>
            let allowed_size_gb := root_gb i in
            if Z.eqb allowed_size_gb 0 then ret (Some image_meta)
            else
              let allowed_size_bytes := allowed_size_gb * 1024 * 1024 * 1024 in
              if Z.ltb allowed_size_bytes size_bytes then raise ImageTooLarge
              else ret (Some image_meta)
        end
      else ret None
  | None => ret None
  end.

Definition _start_building (i : instance) : M unit :=
  _instance_update (uuid i)
    [kw_vm_state vm_states.BUILDING; kw_task_state None;
     kw_expected_task_state [Some task_states.SCHEDULING; None]] ;;;
  ret tt.

Definition _allocate_network (i : instance) : M (list vif) :=
  i' <- _instance_update (uuid i)
          [kw_vm_state vm_states.BUILDING;
           kw_task_state (Some task_states.NETWORKING);
           kw_expected_task_state [None]] ;;
  try_except
    (ask (network_allocate_for_instance (uuid i')) (nw_info env (uuid i')))
    (fun e => note (LOG_exception "Instance failed network setup" e) ;;;
              raise e).

(** [_setup_block_device_mapping] only talks to the volume service and to
    the block-device rows of the record store; that conversation is one
    step here. *)
Definition _setup_block_device_mapping (i : instance) (bdms : list bdm)
  : M unit :=
  ext (setup_block_device_mapping (uuid i)).

Definition _prep_block_device (i : instance) (bdms : list bdm) : M unit :=
  try_except
    (_setup_block_device_mapping i bdms)
    (fun e => note (LOG_exception "Instance failed block device setup" e) ;;;
              raise e).

Definition _spawn (i : instance) (network_info : list vif) : M instance :=
  i' <- _instance_update (uuid i)
          [kw_vm_state vm_states.BUILDING;
           kw_task_state (Some task_states.SPAWNING);
           kw_expected_task_state [Some task_states.BLOCK_DEVICE_MAPPING]] ;;
  try_except
    (_legacy_nw_info network_info ;;; ext (driver_spawn (uuid i')))
    (fun e => note (LOG_exception "Instance failed to spawn" e) ;;;
              raise e) ;;;
  current_power_state <- _get_power_state i' ;;
  w <- get_world ;;
  _instance_update (uuid i')
    [kw_power_state current_power_state; kw_vm_state vm_states.ACTIVE;
     kw_task_state None;
     kw_expected_task_state [Some task_states.SPAWNING];
     kw_launched_at (utcnow env (log w))].

Definition _log_original_error (e : exn) (instance_uuid : string) : M unit :=
  note (log_original_error e instance_uuid).

(** [scheduler_rpcapi.run_instance] called with [method_args]: the tuple
    holds the request_spec and filter_properties objects, read when the
    call is made. *)
Definition scheduler_rpcapi_run_instance : M unit :=
  w <- get_world ;;
  ext (scheduler_run_instance (request_spec_obj w) (filter_properties_obj w)).

(** Returns [true] for [True] and [false] for the bare [return]. *)
Definition _reschedule (instance_uuid : string) (scheduler_method : M unit)
           (task_state : task_states.t) (exc_info : option exn) : M bool :=
  w <- get_world ;;
  match fp_retry (filter_properties_obj w) with
  | None => ret false
  | Some retry =>
      if negb (retry_truthy retry) then ret false
      else
        match request_spec_obj w with
        | None => ret false
        | Some request_spec =>
            if negb (request_spec_truthy (Some request_spec)) then ret false
            else
              modify (set_request_spec_obj
                        (Some {| rs_instance_uuids := Some [instance_uuid];
                                 rs_security_group := rs_security_group request_spec;
                                 rs_other_keys := rs_other_keys request_spec |})) ;;;
              match num_attempts retry with
              | None => raise KeyError
              | Some _ => ret tt
              end ;;;
              _instance_update instance_uuid [kw_task_state (Some task_state)] ;;;
              match exc_info with
              | Some e =>
                  modify (fun w =>
                    set_filter_properties_obj
                      {| fp_retry := Some {| num_attempts := num_attempts retry;
                                             retry_hosts := retry_hosts retry;
                                             retry_exc := Some (format_exception e) |};
                         fp_limits := fp_limits (filter_properties_obj w) |} w)
              | None => ret tt
              end ;;;
              scheduler_method ;;;
              ret true
        end
  end.

Definition _reschedule_or_reraise (i : instance) (exc_info : exn) : M unit :=
  let instance_uuid := uuid i in
  ext (add_instance_fault_from_exc instance_uuid exc_info) ;;;
  try_except (_deallocate_network i)
    (fun e => _log_original_error exc_info instance_uuid ;;; raise e) ;;;
  rescheduled <-
    try_except
      (_reschedule instance_uuid scheduler_rpcapi_run_instance
                   task_states.SCHEDULING (Some exc_info))
      (fun e => note (LOG_exception "Error trying to reschedule" e) ;;;
                ret false) ;;
  if rescheduled then _log_original_error exc_info instance_uuid
  else raise exc_info.

(** [_update_access_ip]: the last matching address of each version wins. *)
Definition access_ips_of (network_name : string) (nw : list vif)
  : option string * option string :=
  fold_left
    (fun acc v =>
       if String.eqb (vif_label v) network_name then
         fold_left
           (fun acc' ip =>
              let acc4 := if Z.eqb (fst ip) 4 then (Some (snd ip), snd acc')
                          else acc' in
              if Z.eqb (fst ip) 6 then (fst acc4, Some (snd ip)) else acc4)
           (vif_fixed_ips v) acc
       else acc)
    nw (None, None).

Definition _update_access_ip (i : instance) (nw : list vif) : M instance :=
  match default_access_ip_network_name env with
  | None => ret i
  | Some network_name =>
      if String.eqb network_name "" then ret i
      else
        match access_ips_of network_name nw with
        | (None, None) => ret i
        | (Some a4, None) => _instance_update (uuid i) [kw_access_ip_v4 a4]
        | (None, Some a6) => _instance_update (uuid i) [kw_access_ip_v6 a6]
        | (Some a4, Some a6) =>
            _instance_update (uuid i) [kw_access_ip_v4 a4; kw_access_ip_v6 a6]
        end
  end.

(** Modelled from the spec: the claim object of [rt.instance_claim] is not
    among the sources. Section 3 has a claim "either committed (on
    success) or rolled back (on failure/reschedule)": leaving the [with]
    block on an exception aborts the claim. *)
Definition instance_claim {A} (rt : string) (i : instance) (suite : M A)
  : M A :=
  ext (rt_instance_claim rt (uuid i)) ;;;
  with_exit suite
    (fun exc => match exc with
                | Some _ => ext (rt_claim_abort rt (uuid i))
                | None => ret tt
                end).

(** The statements of [_run_instance] before the inner [try]: returns the
    image metadata, the block device rows and the tracker of the node. *)
Definition build_prelude (node : option string) (i : instance)
  : M (option image_meta_t * list bdm * string) :=
  _check_instance_exists i ;;;
  image_meta <- _check_image_size i ;;
  node <- match node with
          | Some n => ret n
          | None =>
              nodes <- ask driver_get_available_nodes (available_nodes env) ;;
              match nodes with
              | n :: _ => ret n
              | [] => raise IndexError
              end
          end ;;
  _start_building i ;;;
  _notify_about_instance_usage i "create.start" ;;;
  bdms <- ask (conductor_block_device_mapping_get_all_by_instance (uuid i))
              (block_device_mappings env (uuid i)) ;;
  rt <- _get_resource_tracker node ;;
  ret (image_meta, bdms, rt).

(** The body of the inner [try]: the [with rt.instance_claim] block. *)
Definition claimed_region (rt : string) (i : instance) (bdms : list bdm)
  : M (instance * list vif) :=
  instance_claim rt i
    (ext (driver_macs_for_instance (uuid i)) ;;;
     network_info <- _allocate_network i ;;
     _instance_update (uuid i)
       [kw_vm_state vm_states.BUILDING;
        kw_task_state (Some task_states.BLOCK_DEVICE_MAPPING)] ;;;
     _prep_block_device i bdms ;;;
     i' <- _spawn i network_info ;;
     ret (i', network_info)).

(** The [except] clauses of the inner [try]. In the first one the bare
    [raise] follows a nested [try]: under Python 2 it re-raises the
    exception handled last, the deallocation failure if there was one. *)
Definition build_failed (i : instance) (e : exn) : M unit :=
  match e with
  | InstanceNotFound =>
      try_except_else (_deallocate_network i)
        (fun d =>
           note (LOG_exception
                   "Failed to dealloc network for deleted instance" d) ;;;
           raise d)
        (fun _ => raise InstanceNotFound)
  | UnexpectedTaskStateError actual_task_state =>
      match actual_task_state with
      | Some task_states.DELETING => ret tt
      | _ => raise e
      end
  | _ => _reschedule_or_reraise i e
  end.

(** The [else] clause of the inner [try]. *)
Definition spawn_succeeded (is_first_time : bool)
           (r : instance * list vif) : M unit :=
  let (i, network_info) := r in
  i' <- (if is_first_time && negb (truthy_str (access_ip_v4 i))
            && negb (truthy_str (access_ip_v6 i))
         then _update_access_ip i network_info
         else ret i) ;;
  _notify_about_instance_usage i' "create.end".

Definition _run_instance (is_first_time : bool) (node : option string)
           (i : instance) : M unit :=
  try_except
    (p <- build_prelude node i ;;
     let '(image_meta, bdms, rt) := p in
     try_except_else (claimed_region rt i bdms)
                     (build_failed i)
                     (spawn_succeeded is_first_time))
    (fun e =>
       save_and_reraise_exception e (_set_instance_error_state (uuid i))).

Definition run_instance (i : instance) (is_first_time : bool)
           (node : option string) : M unit :=
  decorated rpc.run_instance (uuid i) (_run_instance is_first_time node i).

(** *** Delete workflow *)

Definition _get_volume_bdms (bdms : list bdm) : list bdm :=
  filter (fun b => truthy_str (volume_id b)) bdms.

Definition _get_instance_volume_bdms (i : instance) : M (list bdm) :=
  bdms <- ask (conductor_block_device_mapping_get_all_by_instance (uuid i))
              (block_device_mappings env (uuid i)) ;;
  ret (_get_volume_bdms bdms).

(** Returns no value here: [_get_volume_block_device_info] is pure. *)
Definition _get_instance_volume_block_device_info (i : instance)
           (bdms : option (list bdm)) : M unit :=
  match bdms with
  | None => _get_instance_volume_bdms i ;;; ret tt
  | Some _ => ret tt
  end.

Definition volume_of (b : bdm) : string :=
  match volume_id b with Some v => v | None => "" end.

Definition _shutdown_instance (i : instance) (bdms : list bdm) : M unit :=
  _notify_about_instance_usage i "shutdown.start" ;;;
  network_info <-
    try_except (_get_instance_nw_info i)
      (fun e => match e with NetworkNotFound => ret [] | _ => raise e end) ;;
  try_except (_deallocate_network i)
    (fun e =>
       save_and_reraise_exception e (_set_instance_error_state (uuid i))) ;;;
  let vol_bdms := _get_volume_bdms bdms in
  _get_instance_volume_block_device_info i (Some bdms) ;;;
  _legacy_nw_info network_info ;;;
  ext (driver_destroy (uuid i)) ;;;
  for_each vol_bdms
    (fun b =>
       try_except
         (ext (volume_get (volume_of b)) ;;;
          ext (driver_get_volume_connector (uuid i)) ;;;
          ext (volume_terminate_connection (volume_of b)) ;;;
          ext (volume_detach (volume_of b)))
         (fun e => match e with
                   | DiskNotFound => ret tt
                   | VolumeNotFound => ret tt
                   | _ => raise e
                   end)) ;;;
  _notify_about_instance_usage i "shutdown.end".

Definition _cleanup_volumes (instance_uuid : string) (bdms : list bdm)
  : M unit :=
  for_each bdms
    (fun b =>
       if truthy_str (volume_id b) && delete_on_termination b then
         ext (volume_get (volume_of b)) ;;;
         ext (volume_delete (volume_of b))
       else ret tt).

Definition _delete_instance (i : instance) (bdms : list bdm) : M unit :=
  let instance_uuid := uuid i in
  ext (conductor_instance_info_cache_delete instance_uuid) ;;;
  _notify_about_instance_usage i "delete.start" ;;;
  _shutdown_instance i bdms ;;;
  try_except (_cleanup_volumes instance_uuid bdms) (fun _ => ret tt) ;;;
  w <- get_world ;;
  i' <- _instance_update instance_uuid
          [kw_vm_state vm_states.DELETED; kw_task_state None;
           kw_terminated_at (utcnow env (log w))] ;;
  ext (conductor_instance_destroy (uuid i')) ;;;
  ext (conductor_block_device_mapping_destroy (map bdm_id bdms)) ;;;
  _notify_about_instance_usage i' "delete.end" ;;;
  if vnc_enabled env || spice_enabled env then
    ext (consoleauth_delete_tokens_for_instance (uuid i'))
  else ret tt.

(** The locked closure of [terminate_instance]. *)
Definition do_terminate_instance (i : instance) (bdms : list bdm) : M unit :=
  try_except (_delete_instance i bdms)
    (fun e =>
       match e with
       | InstanceTerminationFailure => _set_instance_error_state (uuid i)
       | InstanceNotFound => ret tt
       | _ => raise e
       end).

(** The body of [terminate_instance]; [bdms] is falsy for [None] and for
    the empty list. *)
Definition terminate_instance_body (i : instance) (bdms : list bdm)
  : M unit :=
  bdms <- match bdms with
          | [] => _get_instance_volume_bdms i
          | _ => ret bdms
          end ;;
  do_terminate_instance i bdms.

(** *** Resize workflow *)

Definition _terminate_volume_connections (i : instance) : M unit :=
  bdms <- _get_instance_volume_bdms i ;;
  match bdms with
  | [] => ret tt
  | _ =>
      ext (driver_get_volume_connector (uuid i)) ;;;
      for_each bdms
        (fun b =>
           ext (volume_get (volume_of b)) ;;;
           ext (volume_terminate_connection (volume_of b)))
  end.

Definition fetch_migration (m : option migration) (mid : nat) : M migration :=
  match m with
  | Some m => ret m
  | None => ask (conductor_migration_get mid) (migration_get_result env mid)
  end.

(** The suite of the [with self._error_out_instance_on_exception(...)]
    block of [resize_instance]. *)
Definition resize_instance_steps (i : instance) (reservations : list string)
           (m : migration) (instance_type : option nat) : M unit :=
  match instance_type with
  | Some _ => ret tt
  | None => ext (conductor_instance_type_get (new_instance_type_id m))
  end ;;;
  network_info <- _get_instance_nw_info i ;;
  ext (conductor_migration_update (migration_id m) "migrating") ;;;
  i1 <- _instance_update (uuid i)
          [kw_task_state (Some task_states.RESIZE_MIGRATING);
           kw_expected_task_state [Some task_states.RESIZE_PREP]] ;;
  _notify_about_instance_usage i1 "resize.start" ;;;
  _get_instance_volume_block_device_info i1 None ;;;
  _legacy_nw_info network_info ;;;
  ext (driver_migrate_disk_and_power_off (uuid i1) (dest_host m)) ;;;
  _terminate_volume_connections i1 ;;;
  ext (conductor_network_migrate_instance_start (uuid i1)) ;;;
  ext (conductor_migration_update (migration_id m) "post-migrating") ;;;
  i2 <- _instance_update (uuid i1)
          [kw_host (dest_compute m); kw_node (dest_node m);
           kw_task_state (Some task_states.RESIZE_MIGRATED);
           kw_expected_task_state [Some task_states.RESIZE_MIGRATING]] ;;
  ext (compute_rpcapi_finish_resize (uuid i2) (dest_compute m)) ;;;
  _notify_about_instance_usage i2 "resize.end".

Definition resize_instance_body (i : instance) (reservations : list string)
           (m : option migration) (mid : nat) (instance_type : option nat)
  : M unit :=
  m <- fetch_migration m mid ;;
  _error_out_instance_on_exception (uuid i) reservations
    (resize_instance_steps i reservations m instance_type).

Definition confirm_resize_body (i : instance) (reservations : list string)
           (m : option migration) (mid : nat) : M unit :=
  m <- fetch_migration m mid ;;
  _notify_about_instance_usage i "resize.confirm.start" ;;;
  _error_out_instance_on_exception (uuid i) reservations
    (_instance_update (uuid i) [kw_system_metadata] ;;;
     ext (network_setup_networks_on_host (uuid i) (source_compute m) true) ;;;
     network_info <- _get_instance_nw_info i ;;
     _legacy_nw_info network_info ;;;
     ext (driver_confirm_migration (uuid i)) ;;;
     rt <- _get_resource_tracker (source_node m) ;;
     ext (rt_confirm_resize rt (migration_id m)) ;;;
     _notify_about_instance_usage i "resize.confirm.end" ;;;
     _quota_commit reservations).

Definition terminate_instance (i : instance) (bdms : list bdm) : M unit :=
  decorated rpc.terminate_instance (uuid i) (terminate_instance_body i bdms).

Definition resize_instance (i : instance) (reservations : list string)
           (m : option migration) (mid : nat) (instance_type : option nat)
  : M unit :=
  decorated rpc.resize_instance (uuid i)
            (resize_instance_body i reservations m mid instance_type).

Definition confirm_resize (i : instance) (reservations : list string)
           (m : option migration) (mid : nat) : M unit :=
  decorated rpc.confirm_resize (uuid i)
            (confirm_resize_body i reservations m mid).

(** *** Backup rotation *)

(** [images.pop()]: the last element and the rest. *)
Definition pop {A} (l : list A) : option (A * list A) :=
  match rev l with
  | [] => None
  | x :: r => Some (x, rev r)
  end.

(** [for i in xrange(excess): image = images.pop(); ... delete]. *)
Fixpoint rotate_out (excess : nat) (images : list image) : M unit :=
  match excess with
  | O => ret tt
  | S n =>
      match pop images with
      | None => raise IndexError
      | Some (img, images') =>
          ext (image_service_delete (image_id img)) ;;;
          rotate_out n images'
      end
  end.

(** [_rotate_backups], decorated with [wrap_instance_fault]; the caller
    ([snapshot_instance]) reaches it only with [rotation >= 0]. *)
Definition _rotate_backups (i : instance) (backup_type : string)
           (rotation : Z) : M unit :=
  wrap_instance_fault (uuid i)
    (images <- ask (image_service_detail backup_type (uuid i))
                   (image_detail env backup_type (uuid i)) ;;
     let num_images := Z.of_nat (List.length images) in
     if Z.ltb rotation num_images then
       let excess := Z.of_nat (List.length images) - rotation in
       rotate_out (Z.to_nat excess) images
     else ret tt).

(** *** Periodic tasks *)

(** [try: self.conductor_api.compute_stop(...)  except Exception:
    LOG.exception(...)] *)
Definition call_stop_api (db_instance : instance) : M unit :=
  try_except (ext (conductor_compute_stop (uuid db_instance)))
    (fun e => note (LOG_exception "error during stop() in sync_power_state." e)).

Definition _sync_instance_power_state (db_instance : instance)
           (vm_power_state : power_state.t) : M unit :=
  u <- ask (conductor_instance_get_by_uuid (uuid db_instance))
           (instance_get_by_uuid_result env (uuid db_instance)) ;;
  let db_power_state := power_state_of u in
  let vm_state := vm_state u in
  if negb (String.eqb (self_host env) (host u)) then ret tt
  else
    match task_state u with
    | Some _ => ret tt
    | None =>
        (if negb (power_state.eqb vm_power_state db_power_state) then
           _instance_update (uuid db_instance) [kw_power_state vm_power_state] ;;;
           ret tt
         else ret tt) ;;;
        match vm_state with
        | vm_states.BUILDING | vm_states.RESCUED | vm_states.RESIZED
        | vm_states.SUSPENDED | vm_states.PAUSED | vm_states.ERROR => ret tt
        | vm_states.ACTIVE =>
            match vm_power_state with
            | power_state.SHUTDOWN | power_state.CRASHED =>
                call_stop_api db_instance
            | power_state.SUSPENDED => call_stop_api db_instance
            | power_state.PAUSED => ret tt
            | power_state.NOSTATE => ret tt
            | _ => ret tt
            end
        | vm_states.STOPPED =>
            match vm_power_state with
            | power_state.NOSTATE | power_state.SHUTDOWN
            | power_state.CRASHED => ret tt
            | _ => call_stop_api db_instance
            end
        | vm_states.SOFT_DELETED | vm_states.DELETED => ret tt
        end
    end.

Definition _sync_power_states : M unit :=
  db_instances <- ask (conductor_instance_get_all_by_host (self_host env))
                      (instance_get_all_by_host_result env) ;;
  ext driver_get_num_instances ;;;
  for_each db_instances
    (fun db_instance =>
       match task_state db_instance with
       | Some _ => ret tt
       | None =>
           vm_power_state <-
             try_except
               (ask (driver_get_info (uuid db_instance))
                    (get_info_state env (uuid db_instance)))
               (fun e => match e with
                         | InstanceNotFound => ret power_state.NOSTATE
                         | _ => raise e
                         end) ;;
           _sync_instance_power_state db_instance vm_power_state
       end).

(** Modelled from the spec: [timeutils.is_older_than] is not among the
    sources; section 4.5 reclaims instances "older than a threshold": more
    than [seconds] lie between [before] and now. *)
Definition is_older_than (before seconds : Z) : M bool :=
  w <- get_world ;;
  ret (Z.ltb seconds (utcnow env (log w) - before)).

Definition _reclaim_queued_deletes : M unit :=
  let interval := reclaim_instance_interval env in
  if Z.leb interval 0 then ret tt
  else
    instances <- ask (conductor_instance_get_all_by_host (self_host env))
                     (instance_get_all_by_host_result env) ;;
    for_each instances
      (fun i =>
         old_enough <- match deleted_at i with
                       | None => ret true
                       | Some d => is_older_than d interval
                       end ;;
         let soft_deleted := vm_states.eqb (vm_state i) vm_states.SOFT_DELETED in
         if soft_deleted && old_enough then
           bdms <- ask (conductor_block_device_mapping_get_all_by_instance (uuid i))
                       (block_device_mappings env (uuid i)) ;;
           _delete_instance i bdms
         else ret tt).

End Manager.

(** ** Sample data and environments *)

Definition sample_instance : instance :=
  {| uuid := "inst-1"; name := "instance-00000001"; host := "host1";
     node := "node1"; vm_state := vm_states.ACTIVE; task_state := None;
     power_state_of := power_state.RUNNING; image_ref := Some "img-1";
     access_ip_v4 := None; access_ip_v6 := None; deleted_at := None;
     root_gb := 10 |}.

Definition sample_migration : migration :=
  {| migration_id := 1%nat; source_compute := "host1"; source_node := "node1";
     dest_compute := "host2"; dest_node := "node2"; dest_host := "10.0.0.2";
     new_instance_type_id := 2%nat |}.

(** An environment on host1/node1 whose record store answers every query
    with [answer] and whose calls raise as [r] says. *)
Definition env_of (answer : instance) (r : call -> list event -> option exn)
  : Env :=
  {| self_host := "host1";
     is_quantum_security_groups := false;
     default_access_ip_network_name := None;
     reclaim_instance_interval := 60;
     vnc_enabled := true;
     spice_enabled := false;
     raises := r;
     instance_update_result := fun _ _ _ => answer;
     instance_get_by_uuid_result := fun _ _ => answer;
     instance_get_all_by_host_result := fun _ => [answer];
     block_device_mappings := fun _ _ => [];
     migration_get_result := fun _ _ => sample_migration;
     available_nodes := fun _ => ["node1"];
     instance_exists := fun _ _ => false;
     get_info_state := fun _ _ => power_state.RUNNING;
     nw_info := fun _ _ => [];
     image_show := fun _ _ => {| im_id := "img-1"; im_name := "cirros";
                                 im_size := Some 1024 |};
     image_detail := fun _ _ _ => [];
     utcnow := fun _ => 1000 |}.

(** Nothing raises. *)
Definition quiet : call -> list event -> option exn := fun _ _ => None.

Definition no_filter_properties : filter_properties_t :=
  {| fp_retry := None; fp_limits := [] |}.

(** A fresh manager process and a request without retry metadata. *)
Definition world0 : World :=
  {| log := []; _resource_tracker_dict := [];
     request_spec_obj := None;
     filter_properties_obj := no_filter_properties |}.

(** The calls of a log, oldest first. *)
Definition calls_of (w : World) : list call := rev (map ev_call (log w)).

(** Number of events of a log whose call satisfies [p]. *)
Definition count_calls (p : call -> bool) (l : list event) : nat :=
  List.length (filter (fun ev => p (ev_call ev)) l).

Definition is_compute_stop (c : call) : bool :=
  match c with conductor_compute_stop _ => true | _ => false end.

Definition is_network_allocate (c : call) : bool :=
  match c with network_allocate_for_instance _ => true | _ => false end.

Definition is_network_deallocate (c : call) : bool :=
  match c with network_deallocate_for_instance _ => true | _ => false end.

Definition is_driver_spawn (c : call) : bool :=
  match c with driver_spawn _ => true | _ => false end.

Definition is_scheduler_run_instance (c : call) : bool :=
  match c with scheduler_run_instance _ _ => true | _ => false end.

Definition is_instance_update (c : call) : bool :=
  match c with conductor_instance_update _ _ => true | _ => false end.

Definition is_log_original_error (c : call) : bool :=
  match c with log_original_error _ _ => true | _ => false end.

Definition is_LOG_exception (c : call) : bool :=
  match c with LOG_exception _ _ => true | _ => false end.

Definition is_image_delete (c : call) : bool :=
  match c with image_service_delete _ => true | _ => false end.

Definition is_volume_call (c : call) : bool :=
  match c with
  | volume_get _ | volume_delete _ | volume_terminate_connection _
  | volume_detach _ => true
  | _ => false
  end.

(** An [instance_update] that writes [task_state]. *)
Definition touches_task_state (c : call) : bool :=
  match c with
  | conductor_instance_update _ kwargs => existsb sets_task_state kwargs
  | _ => false
  end.

(** An [instance_update] that writes [vm_state=ERROR]. *)
Definition marks_error (c : call) : bool :=
  match c with
  | conductor_instance_update _ kwargs =>
      existsb (sets_vm_state_to vm_states.ERROR) kwargs
  | _ => false
  end.

(** The resource-tracker bookkeeping that follows a record update inside
    [_instance_update]. *)
Definition is_tracker_call (c : call) : bool :=
  match c with
  | driver_get_available_nodes | rt_update_usage _ _ => true
  | _ => false
  end.

(** The computation [m] only appends to the log, and every event it appends
    satisfies [P]. *)
Definition emits {A} (P : event -> Prop) (m : M A) : Prop :=
  forall w r w', m w = (r, w') ->
    exists evs, log w' = evs ++ log w /\ Forall P evs.

(** Events whose call fails the test [p]. *)
Definition avoiding (p : call -> bool) (ev : event) : Prop :=
  p (ev_call ev) = false.

(** No condition on the events. *)
Definition any_event (ev : event) : Prop := True.

(** The successful deletion of a backup image. *)
Definition delete_event (img : image) : event :=
  Ev (image_service_delete (image_id img)) None.

(** The order [image_service.detail] is asked for: [sort_key='created_at'],
    [sort_dir='desc']. *)
Fixpoint newest_first (l : list image) : bool :=
  match l with
  | [] => true
  | a :: r =>
      forallb (fun b => Z.leb (created_at b) (created_at a)) r && newest_first r
  end.

(** Three daily backups, newest first. *)
Definition three_backups : list image :=
  [ {| image_id := "backup-3"; created_at := 30 |};
    {| image_id := "backup-2"; created_at := 20 |};
    {| image_id := "backup-1"; created_at := 10 |} ].

Definition env_three_backups : Env :=
  {| self_host := "host1";
     is_quantum_security_groups := false;
     default_access_ip_network_name := None;
     reclaim_instance_interval := 60;
     vnc_enabled := true;
     spice_enabled := false;
     raises := quiet;
     instance_update_result := fun _ _ _ => sample_instance;
     instance_get_by_uuid_result := fun _ _ => sample_instance;
     instance_get_all_by_host_result := fun _ => [sample_instance];
     block_device_mappings := fun _ _ => [];
     migration_get_result := fun _ _ => sample_migration;
     available_nodes := fun _ => ["node1"];
     instance_exists := fun _ _ => false;
     get_info_state := fun _ _ => power_state.RUNNING;
     nw_info := fun _ _ => [];
     image_show := fun _ _ => {| im_id := "img-1"; im_name := "cirros";
                                 im_size := Some 1024 |};
     image_detail := fun _ _ _ => three_backups;
     utcnow := fun _ => 1000 |}.

(** The events a run from [w] to [w'] appended, newest first. *)
Definition new_events (w w' : World) : list event :=
  firstn (List.length (log w') - List.length (log w)) (log w').

(** The calls to the stop API made between [w] and [w']. *)
Definition stop_events (w w' : World) : list event :=
  filter (fun ev => is_compute_stop (ev_call ev)) (new_events w w').

(** The hypervisor reports [SHUTDOWN] for an instance the record store has
    [ACTIVE] and running on this host. *)
Definition env_shutdown_by_itself : Env := env_of sample_instance quiet.

(** What a reconciliation pass does to an instance besides calling the
    stop API: re-reading the record and writing the power state through. *)
Definition is_write_through (c : call) : bool :=
  match c with
  | conductor_instance_get_by_uuid _ | driver_get_available_nodes
  | rt_update_usage _ _ => true
  | conductor_instance_update _ [kw_power_state _] => true
  | _ => false
  end.

Definition writes_through (ev : event) : Prop :=
  is_write_through (ev_call ev) = true.

Definition tracker_event (ev : event) : Prop :=
  is_tracker_call (ev_call ev) = true.

(** The disk migration of a resize fails on the hypervisor. *)
Definition disk_migration_fails : call -> list event -> option exn :=
  fun c _ =>
    match c with
    | driver_migrate_disk_and_power_off _ _ => Some (OtherError 1)
    | _ => None
    end.

Definition env_disk_migration_fails : Env :=
  env_of sample_instance disk_migration_fails.

(** The hypervisor fails to confirm a migration. *)
Definition confirm_migration_fails : call -> list event -> option exn :=
  fun c _ =>
    match c with
    | driver_confirm_migration _ => Some (OtherError 2)
    | _ => None
    end.

Definition env_confirm_migration_fails : Env :=
  env_of sample_instance confirm_migration_fails.

(** The hypervisor fails to destroy a guest. *)
Definition destroy_fails : call -> list event -> option exn :=
  fun c _ =>
    match c with
    | driver_destroy _ => Some (OtherError 3)
    | _ => None
    end.

Definition env_destroy_fails : Env := env_of sample_instance destroy_fails.

(** The resource claim on the node fails. *)
Definition claim_fails : call -> list event -> option exn :=
  fun c _ =>
    match c with
    | rt_instance_claim _ _ => Some ComputeResourcesUnavailable
    | _ => None
    end.

Definition env_claim_fails : Env := env_of sample_instance claim_fails.

(** The hypervisor fails to spawn the guest. *)
Definition spawn_fails : call -> list event -> option exn :=
  fun c _ =>
    match c with
    | driver_spawn _ => Some (OtherError 4)
    | _ => None
    end.

Definition env_spawn_fails : Env := env_of sample_instance spawn_fails.

Definition block_devices_are_set_up (l : list event) : bool :=
  existsb (fun ev => match ev_call ev with
                     | setup_block_device_mapping _ => true
                     | _ => false
                     end) l.

(** The instance is deleted while its block devices are set up: from then
    on the record store does not find it. *)
Definition deleted_during_build : call -> list event -> option exn :=
  fun c l =>
    match c with
    | conductor_instance_update _ _ =>
        if block_devices_are_set_up l then Some InstanceNotFound else None
    | _ => None
    end.

Definition env_deleted_during_build : Env :=
  env_of sample_instance deleted_during_build.

(** A delete request arrives while the block devices are set up: the
    update that expects BLOCK_DEVICE_MAPPING finds 'deleting'. *)
Definition preempted_by_delete : call -> list event -> option exn :=
  fun c l =>
    match c with
    | conductor_instance_update _ _ =>
        if block_devices_are_set_up l
        then Some (UnexpectedTaskStateError (Some task_states.DELETING))
        else None
    | _ => None
    end.

Definition env_preempted_by_delete : Env :=
  env_of sample_instance preempted_by_delete.

(** A build request that carries retry metadata and a request spec. *)
Definition world_retry : World :=
  {| log := []; _resource_tracker_dict := [];
     request_spec_obj :=
       Some {| rs_instance_uuids := None; rs_security_group := None;
               rs_other_keys := 3 |};
     filter_properties_obj :=
       {| fp_retry := Some {| num_attempts := Some 1;
                              retry_hosts := Some ["host0"];
                              retry_exc := None |};
          fp_limits := [] |} |}.

(** What the scheduler is handed when [_reschedule] calls it: the request
    spec with [instance_uuids] set, and the filter properties whose retry
    dict has the failure under [exc] and the other keys as they came. *)
Definition resubmitted (u : string) (e : exn) (w : World) (rs : option request_spec_t)
           (fp : filter_properties_t) : Prop :=
  exists retry rs0,
    fp_retry (filter_properties_obj w) = Some retry /\
    retry_truthy retry = true /\
    request_spec_obj w = Some rs0 /\
    request_spec_truthy (Some rs0) = true /\
    rs = Some {| rs_instance_uuids := Some [u];
                 rs_security_group := rs_security_group rs0;
                 rs_other_keys := rs_other_keys rs0 |} /\
    fp = {| fp_retry := Some {| num_attempts := num_attempts retry;
                                retry_hosts := retry_hosts retry;
                                retry_exc := Some (format_exception e) |};
            fp_limits := fp_limits (filter_properties_obj w) |}.

(** The computation [m] leaves the component [f] of the state alone. *)
Definition preserves {A X} (f : World -> X) (m : M A) : Prop :=
  forall w r w', m w = (r, w') -> f w' = f w.

(** The world after a call that returned. *)
Definition after_call (c : call) (w : World) : World := record (Ev c None) w.

(** A build request whose filter properties hold an empty retry dict. *)
Definition world_empty_retry : World :=
  {| log := []; _resource_tracker_dict := [];
     request_spec_obj :=
       Some {| rs_instance_uuids := None; rs_security_group := None;
               rs_other_keys := 3 |};
     filter_properties_obj :=
       {| fp_retry := Some {| num_attempts := None; retry_hosts := None;
                              retry_exc := None |};
          fp_limits := [] |} |}.

(** The node list of the hypervisor does not hold the instance's node. *)
Definition env_unknown_node : Env :=
  {| self_host := "host1";
     is_quantum_security_groups := false;
     default_access_ip_network_name := None;
     reclaim_instance_interval := 60;
     vnc_enabled := true;
     spice_enabled := false;
     raises := quiet;
     instance_update_result := fun _ _ _ => sample_instance;
     instance_get_by_uuid_result := fun _ _ => sample_instance;
     instance_get_all_by_host_result := fun _ => [sample_instance];
     block_device_mappings := fun _ _ => [];
     migration_get_result := fun _ _ => sample_migration;
     available_nodes := fun _ => ["node9"];
     instance_exists := fun _ _ => false;
     get_info_state := fun _ _ => power_state.RUNNING;
     nw_info := fun _ _ => [];
     image_show := fun _ _ => {| im_id := "img-1"; im_name := "cirros";
                                 im_size := Some 1024 |};
     image_detail := fun _ _ _ => [];
     utcnow := fun _ => 1000 |}.

(** The record store no longer finds the instance. *)
Definition record_gone : call -> list event -> option exn :=
  fun c _ =>
    match c with
    | conductor_instance_update _ _ => Some InstanceNotFound
    | _ => None
    end.

Definition env_record_gone : Env := env_of sample_instance record_gone.



(** An image of 11 GiB (the sample instance has [root_gb] 10). *)
Definition env_big_image : Env :=
  {| self_host := "host1";
     is_quantum_security_groups := false;
     default_access_ip_network_name := Some "public";
     reclaim_instance_interval := 60;
     vnc_enabled := true;
     spice_enabled := false;
     raises := quiet;
     instance_update_result := fun _ _ _ => sample_instance;
     instance_get_by_uuid_result := fun _ _ => sample_instance;
     instance_get_all_by_host_result := fun _ => [sample_instance];
     block_device_mappings := fun _ _ => [];
     migration_get_result := fun _ _ => sample_migration;
     available_nodes := fun _ => ["node1"];
     instance_exists := fun _ _ => false;
     get_info_state := fun _ _ => power_state.RUNNING;
     nw_info := fun _ _ => [];
     image_show := fun _ _ => {| im_id := "img-1"; im_name := "big";
                                 im_size := Some (11 * 1073741824) |};
     image_detail := fun _ _ _ => [];
     utcnow := fun _ => 1000 |}.

(** A keyword argument that writes an access ip. *)
Definition is_access_ip_kw (k : kwarg) : bool :=
  match k with
  | kw_access_ip_v4 _ | kw_access_ip_v6 _ => true
  | _ => false
  end.

(** Some vif of [nw] is on the network labelled [network_name]. *)
Definition has_label (network_name : string) (nw : list vif) : bool :=
  existsb (fun v => String.eqb (vif_label v) network_name) nw.

Definition private_vif : vif :=
  {| vif_label := "private"; vif_fixed_ips := [(4, "10.0.0.5")] |}.

(** An [instance_update] that writes [vm_state=ACTIVE]. *)
Definition marks_active (c : call) : bool :=
  match c with
  | conductor_instance_update _ kwargs =>
      existsb (sets_vm_state_to vm_states.ACTIVE) kwargs
  | _ => false
  end.

(** The network service fails to deallocate. *)
Definition deallocate_fails : call -> list event -> option exn :=
  fun c _ =>
    match c with
    | driver_spawn _ => Some (OtherError 4)
    | network_deallocate_for_instance _ => Some (OtherError 6)
    | _ => None
    end.

Definition env_deallocate_fails : Env :=
  env_of sample_instance deallocate_fails.

(** A build request whose retry dict lacks the attempt count. *)
Definition world_retry_without_count : World :=
  {| log := []; _resource_tracker_dict := [];
     request_spec_obj :=
       Some {| rs_instance_uuids := None; rs_security_group := None;
               rs_other_keys := 3 |};
     filter_properties_obj :=
       {| fp_retry := Some {| num_attempts := None;
                              retry_hosts := Some ["host0"];
                              retry_exc := None |};
          fp_limits := [] |} |}.

(** A block device row flagged for deletion with its instance. *)
Definition flagged_for_deletion (b : bdm) : bool :=
  truthy_str (volume_id b) && delete_on_termination b.

Definition is_volume_delete (c : call) : bool :=
  match c with volume_delete _ => true | _ => false end.

Definition is_driver_destroy (c : call) : bool :=
  match c with driver_destroy _ => true | _ => false end.

Definition is_fault_record (c : call) : bool :=
  match c with add_instance_fault_from_exc _ _ => true | _ => false end.

(** Two volumes, the first to be deleted with the instance, the second to
    be kept, and an ephemeral disk. *)
Definition sample_bdms : list bdm :=
  [ {| bdm_id := 1%nat; volume_id := Some "vol-1"; device_name := "/dev/vdb";
       delete_on_termination := true |};
    {| bdm_id := 2%nat; volume_id := Some "vol-2"; device_name := "/dev/vdc";
       delete_on_termination := false |};
    {| bdm_id := 3%nat; volume_id := None; device_name := "/dev/vdd";
       delete_on_termination := true |} ].

(** The volumes and the network information are already gone. *)
Definition already_gone : call -> list event -> option exn :=
  fun c _ =>
    match c with
    | volume_get _ => Some VolumeNotFound
    | network_get_instance_nw_info _ => Some NetworkNotFound
    | _ => None
    end.

Definition env_already_gone : Env := env_of sample_instance already_gone.

(** The only failures around: volumes, disks and network information that
    are already gone. *)
Definition only_gone (env : Env) : Prop :=
  forall c l e,
    raises env c l = Some e ->
    (is_volume_call c = true /\ (e = DiskNotFound \/ e = VolumeNotFound)) \/
    ((exists u, c = network_get_instance_nw_info u) /\ e = NetworkNotFound).

(** The volume service refuses to delete any volume. *)
Definition volume_delete_fails (c : call) (_ : list event) : option exn :=
  match c with
  | volume_delete _ => Some (OtherError 7)
  | _ => None
  end.

Definition env_volume_delete_fails : Env :=
  env_of sample_instance volume_delete_fails.

(** The record store refuses to destroy the instance record. *)
Definition instance_destroy_fails : call -> list event -> option exn :=
  fun c _ =>
    match c with
    | conductor_instance_destroy _ => Some (OtherError 8)
    | _ => None
    end.

Definition env_instance_destroy_fails : Env :=
  env_of sample_instance instance_destroy_fails.

(** The update that ends [_delete_instance]: the record goes to DELETED
    with the task state cleared. *)
Definition deleted_update (instance_uuid : string) (terminated_at : Z)
  : call :=
  conductor_instance_update instance_uuid
    [kw_vm_state vm_states.DELETED; kw_task_state None;
     kw_terminated_at terminated_at].

(** An event that writes no task_state, unless it is the update that ends
    the delete of [instance_uuid]. *)
Definition writes_task_state_only_as_deleted (instance_uuid : string)
           (ev : event) : Prop :=
  touches_task_state (ev_call ev) = true ->
  exists terminated_at,
    ev_call ev = deleted_update instance_uuid terminated_at.

(** * Properties *)

Unset Implicit Arguments.

(** ** The monad and the log *)

Lemma bind_inv A B (m : M A) (k : A -> M B) w r w' :
  bind m k w = (r, w') ->
  (exists a w1, m w = (Ok a, w1) /\ k a w1 = (r, w')) \/
  (exists e, m w = (Raise e, w') /\ r = Raise e).
Proof.
  unfold bind. destruct (m w) as [[a|e] w1]; intro H.
  - left. eauto.
  - right. inversion H; subst. eauto.
Qed.

Lemma bind_ok A B (m : M A) (k : A -> M B) w a w1 :
  m w = (Ok a, w1) -> bind m k w = k a w1.
Proof. unfold bind. intros ->. reflexivity. Qed.

Lemma bind_raise A B (m : M A) (k : A -> M B) w e w1 :
  m w = (Raise e, w1) -> bind m k w = (Raise e, w1).
Proof. unfold bind. intros ->. reflexivity. Qed.

Lemma try_except_ok A (m : M A) h w a w1 :
  m w = (Ok a, w1) -> try_except m h w = (Ok a, w1).
Proof. unfold try_except. intros ->. reflexivity. Qed.

Lemma try_except_raise A (m : M A) h w e w1 :
  m w = (Raise e, w1) -> try_except m h w = h e w1.
Proof. unfold try_except. intros ->. reflexivity. Qed.

Lemma emits_weaken A (P Q : event -> Prop) (m : M A) :
  (forall ev, P ev -> Q ev) -> emits P m -> emits Q m.
Proof.
  intros HPQ Hm w r w' Hrun.
  destruct (Hm _ _ _ Hrun) as (evs & Hlog & Hall).
  exists evs. split; [assumption|].
  eapply Forall_impl; eauto.
Qed.

Lemma emits_ret A P (a : A) : emits P (ret a).
Proof.
  intros w r w' H. inversion H; subst. exists []. split; [reflexivity|constructor].
Qed.

Lemma emits_raise A P e : emits P (@raise A e).
Proof.
  intros w r w' H. inversion H; subst. exists []. split; [reflexivity|constructor].
Qed.

Lemma emits_get_world P : emits P get_world.
Proof.
  intros w r w' H. inversion H; subst. exists []. split; [reflexivity|constructor].
Qed.

Lemma emits_modify P f :
  (forall w, log (f w) = log w) -> emits P (modify f).
Proof.
  intros Hf w r w' H. inversion H; subst. exists [].
  split; [apply Hf|constructor].
Qed.

Lemma emits_seq (P : event -> Prop) w w1 w2 evs1 evs2 :
  log w1 = evs1 ++ log w -> Forall P evs1 ->
  log w2 = evs2 ++ log w1 -> Forall P evs2 ->
  exists evs, log w2 = evs ++ log w /\ Forall P evs.
Proof.
  intros H1 F1 H2 F2. exists (evs2 ++ evs1). split.
  - rewrite H2, H1. apply app_assoc.
  - apply Forall_app. split; assumption.
Qed.

Lemma emits_bind A B P (m : M A) (k : A -> M B) :
  emits P m -> (forall a, emits P (k a)) -> emits P (bind m k).
Proof.
  intros Hm Hk w r w' Hrun.
  apply bind_inv in Hrun as [(a & w1 & H1 & H2) | (e & H1 & ->)].
  - destruct (Hm _ _ _ H1) as (evs1 & L1 & F1).
    destruct (Hk a _ _ _ H2) as (evs2 & L2 & F2).
    eapply emits_seq; eauto.
  - eapply Hm; eauto.
Qed.

Lemma emits_try_except A P (m : M A) h :
  emits P m -> (forall e, emits P (h e)) -> emits P (try_except m h).
Proof.
  intros Hm Hh w r w' Hrun. unfold try_except in Hrun.
  destruct (m w) as [[a|e] w1] eqn:E.
  - inversion Hrun; subst. eapply Hm; eauto.
  - destruct (Hm _ _ _ E) as (evs1 & L1 & F1).
    destruct (Hh e _ _ _ Hrun) as (evs2 & L2 & F2).
    eapply emits_seq; eauto.
Qed.

Lemma emits_try_except_else A B P (m : M A) (h : exn -> M B) orelse :
  emits P m -> (forall e, emits P (h e)) -> (forall a, emits P (orelse a)) ->
  emits P (try_except_else m h orelse).
Proof.
  intros Hm Hh Ho w r w' Hrun. unfold try_except_else in Hrun.
  destruct (m w) as [[a|e] w1] eqn:E;
    destruct (Hm _ _ _ E) as (evs1 & L1 & F1).
  - destruct (Ho a _ _ _ Hrun) as (evs2 & L2 & F2). eapply emits_seq; eauto.
  - destruct (Hh e _ _ _ Hrun) as (evs2 & L2 & F2). eapply emits_seq; eauto.
Qed.

Lemma emits_save_and_reraise A P e (m : M unit) :
  emits P m -> emits P (@save_and_reraise_exception A e m).
Proof.
  intros Hm w r w' Hrun. unfold save_and_reraise_exception in Hrun.
  destruct (m w) as [[a|e'] w1] eqn:E; inversion Hrun; subst;
    eapply Hm; eauto.
Qed.

Lemma emits_with_exit A P (m : M A) on_exit :
  emits P m -> (forall o, emits P (on_exit o)) -> emits P (with_exit m on_exit).
Proof.
  intros Hm Hx w r w' Hrun. unfold with_exit in Hrun.
  destruct (m w) as [[a|e] w1] eqn:E;
    destruct (Hm _ _ _ E) as (evs1 & L1 & F1).
  - assert (Hb : emits P (on_exit None ;;; ret a))
      by (apply emits_bind; [apply Hx | intros; apply emits_ret]).
    destruct (Hb _ _ _ Hrun) as (evs2 & L2 & F2). eapply emits_seq; eauto.
  - assert (Hb : emits P (on_exit (Some e) ;;; @raise A e))
      by (apply emits_bind; [apply Hx | intros; apply emits_raise]).
    destruct (Hb _ _ _ Hrun) as (evs2 & L2 & F2). eapply emits_seq; eauto.
Qed.

Lemma emits_for_each A P (xs : list A) f :
  (forall x, emits P (f x)) -> emits P (for_each xs f).
Proof.
  intros Hf. induction xs as [|x xs IH]; simpl.
  - apply emits_ret.
  - apply emits_bind; [apply Hf | intros; apply IH].
Qed.

Lemma emits_ext env P c :
  (forall o, P (Ev c o)) -> emits P (ext env c).
Proof.
  intros HP w r w' Hrun. unfold ext in Hrun.
  destruct (raises env c (log w)); inversion Hrun; subst;
    eexists [_]; (split; [reflexivity | repeat constructor; apply HP]).
Qed.

Lemma emits_ask env A P c (v : list event -> A) :
  (forall o, P (Ev c o)) -> emits P (ask env c v).
Proof.
  intros HP w r w' Hrun. unfold ask in Hrun.
  destruct (raises env c (log w)); inversion Hrun; subst;
    eexists [_]; (split; [reflexivity | repeat constructor; apply HP]).
Qed.

Lemma emits_note P c :
  P (Ev c None) -> emits P (note c).
Proof.
  intros HP w r w' Hrun. inversion Hrun; subst.
  eexists [_]; (split; [reflexivity | repeat constructor; apply HP]).
Qed.

(** Syntax-directed proof of [emits] statements: the combinators by their
    lemmas, the manager's functions by unfolding. *)
Ltac head_of t :=
  lazymatch t with
  | ?f _ => head_of f
  | _ => t
  end.

Ltac emits_side :=
  intros; unfold avoiding; simpl; try reflexivity; auto.

Ltac emits_step :=
  lazymatch goal with
  | |- emits _ (bind _ _) => apply emits_bind; [ | intros ? ]
  | |- emits _ (ret _) => apply emits_ret
  | |- emits _ (raise _) => apply emits_raise
  | |- emits _ get_world => apply emits_get_world
  | |- emits _ (modify _) => apply emits_modify; intros; reflexivity
  | |- emits _ (try_except _ _) => apply emits_try_except; [ | intros ? ]
  | |- emits _ (try_except_else _ _ _) =>
      apply emits_try_except_else; [ | intros ? | intros ? ]
  | |- emits _ (save_and_reraise_exception _ _) =>
      apply emits_save_and_reraise
  | |- emits _ (with_exit _ _) => apply emits_with_exit; [ | intros ? ]
  | |- emits _ (for_each _ _) => apply emits_for_each; intros ?
  | |- emits _ (ext _ _) => apply emits_ext; emits_side
  | |- emits _ (ask _ _ _) => apply emits_ask; emits_side
  | |- emits _ (note _) => apply emits_note; emits_side
  | |- emits _ (match ?x with _ => _ end) => destruct x
  | |- emits _ ?m => let h := head_of m in unfold h
  end.

Ltac emits_auto := repeat emits_step.

(** ** Backup rotation *)

Lemma pop_snoc A (l : list A) x : pop (l ++ [x]) = Some (x, l).
Proof.
  unfold pop. rewrite rev_app_distr. simpl. rewrite rev_involutive. reflexivity.
Qed.

(** Popping as many images as [dropped] holds deletes exactly these, the
    last one first. *)
Lemma rotate_out_deletes env :
  (forall id l, raises env (image_service_delete id) l = None) ->
  forall dropped kept w,
  exists w',
    rotate_out env (List.length dropped) (kept ++ dropped) w = (Ok tt, w') /\
    log w' = map delete_event dropped ++ log w.
Proof.
  intros Hq dropped. induction dropped as [|x d IH] using rev_ind; intros kept w.
  - simpl. exists w. split; reflexivity.
  - rewrite length_app, Nat.add_comm. simpl.
    rewrite app_assoc, pop_snoc.
    destruct (IH kept (record (Ev (image_service_delete (image_id x)) None) w))
      as (w' & Hrun & Hlog).
    exists w'. split.
    + unfold bind at 1. unfold ext at 1. rewrite Hq. exact Hrun.
    + rewrite Hlog. simpl. rewrite map_app, <- app_assoc. reflexivity.
Qed.

Lemma in_skipn A (l : list A) n x : In x (skipn n l) -> In x l.
Proof.
  intro H. rewrite <- (firstn_skipn n l). apply in_or_app. right. exact H.
Qed.

Lemma newest_first_split l n :
  newest_first l = true ->
  forall d k, In d (skipn n l) -> In k (firstn n l) ->
              created_at d <= created_at k.
Proof.
  revert n. induction l as [|a r IH]; intros n Hs d k Hd Hk.
  - rewrite firstn_nil in Hk. destruct Hk.
  - simpl in Hs. apply andb_true_iff in Hs as [Ha Hr].
    destruct n as [|n]; simpl in *; [destruct Hk|].
    destruct Hk as [<- | Hk].
    + rewrite forallb_forall in Ha. apply Z.leb_le. apply Ha.
      eapply in_skipn. exact Hd.
    + eapply IH; eauto.
Qed.

(** C8. A backup rotation with rotation limit R >= 0 over the N backups the
    image service lists (newest first), the deletions succeeding: the
    images deleted are those past the first R of the list, issued from the
    end of the list; there are N - R of them when N > R, none when N <= R,
    and in a list sorted newest first none of them is newer than a backup
    that is kept. *)
Theorem C8_rotate_backups env i backup_type rotation w :
  0 <= rotation ->
  raises env (image_service_detail backup_type (uuid i)) (log w) = None ->
  (forall id l, raises env (image_service_delete id) l = None) ->
  let images := image_detail env backup_type (uuid i) (log w) in
  let N := Z.of_nat (List.length images) in
  let deleted := skipn (Z.to_nat rotation) images in
  let kept := firstn (Z.to_nat rotation) images in
  exists w',
    _rotate_backups env i backup_type rotation w = (Ok tt, w') /\
    log w' = map delete_event deleted
             ++ Ev (image_service_detail backup_type (uuid i)) None :: log w /\
    (rotation < N -> Z.of_nat (List.length deleted) = N - rotation) /\
    (N <= rotation -> deleted = []) /\
    (newest_first images = true ->
     forall d k, In d deleted -> In k kept -> created_at d <= created_at k).
Proof.
  intros Hrot Hdetail Hdel images N deleted kept.
  assert (Hlen : List.length deleted = (List.length images - Z.to_nat rotation)%nat)
    by apply length_skipn.
  assert (Hrun : exists w',
             _rotate_backups env i backup_type rotation w = (Ok tt, w') /\
             log w' = map delete_event deleted
                      ++ Ev (image_service_detail backup_type (uuid i)) None
                         :: log w).
  { unfold _rotate_backups, wrap_instance_fault.
    unfold try_except, bind at 1, ask. rewrite Hdetail.
    fold images. fold N.
    destruct (Z.ltb rotation N) eqn:Hlt.
    - apply Z.ltb_lt in Hlt.
      replace (Z.to_nat (N - rotation)) with (List.length deleted)
        by (rewrite Hlen; unfold N; lia).
      destruct (rotate_out_deletes env Hdel deleted kept
                  (record (Ev (image_service_detail backup_type (uuid i)) None) w))
        as (w' & Hr & Hl).
      assert (Himg : kept ++ deleted = images) by apply firstn_skipn.
      rewrite Himg in Hr. rewrite Hr. exists w'. split; [reflexivity | exact Hl].
    - apply Z.ltb_ge in Hlt.
      assert (Hnil : deleted = [])
        by (apply skipn_all2; unfold N in Hlt; lia).
      rewrite Hnil. simpl. eexists. split; reflexivity. }
  destruct Hrun as (w' & Hr & Hl).
  exists w'. repeat split; try assumption.
  - intros Hlt. rewrite Hlen. unfold N in *. lia.
  - intros Hge. apply skipn_all2. unfold N in Hge. lia.
  - intros Hs d k Hd Hk. eapply newest_first_split; eauto.
Qed.

Lemma C8_rotate_backups_witness :
  0 <= 1 /\
  raises env_three_backups (image_service_detail "daily" "inst-1") [] = None /\
  (forall id l, raises env_three_backups (image_service_delete id) l = None) /\
  exists w',
    _rotate_backups env_three_backups sample_instance "daily" 1 world0
    = (Ok tt, w') /\
    log w' = [ Ev (image_service_delete "backup-2") None;
               Ev (image_service_delete "backup-1") None;
               Ev (image_service_detail "daily" "inst-1") None ].
Proof.
  split; [lia|]. split; [reflexivity|]. split; [intros; reflexivity|].
  destruct (C8_rotate_backups env_three_backups sample_instance "daily" 1
                               world0)
    as (w' & Hrun & Hlog & _); try reflexivity; try lia.
  exists w'. split; [exact Hrun | exact Hlog].
Defined.

(** ** Power-state reconciliation *)

Lemma new_events_app w w' evs :
  log w' = evs ++ log w -> new_events w w' = evs.
Proof.
  intro H. unfold new_events. rewrite H, length_app.
  replace (List.length evs + List.length (log w) - List.length (log w))%nat
    with (List.length evs) by lia.
  rewrite firstn_app, firstn_all, Nat.sub_diag. simpl. apply app_nil_r.
Qed.

Lemma new_events_refl w : new_events w w = [].
Proof. apply new_events_app. reflexivity. Qed.

Lemma avoiding_filter p evs :
  Forall (avoiding p) evs -> filter (fun ev => p (ev_call ev)) evs = [].
Proof.
  induction 1 as [|ev evs Hev _ IH]; simpl; [reflexivity|].
  unfold avoiding in Hev. rewrite Hev. exact IH.
Qed.

(** The guarded stop call is made exactly once, whether it raises or not,
    and never lets an exception out. *)
Lemma call_stop_api_once env i w :
  exists w' o,
    call_stop_api env i w = (Ok tt, w') /\
    exists evs, log w' = evs ++ log w /\
      filter (fun ev => is_compute_stop (ev_call ev)) evs
      = [Ev (conductor_compute_stop (uuid i)) o].
Proof.
  unfold call_stop_api, try_except, ext, note.
  destruct (raises env (conductor_compute_stop (uuid i)) (log w)) as [e|] eqn:E.
  - do 2 eexists. split; [reflexivity|].
    eexists [_; _]. split; reflexivity.
  - do 2 eexists. split; [reflexivity|].
    eexists [_]. split; reflexivity.
Qed.

Lemma _instance_update_no_stop env u kwargs :
  emits (avoiding is_compute_stop) (_instance_update env u kwargs).
Proof. emits_auto. Qed.

Lemma write_through_no_stop evs :
  Forall writes_through evs ->
  filter (fun ev => is_compute_stop (ev_call ev)) evs = [].
Proof.
  intro H. apply avoiding_filter. eapply Forall_impl; [|exact H].
  intros [c o]. unfold writes_through, avoiding. simpl.
  destruct c; simpl; intro; try reflexivity; discriminate.
Qed.

Lemma _instance_update_power_state_writes_through env u p :
  emits writes_through (_instance_update env u [kw_power_state p]).
Proof. unfold writes_through. emits_auto. Qed.

(** C2. One reconciliation pass over an instance that is processed (the
    record is read, it is on this host with no task pending, and the pass
    completes): for ACTIVE and an observed SHUTDOWN, CRASHED or SUSPENDED the
    stop API is called exactly once; for ACTIVE and PAUSED or NOSTATE it is
    not called; for STOPPED and anything but NOSTATE, SHUTDOWN, CRASHED it is
    called exactly once; for BUILDING, RESCUED, RESIZED, SUSPENDED, PAUSED
    and ERROR it is never called. Where it is not called, the pass only
    re-read the record and wrote the power state through. *)
Theorem C2_power_state_reconciliation env db_instance vm_power_state w w' :
  let u := instance_get_by_uuid_result env (uuid db_instance) (log w) in
  _sync_instance_power_state env db_instance vm_power_state w = (Ok tt, w') ->
  host u = self_host env ->
  task_state u = None ->
  (vm_state u = vm_states.ACTIVE ->
   In vm_power_state
      [power_state.SHUTDOWN; power_state.CRASHED; power_state.SUSPENDED] ->
   exists o,
     stop_events w w' = [Ev (conductor_compute_stop (uuid db_instance)) o]) /\
  (vm_state u = vm_states.ACTIVE ->
   In vm_power_state [power_state.PAUSED; power_state.NOSTATE] ->
   stop_events w w' = [] /\ Forall writes_through (new_events w w')) /\
  (vm_state u = vm_states.STOPPED ->
   ~ In vm_power_state
        [power_state.NOSTATE; power_state.SHUTDOWN; power_state.CRASHED] ->
   exists o,
     stop_events w w' = [Ev (conductor_compute_stop (uuid db_instance)) o]) /\
  (In (vm_state u)
      [vm_states.BUILDING; vm_states.RESCUED; vm_states.RESIZED;
       vm_states.SUSPENDED; vm_states.PAUSED; vm_states.ERROR] ->
   stop_events w w' = [] /\ Forall writes_through (new_events w w')).
Proof.
  intros u Hrun Hhost Htask.
  unfold _sync_instance_power_state in Hrun.
  apply bind_inv in Hrun as [(u' & w1 & Hget & Hrun) | (e & _ & Habs)];
    [|discriminate Habs].
  unfold ask in Hget.
  destruct (raises env (conductor_instance_get_by_uuid (uuid db_instance)) (log w));
    [discriminate Hget|].
  inversion Hget; subst u' w1; clear Hget. fold u in Hrun.
  rewrite Hhost, String.eqb_refl, Htask in Hrun. simpl in Hrun.
  apply bind_inv in Hrun as [([] & w2 & Hwt & Hrun) | (e & _ & Habs)];
    [|discriminate Habs].
  assert (Hpre : exists evs1,
             log w2 = evs1 ++ log w /\ Forall writes_through evs1).
  { assert (Hem : emits writes_through
                    (if negb (power_state.eqb vm_power_state (power_state_of u))
                     then _instance_update env (uuid db_instance)
                            [kw_power_state vm_power_state] ;;; ret tt
                     else ret tt)).
    { destruct (negb _).
      - apply emits_bind;
          [apply _instance_update_power_state_writes_through
          |intros; apply emits_ret].
      - apply emits_ret. }
    destruct (Hem _ _ _ Hwt) as (evs & Hl & Hf).
    exists (evs ++ [Ev (conductor_instance_get_by_uuid (uuid db_instance)) None]).
    split.
    - rewrite Hl. simpl. rewrite <- app_assoc. reflexivity.
    - apply Forall_app. split; [exact Hf|]. repeat constructor. }
  destruct Hpre as (evs1 & Hl1 & Hf1).
  assert (Hquiet : (Ok tt, w2) = (Ok tt, w') ->
                   stop_events w w' = [] /\ Forall writes_through (new_events w w')).
  { intro Heq. inversion Heq; subst w'.
    unfold stop_events. rewrite (new_events_app _ _ _ Hl1).
    split; [apply write_through_no_stop|]; assumption. }
  assert (Hstop : call_stop_api env db_instance w2 = (Ok tt, w') ->
                  exists o, stop_events w w'
                            = [Ev (conductor_compute_stop (uuid db_instance)) o]).
  { intro Hc.
    destruct (call_stop_api_once env db_instance w2)
      as (w3 & o & Hc' & evs2 & Hl2 & Hf2).
    rewrite Hc in Hc'. inversion Hc'; subst w3.
    exists o. unfold stop_events.
    rewrite (new_events_app w w' (evs2 ++ evs1))
      by (rewrite Hl2, Hl1; apply app_assoc).
    rewrite filter_app, Hf2, (write_through_no_stop _ Hf1). reflexivity. }
  repeat split.
  - intros Hvm Hin. rewrite Hvm in Hrun. apply Hstop.
    simpl in Hin. destruct Hin as [<-|[<-|[<-|[]]]]; exact Hrun.
  - rewrite H in Hrun. apply Hquiet.
    simpl in H0. destruct H0 as [<-|[<-|[]]]; exact Hrun.
  - rewrite H in Hrun. apply Hquiet.
    simpl in H0. destruct H0 as [<-|[<-|[]]]; exact Hrun.
  - intros Hvm Hnin. rewrite Hvm in Hrun. apply Hstop.
    destruct vm_power_state; simpl in Hnin; try exact Hrun;
      exfalso; apply Hnin; auto.
  - apply Hquiet. simpl in H.
    destruct H as [H|[H|[H|[H|[H|[H|[]]]]]]]; rewrite <- H in Hrun; exact Hrun.
  - apply Hquiet. simpl in H.
    destruct H as [H|[H|[H|[H|[H|[H|[]]]]]]]; rewrite <- H in Hrun; exact Hrun.
Qed.

Lemma C2_power_state_reconciliation_witness :
  let w' := snd (_sync_instance_power_state env_shutdown_by_itself
                   sample_instance power_state.SHUTDOWN world0) in
  _sync_instance_power_state env_shutdown_by_itself sample_instance
    power_state.SHUTDOWN world0 = (Ok tt, w') /\
  host sample_instance = self_host env_shutdown_by_itself /\
  task_state sample_instance = None /\
  exists o, stop_events world0 w' = [Ev (conductor_compute_stop "inst-1") o].
Proof.
  intro w'.
  assert (Hrun : _sync_instance_power_state env_shutdown_by_itself
                   sample_instance power_state.SHUTDOWN world0 = (Ok tt, w'))
    by reflexivity.
  repeat split; try reflexivity.
  destruct (C2_power_state_reconciliation env_shutdown_by_itself
              sample_instance power_state.SHUTDOWN world0 w' Hrun
              eq_refl eq_refl) as (Hactive & _).
  apply Hactive; [reflexivity | simpl; auto].
Defined.

(** ** Record updates *)

(** [_instance_update] issues the record update first; what follows is the
    resource tracker's bookkeeping. *)
Lemma _instance_update_log env u kwargs w r w' :
  _instance_update env u kwargs w = (r, w') ->
  exists evs,
    log w' = evs ++ Ev (conductor_instance_update u kwargs)
                       (raises env (conductor_instance_update u kwargs) (log w))
                    :: log w /\
    Forall tracker_event evs.
Proof.
  unfold _instance_update. intro Hrun.
  apply bind_inv in Hrun as [(ref & w1 & Hask & Hrun) | (e & Hask & _)];
    unfold ask in Hask;
    destruct (raises env (conductor_instance_update u kwargs) (log w)) eqn:E;
    inversion Hask; subst.
  - assert (Hem : emits tracker_event
        ((if String.eqb (host (instance_update_result env u kwargs (log w)))
                        (self_host env)
          then
            nodes <- ask env driver_get_available_nodes (available_nodes env) ;;
            if mem (node (instance_update_result env u kwargs (log w))) nodes
            then
              rt <- _get_resource_tracker env
                      (node (instance_update_result env u kwargs (log w))) ;;
              ext env (rt_update_usage rt
                         (uuid (instance_update_result env u kwargs (log w))))
            else ret tt
          else ret tt) ;;;
         ret (instance_update_result env u kwargs (log w))))
      by (unfold tracker_event; emits_auto).
    destruct (Hem _ _ _ Hrun) as (evs & Hl & Hf).
    exists evs. split; [exact Hl | exact Hf].
  - exists []. split; [reflexivity | constructor].
Qed.

(** A successful [_instance_update] means the record store accepted it. *)
Lemma _instance_update_ok env u kwargs w a w' :
  _instance_update env u kwargs w = (Ok a, w') ->
  raises env (conductor_instance_update u kwargs) (log w) = None.
Proof.
  unfold _instance_update. intro Hrun.
  apply bind_inv in Hrun as [(ref & w1 & Hask & Hrun) | (e & _ & Habs)];
    [|discriminate Habs].
  unfold ask in Hask.
  destruct (raises env (conductor_instance_update u kwargs) (log w));
    [discriminate Hask | reflexivity].
Qed.

(** [_set_instance_error_state] issues the ERROR update; when it returns,
    the update was accepted or the instance was gone. *)
Lemma _set_instance_error_state_log env u w r w' :
  _set_instance_error_state env u w = (r, w') ->
  exists evs o,
    o = raises env (conductor_instance_update u [kw_vm_state vm_states.ERROR])
               (log w) /\
    log w' = evs ++ Ev (conductor_instance_update u [kw_vm_state vm_states.ERROR]) o
                 :: log w /\
    Forall tracker_event evs /\
    (r = Ok tt -> o = None \/ o = Some InstanceNotFound).
Proof.
  unfold _set_instance_error_state, try_except. intro Hrun.
  destruct (bind (_instance_update env u [kw_vm_state vm_states.ERROR])
                 (fun _ => ret tt) w) as [[[]|e] w1] eqn:Hb.
  - inversion Hrun; subst.
    apply bind_inv in Hb as [(a & w2 & Hu & Hret) | (e & _ & Habs)];
      [|discriminate Habs].
    inversion Hret; subst.
    destruct (_instance_update_log _ _ _ _ _ _ Hu) as (evs & Hl & Hf).
    exists evs. eexists. repeat split; eauto.
    intros _. left. eapply _instance_update_ok; eauto.
  - apply bind_inv in Hb as [(a & w2 & Hu & Hret) | (e' & Hu & He)];
      [discriminate Hret|].
    inversion He; subst e'.
    destruct (_instance_update_log _ _ _ _ _ _ Hu) as (evs & Hl & Hf).
    assert (Hw : w' = w1 /\ (r = Ok tt -> e = InstanceNotFound)).
    { destruct e; simpl in Hrun; inversion Hrun; subst;
        (split; [reflexivity | intro; try reflexivity; discriminate]). }
    destruct Hw as [-> He'].
    exists evs. eexists. repeat split; eauto.
    intro Hok. specialize (He' Hok). subst e.
    (* the exception came from the record store or from the bookkeeping *)
    unfold _instance_update in Hu.
    apply bind_inv in Hu as [(ref & w2 & Hask & Hrest) | (e' & Hask & He'')].
    + left. unfold ask in Hask.
      destruct (raises env _ (log w)); [discriminate Hask | reflexivity].
    + right. unfold ask in Hask.
      destruct (raises env _ (log w)); inversion Hask; congruence.
Qed.

(** ** The error-out wrapper of the resize workflows *)

(** C7. A workflow step run under [_error_out_instance_on_exception] raises
    [e] (any exception). The pending reservations, if any, are rolled back
    first; with the rollback done and the ERROR update not failing, that
    update of vm_state to ERROR is issued next (accepted by the record
    store, or the instance is gone), followed only by the resource
    tracker's bookkeeping, and then [e] itself is re-raised to the caller. *)
Theorem C7_error_out_on_exception env (A : Type) u reservations
        (suite : M A) w e w1 w3 :
  suite w = (Raise e, w1) ->
  (reservations <> [] ->
   raises env (conductor_quota_rollback reservations) (log w1) = None) ->
  let w2 := match reservations with
            | [] => w1
            | _ => record (Ev (conductor_quota_rollback reservations) None) w1
            end in
  _set_instance_error_state env u w2 = (Ok tt, w3) ->
  _error_out_instance_on_exception env u reservations suite w = (Raise e, w3) /\
  exists evs o,
    log w3 = evs ++ Ev (conductor_instance_update u [kw_vm_state vm_states.ERROR]) o
                 :: log w2 /\
    Forall tracker_event evs /\
    (o = None \/ o = Some InstanceNotFound).
Proof.
  intros Hsuite Hroll w2 Herr. split.
  - unfold _error_out_instance_on_exception.
    rewrite (try_except_raise _ _ _ _ _ _ Hsuite).
    assert (Hrb : _quota_rollback env reservations w1 = (Ok tt, w2)).
    { unfold _quota_rollback, w2. destruct reservations as [|r rs];
        [reflexivity|].
      unfold ext. rewrite Hroll by discriminate. reflexivity. }
    rewrite (bind_ok _ _ _ _ _ _ _ Hrb).
    unfold save_and_reraise_exception. rewrite Herr. reflexivity.
  - destruct (_set_instance_error_state_log _ _ _ _ _ Herr)
      as (evs & o & _ & Hl & Hf & Hok).
    exists evs, o. repeat split; auto.
Qed.

(** The resize of the sample instance fails during the disk migration with
    a reservation pending. *)
Lemma C7_error_out_on_exception_witness :
  let suite := resize_instance_steps env_disk_migration_fails sample_instance
                 ["reservation-1"] sample_migration None in
  let w1 := snd (suite world0) in
  let w3 := snd (resize_instance_body env_disk_migration_fails
                   sample_instance ["reservation-1"] (Some sample_migration)
                   1%nat None world0) in
  suite world0 = (Raise (OtherError 1), w1) /\
  resize_instance_body env_disk_migration_fails sample_instance
    ["reservation-1"] (Some sample_migration) 1%nat None world0
  = (Raise (OtherError 1), w3) /\
  calls_of w3
  = [ conductor_instance_type_get 2; network_get_instance_nw_info "inst-1";
      conductor_migration_update 1 "migrating";
      conductor_instance_update "inst-1"
        [kw_task_state (Some task_states.RESIZE_MIGRATING);
         kw_expected_task_state [Some task_states.RESIZE_PREP]];
      driver_get_available_nodes; driver_get_available_nodes;
      rt_update_usage "node1" "inst-1";
      notify_about_instance_usage "inst-1" "resize.start";
      conductor_block_device_mapping_get_all_by_instance "inst-1";
      driver_legacy_nwinfo;
      driver_migrate_disk_and_power_off "inst-1" "10.0.0.2";
      conductor_quota_rollback ["reservation-1"];
      conductor_instance_update "inst-1" [kw_vm_state vm_states.ERROR];
      driver_get_available_nodes; rt_update_usage "node1" "inst-1" ].
Proof.
  intros suite w1 w3.
  assert (Hsuite : suite world0 = (Raise (OtherError 1), w1)) by reflexivity.
  split; [exact Hsuite|].
  destruct (C7_error_out_on_exception env_disk_migration_fails unit "inst-1"
              ["reservation-1"] suite world0 (OtherError 1) w1 w3 Hsuite)
    as (Hrun & _).
  - intros _. reflexivity.
  - reflexivity.
  - split; [exact Hrun | reflexivity].
Defined.

(** ** Reverting the task state on failure *)

(** As the claim is worded it covers [confirm_resize], a workflow entry
    point other than the delete workflow: it is not decorated with
    [reverts_task_state], and a confirmation that fails on the hypervisor
    goes to ERROR and re-raises without any write to task_state.  And the
    delete workflow does clear task_state in a delete that fails midway:
    [_delete_instance] writes vm_state=DELETED, task_state=None before it
    destroys the record, so a [terminate_instance] that fails at
    [instance_destroy] raises with the task state already cleared. *)
Lemma C1_task_state_counterexample :
  (let r := confirm_resize env_confirm_migration_fails sample_instance
              ["reservation-1"] (Some sample_migration) 1%nat world0 in
   fst r = Raise (OtherError 2) /\
   is_UnexpectedTaskStateError (OtherError 2) = false /\
   existsb touches_task_state (calls_of (snd r)) = false /\
   calls_of (snd r)
   = [ conductor_action_event_start "inst-1" "compute_confirm_resize";
       notify_about_instance_usage "inst-1" "resize.confirm.start";
       conductor_instance_update "inst-1" [kw_system_metadata];
       driver_get_available_nodes; driver_get_available_nodes;
       rt_update_usage "node1" "inst-1";
       network_setup_networks_on_host "inst-1" "host1" true;
       network_get_instance_nw_info "inst-1"; driver_legacy_nwinfo;
       driver_confirm_migration "inst-1";
       conductor_quota_rollback ["reservation-1"];
       conductor_instance_update "inst-1" [kw_vm_state vm_states.ERROR];
       driver_get_available_nodes; rt_update_usage "node1" "inst-1";
       add_instance_fault_from_exc "inst-1" (OtherError 2);
       conductor_action_event_finish "inst-1" "compute_confirm_resize" ]) /\
  (let r := terminate_instance env_instance_destroy_fails sample_instance []
              world0 in
   fst r = Raise (OtherError 8) /\
   In (Ev (deleted_update "inst-1" 1000) None) (log (snd r)) /\
   calls_of (snd r)
   = [ conductor_action_event_start "inst-1" "compute_terminate_instance";
       conductor_block_device_mapping_get_all_by_instance "inst-1";
       conductor_instance_info_cache_delete "inst-1";
       notify_about_instance_usage "inst-1" "delete.start";
       notify_about_instance_usage "inst-1" "shutdown.start";
       network_get_instance_nw_info "inst-1";
       network_deallocate_for_instance "inst-1"; driver_legacy_nwinfo;
       driver_destroy "inst-1";
       notify_about_instance_usage "inst-1" "shutdown.end";
       conductor_instance_update "inst-1"
         [kw_vm_state vm_states.DELETED; kw_task_state None;
          kw_terminated_at 1000];
       driver_get_available_nodes; driver_get_available_nodes;
       rt_update_usage "node1" "inst-1"; conductor_instance_destroy "inst-1";
       add_instance_fault_from_exc "inst-1" (OtherError 8);
       conductor_action_event_finish "inst-1" "compute_terminate_instance" ]).
Proof.
  split; [repeat split|].
  split; [reflexivity|]. split; [|reflexivity].
  vm_compute. tauto.
Qed.

(** Under [reverts_task_state] a failure that is not a preemption is
    followed at once by the update [task_state=None], then re-raised,
    whatever becomes of the update. *)
Lemma reverts_task_state_clears env (A : Type) u (function : M A) w e w1 :
  function w = (Raise e, w1) ->
  is_UnexpectedTaskStateError e = false ->
  exists w2 evs,
    reverts_task_state env (Some u) function w = (Raise e, w2) /\
    log w2 = evs ++ Ev (conductor_instance_update u [kw_task_state None])
                       (raises env (conductor_instance_update u
                                      [kw_task_state None]) (log w1))
                 :: log w1 /\
    Forall tracker_event evs.
Proof.
  intros Hf Hne. unfold reverts_task_state.
  rewrite (try_except_raise _ _ _ _ _ _ Hf), Hne.
  unfold save_and_reraise_exception, try_except, bind at 1.
  destruct (_instance_update env u [kw_task_state None] w1) as [r w2] eqn:Hu.
  destruct (_instance_update_log _ _ _ _ _ _ Hu) as (evs & Hl & Hfa).
  exists w2, evs. destruct r; simpl; auto.
Qed.

(** A preemption is logged and re-raised; nothing is written. *)
Lemma reverts_task_state_preempted env (A : Type) u (function : M A) w e w1 :
  function w = (Raise e, w1) ->
  is_UnexpectedTaskStateError e = true ->
  reverts_task_state env u function w
  = (Raise e, record (Ev (LOG_exception "Possibly task preempted." e) None) w1).
Proof.
  intros Hf He. unfold reverts_task_state.
  rewrite (try_except_raise _ _ _ _ _ _ Hf), He. reflexivity.
Qed.

(** What [do_terminate_instance] does after a failed [_delete_instance]
    writes no task_state. *)
Lemma do_terminate_instance_keeps_task_state env i bdms w e w1 :
  _delete_instance env i bdms w = (Raise e, w1) ->
  exists r w2 evs,
    do_terminate_instance env i bdms w = (r, w2) /\
    log w2 = evs ++ log w1 /\
    Forall (avoiding touches_task_state) evs.
Proof.
  intro Hd. unfold do_terminate_instance.
  rewrite (try_except_raise _ _ _ _ _ _ Hd).
  assert (Hem : emits (avoiding touches_task_state)
            (match e with
             | InstanceTerminationFailure =>
                 _set_instance_error_state env (uuid i)
             | InstanceNotFound => ret tt
             | _ => raise e
             end)) by emits_auto.
  destruct (match e with
            | InstanceTerminationFailure => _set_instance_error_state env (uuid i)
            | InstanceNotFound => ret tt
            | _ => raise e
            end w1) as [r w2] eqn:Hh.
  destruct (Hem _ _ _ Hh) as (evs & Hl & Hfa).
  exists r, w2, evs. auto.
Qed.

(** The decorators of [terminate_instance] write no task_state. *)
Lemma terminate_instance_decorators_keep_task_state env P u function :
  (forall ev, avoiding touches_task_state ev -> P ev) ->
  emits P function ->
  emits P (decorated env rpc.terminate_instance u function).
Proof.
  intros HP Hf. unfold decorated, under_inner_decorators. simpl.
  unfold wrap_instance_event, EventReporter, wrap_instance_fault.
  apply emits_bind;
    [apply (emits_weaken _ _ _ _ HP); emits_auto|intros _].
  apply emits_with_exit;
    [|intros; apply (emits_weaken _ _ _ _ HP); emits_auto].
  apply emits_bind; [|intros; apply emits_ret].
  apply emits_try_except;
    [exact Hf|intros e0; apply (emits_weaken _ _ _ _ HP); emits_auto].
Qed.

(** The one write to task_state in [_delete_instance] is its update to
    DELETED. *)
Lemma _delete_instance_task_state env i bdms :
  emits (writes_task_state_only_as_deleted (uuid i))
        (_delete_instance env i bdms).
Proof.
  assert (HP : forall ev, avoiding touches_task_state ev ->
                          writes_task_state_only_as_deleted (uuid i) ev).
  { intros ev Hev Ht. unfold avoiding in Hev. congruence. }
  unfold _delete_instance. cbv zeta.
  do 4 (apply emits_bind;
        [apply (emits_weaken _ _ _ _ HP); emits_auto|intros _]).
  apply emits_bind; [apply emits_get_world|intros w0].
  apply emits_bind;
    [|intros i'; apply (emits_weaken _ _ _ _ HP); emits_auto].
  unfold _instance_update.
  apply emits_bind;
    [|intros ref; apply (emits_weaken _ _ _ _ HP); emits_auto].
  apply emits_ask. intros o _. eexists. reflexivity.
Qed.

(** The one write to task_state in a [terminate_instance], handlers and
    decorators included, is the update to DELETED of [_delete_instance]. *)
Lemma terminate_instance_task_state env i bdms :
  emits (writes_task_state_only_as_deleted (uuid i))
        (terminate_instance env i bdms).
Proof.
  assert (HP : forall ev, avoiding touches_task_state ev ->
                          writes_task_state_only_as_deleted (uuid i) ev).
  { intros ev Hev Ht. unfold avoiding in Hev. congruence. }
  unfold terminate_instance.
  apply terminate_instance_decorators_keep_task_state; [exact HP|].
  unfold terminate_instance_body.
  apply emits_bind;
    [apply (emits_weaken _ _ _ _ HP); emits_auto|intros bdms'].
  unfold do_terminate_instance.
  apply emits_try_except;
    [apply _delete_instance_task_state
    |intros e; apply (emits_weaken _ _ _ _ HP); emits_auto].
Qed.

(** C1 (amended). Of the 48 public methods of ComputeManager that take an
    instance, the 30 decorated with [reverts_task_state] behave as claimed:
    a failure with any exception but UnexpectedTaskStateError is followed
    by the update task_state=None, issued before the exception propagates
    (whatever becomes of that update); an UnexpectedTaskStateError is
    re-raised with no write.  The other 18 lack the decorator:
    [terminate_instance], [confirm_resize] and the 16 listed below.  In a
    [terminate_instance], successful or failed, handlers and decorators
    included, the only write to task_state is the update vm_state=DELETED,
    task_state=None that [_delete_instance] issues once the guest is shut
    down and the volumes cleaned up: a delete that fails before that update
    writes no task_state, and nothing is written once [_delete_instance]
    has raised. *)
Theorem C1_task_state_on_failure env :
  (forall ep u function w e w1,
      rpc.has_reverts_task_state ep = true ->
      under_inner_decorators env ep u function w = (Raise e, w1) ->
      is_UnexpectedTaskStateError e = false ->
      exists w2 evs,
        decorated env ep u function w = (Raise e, w2) /\
        log w2 = evs ++ Ev (conductor_instance_update u [kw_task_state None])
                           (raises env (conductor_instance_update u
                                          [kw_task_state None]) (log w1))
                     :: log w1 /\
        Forall tracker_event evs) /\
  (forall ep u function w e w1,
      rpc.has_reverts_task_state ep = true ->
      under_inner_decorators env ep u function w = (Raise e, w1) ->
      is_UnexpectedTaskStateError e = true ->
      decorated env ep u function w
      = (Raise e,
         record (Ev (LOG_exception "Possibly task preempted." e) None) w1)) /\
  (forall ep,
      rpc.has_reverts_task_state ep = false <->
      In ep [ rpc.terminate_instance; rpc.confirm_resize;
              rpc.refresh_instance_security_rules; rpc.get_diagnostics;
              rpc.inject_network_info; rpc.get_console_output;
              rpc.get_vnc_console; rpc.get_spice_console;
              rpc.validate_console_port; rpc.remove_volume_connection;
              rpc.attach_interface; rpc.detach_interface;
              rpc.check_can_live_migrate_destination;
              rpc.check_can_live_migrate_source; rpc.pre_live_migration;
              rpc.live_migration; rpc.post_live_migration_at_destination;
              rpc.rollback_live_migration_at_destination ]) /\
  (forall i bdms w r w',
      terminate_instance env i bdms w = (r, w') ->
      Forall (writes_task_state_only_as_deleted (uuid i)) (new_events w w')) /\
  (forall i bdms w r w',
      terminate_instance env i bdms w = (r, w') ->
      (forall t o, ~ In (Ev (deleted_update (uuid i) t) o) (new_events w w')) ->
      Forall (avoiding touches_task_state) (new_events w w')) /\
  (forall i bdms w e w1,
      _delete_instance env i bdms w = (Raise e, w1) ->
      exists r w2 evs,
        do_terminate_instance env i bdms w = (r, w2) /\
        log w2 = evs ++ log w1 /\
        Forall (avoiding touches_task_state) evs).
Proof.
  assert (Hterm : forall i bdms w r w',
             terminate_instance env i bdms w = (r, w') ->
             Forall (writes_task_state_only_as_deleted (uuid i))
                    (new_events w w')).
  { intros i bdms w r w' Hrun.
    destruct (terminate_instance_task_state env i bdms _ _ _ Hrun)
      as (evs & L & F).
    rewrite (new_events_app _ _ _ L). exact F. }
  repeat apply conj.
  - intros ep u function w e w1 Hep Hin Hne. unfold decorated. rewrite Hep.
    apply reverts_task_state_clears; assumption.
  - intros ep u function w e w1 Hep Hin He. unfold decorated. rewrite Hep.
    apply reverts_task_state_preempted; assumption.
  - intro ep. split.
    + destruct ep; simpl; intro H; try discriminate H; tauto.
    + simpl. intros H.
      repeat (destruct H as [<- | H]; [reflexivity|]). destruct H.
  - exact Hterm.
  - intros i bdms w r w' Hrun Hno.
    specialize (Hterm _ _ _ _ _ Hrun). rewrite Forall_forall in *.
    intros ev Hin. unfold avoiding.
    destruct (touches_task_state (ev_call ev)) eqn:Ht; [|reflexivity].
    destruct (Hterm ev Hin Ht) as (t & Hc). exfalso.
    apply (Hno t (ev_raised ev)). destruct ev as [c o]. simpl in Hc.
    subst c. exact Hin.
  - apply do_terminate_instance_keeps_task_state.
Qed.

(** A resize that fails during the disk migration has its task_state reset;
    a terminate that fails in the hypervisor writes no task_state at all. *)
Lemma C1_task_state_on_failure_witness :
  (exists w2,
     resize_instance env_disk_migration_fails sample_instance
       ["reservation-1"] (Some sample_migration) 1%nat None world0
     = (Raise (OtherError 1), w2) /\
     In (conductor_instance_update "inst-1" [kw_task_state None])
        (map ev_call (log w2))) /\
  (exists r w2,
     do_terminate_instance env_destroy_fails sample_instance [] world0 = (r, w2) /\
     existsb touches_task_state (map ev_call (log w2)) = false) /\
  (let run := terminate_instance env_destroy_fails sample_instance [] world0 in
   fst run = Raise (OtherError 3) /\
   Forall (avoiding touches_task_state) (new_events world0 (snd run))).
Proof.
  destruct (C1_task_state_on_failure env_disk_migration_fails)
    as (Hclear & _).
  destruct (C1_task_state_on_failure env_destroy_fails)
    as (_ & _ & _ & _ & Hbefore & Hterm).
  split; [|split].
  - destruct (Hclear rpc.resize_instance "inst-1"
                (resize_instance_body env_disk_migration_fails sample_instance
                   ["reservation-1"] (Some sample_migration) 1%nat None)
                world0 (OtherError 1)
                (snd (under_inner_decorators env_disk_migration_fails
                        rpc.resize_instance "inst-1"
                        (resize_instance_body env_disk_migration_fails
                           sample_instance ["reservation-1"]
                           (Some sample_migration) 1%nat None) world0))
                eq_refl eq_refl eq_refl)
      as (w2 & evs & Hrun & Hlog & _).
    exists w2. split; [exact Hrun|].
    rewrite Hlog, map_app. apply in_or_app. right. left. reflexivity.
  - destruct (Hterm sample_instance [] world0 (OtherError 3)
                (snd (_delete_instance env_destroy_fails sample_instance []
                        world0)) eq_refl)
      as (r & w2 & evs & Hrun & Hlog & Hfa).
    exists r, w2. split; [exact Hrun|].
    unfold do_terminate_instance in Hrun.
    inversion Hrun; subst. reflexivity.
  - split; [reflexivity|].
    apply (Hbefore sample_instance [] world0 (Raise (OtherError 3))
             (snd (terminate_instance env_destroy_fails sample_instance []
                     world0)) eq_refl).
    intros t o Hin. vm_compute in Hin.
    repeat (destruct Hin as [Hin | Hin]; [discriminate Hin|]).
    exact Hin.
Defined.

(** ** The build workflow *)

(** A build whose claimed region fails goes through the [except] clauses
    of the inner [try]; what they raise reaches the outer handler, which
    issues the ERROR update and re-raises. *)
Lemma _run_instance_region_failed env is_first_time node i w im bdms rt w0 e w1 :
  build_prelude env node i w = (Ok (im, bdms, rt), w0) ->
  claimed_region env rt i bdms w0 = (Raise e, w1) ->
  _run_instance env is_first_time node i w
  = match build_failed env i e w1 with
    | (Ok a, w') => (Ok a, w')
    | (Raise e', w') =>
        save_and_reraise_exception e'
          (_set_instance_error_state env (uuid i)) w'
    end.
Proof.
  intros Hp Hr. unfold _run_instance.
  unfold try_except at 1. rewrite (bind_ok _ _ _ _ _ _ _ Hp).
  unfold try_except_else. rewrite Hr. reflexivity.
Qed.

(** The outer handler of [_run_instance]: the ERROR update is issued, and
    the exception goes on when that update does not fail itself. *)
Lemma error_out_and_reraise env u e w :
  exists r w' evs o,
    @save_and_reraise_exception unit e (_set_instance_error_state env u) w
    = (Raise r, w') /\
    log w' = evs ++ Ev (conductor_instance_update u [kw_vm_state vm_states.ERROR]) o
                 :: log w /\
    Forall tracker_event evs /\
    (_set_instance_error_state env u w = (Ok tt, w') -> r = e).
Proof.
  unfold save_and_reraise_exception.
  destruct (_set_instance_error_state env u w) as [[[]|e'] w'] eqn:Hs;
    destruct (_set_instance_error_state_log _ _ _ _ _ Hs)
      as (evs & o & _ & Hl & Hf & _).
  - exists e, w', evs, o. auto.
  - exists e', w', evs, o. repeat split; auto. intro H. discriminate H.
Qed.

(** As the claim is worded it fails on both ways a concurrent delete shows
    up in the spawn step. When the record is gone (InstanceNotFound), the
    network is deallocated, but the ERROR update is attempted and
    InstanceNotFound is raised to the caller. When the update meets task
    state 'deleting', the build returns without raising and without an
    ERROR update, but the network is not deallocated. *)
Lemma C5_concurrent_delete_counterexample :
  (let r := _run_instance env_deleted_during_build true None sample_instance
              world0 in
   fst r = Raise InstanceNotFound /\
   existsb is_network_deallocate (calls_of (snd r)) = true /\
   existsb marks_error (calls_of (snd r)) = true) /\
  (let r := _run_instance env_preempted_by_delete true None sample_instance
              world0 in
   fst r = Ok tt /\
   existsb marks_error (calls_of (snd r)) = false /\
   existsb is_network_deallocate (calls_of (snd r)) = false).
Proof. repeat split. Qed.

(** C5 (amended). The claimed region of a build fails because the instance
    was deleted concurrently. If it met task state 'deleting'
    (UnexpectedTaskStateError), the build returns at once without raising:
    no deallocation, no ERROR update. If the record was gone
    (InstanceNotFound), the network deallocation is attempted first, the
    ERROR update is attempted after it, and the build raises to its caller:
    InstanceNotFound itself when the deallocation and the handling of the
    ERROR update went through. *)
Theorem C5_concurrent_delete env is_first_time node i w im bdms rt w0 e w1 :
  build_prelude env node i w = (Ok (im, bdms, rt), w0) ->
  claimed_region env rt i bdms w0 = (Raise e, w1) ->
  (e = UnexpectedTaskStateError (Some task_states.DELETING) ->
   _run_instance env is_first_time node i w = (Ok tt, w1)) /\
  (e = InstanceNotFound ->
   let od := raises env (network_deallocate_for_instance (uuid i)) (log w1) in
   let wd := record (Ev (network_deallocate_for_instance (uuid i)) od) w1 in
   (exists e' w2 evs o,
      _run_instance env is_first_time node i w = (Raise e', w2) /\
      log w2 = evs ++ log wd /\
      In (Ev (conductor_instance_update (uuid i) [kw_vm_state vm_states.ERROR]) o)
         evs) /\
   (od = None ->
    forall w2, _set_instance_error_state env (uuid i) wd = (Ok tt, w2) ->
               _run_instance env is_first_time node i w
               = (Raise InstanceNotFound, w2))).
Proof.
  intros Hp Hr. split.
  - intros ->. rewrite (_run_instance_region_failed _ _ _ _ _ _ _ _ _ _ _ Hp Hr).
    reflexivity.
  - intros -> od wd.
    rewrite (_run_instance_region_failed _ _ _ _ _ _ _ _ _ _ _ Hp Hr).
    simpl. unfold try_except_else, _deallocate_network, ext. fold od.
    destruct od as [d|] eqn:Hod.
    + split; [|intro Habs; discriminate Habs].
      simpl. fold wd.
      destruct (error_out_and_reraise env (uuid i) d
                  (record (Ev (LOG_exception
                     "Failed to dealloc network for deleted instance" d) None) wd))
        as (r & w2 & evs & o & Hrun & Hl & _ & _).
      exists r, w2, (evs ++ [Ev (conductor_instance_update (uuid i)
                                   [kw_vm_state vm_states.ERROR]) o;
                             Ev (LOG_exception
                     "Failed to dealloc network for deleted instance" d) None]), o.
      split; [exact Hrun|]. split.
      * rewrite Hl. simpl. rewrite <- app_assoc. reflexivity.
      * apply in_or_app. right. left. reflexivity.
    + simpl. fold wd. split.
      * destruct (error_out_and_reraise env (uuid i) InstanceNotFound wd)
          as (r & w2 & evs & o & Hrun & Hl & _ & _).
        exists r, w2, (evs ++ [Ev (conductor_instance_update (uuid i)
                                     [kw_vm_state vm_states.ERROR]) o]), o.
        split; [exact Hrun|]. split.
        -- rewrite Hl. rewrite <- app_assoc. reflexivity.
        -- apply in_or_app. right. left. reflexivity.
      * intros _ w2 Hs. unfold save_and_reraise_exception. rewrite Hs.
        reflexivity.
Qed.

(** The build that is preempted by a delete returns quietly, the one whose
    record is gone raises InstanceNotFound. *)
Lemma C5_concurrent_delete_witness :
  _run_instance env_preempted_by_delete true None sample_instance world0
  = (Ok tt,
     snd (claimed_region env_preempted_by_delete "node1" sample_instance []
            (snd (build_prelude env_preempted_by_delete None sample_instance
                    world0)))) /\
  fst (_run_instance env_deleted_during_build true None sample_instance world0)
  = Raise InstanceNotFound.
Proof.
  split.
  - edestruct (C5_concurrent_delete env_preempted_by_delete true None
                 sample_instance world0) as [Hdel _].
    + vm_compute. reflexivity.
    + vm_compute. reflexivity.
    + rewrite Hdel; reflexivity.
  - edestruct (C5_concurrent_delete env_deleted_during_build true None
                 sample_instance world0) as [_ Hgone].
    + vm_compute. reflexivity.
    + vm_compute. reflexivity.
    + destruct (Hgone eq_refl) as [_ Hraise].
      erewrite Hraise; reflexivity.
Defined.

(** ** Rescheduling a failed build *)

Lemma preserves_ret A X (f : World -> X) (a : A) : preserves f (ret a).
Proof. intros w r w' H. inversion H; reflexivity. Qed.

Lemma preserves_raise A X (f : World -> X) e : preserves f (@raise A e).
Proof. intros w r w' H. inversion H; reflexivity. Qed.

Lemma preserves_get_world X (f : World -> X) : preserves f get_world.
Proof. intros w r w' H. inversion H; reflexivity. Qed.

Lemma preserves_modify X (f : World -> X) g :
  (forall w, f (g w) = f w) -> preserves f (modify g).
Proof. intros Hg w r w' H. inversion H; subst. apply Hg. Qed.

Lemma preserves_bind A B X (f : World -> X) (m : M A) (k : A -> M B) :
  preserves f m -> (forall a, preserves f (k a)) -> preserves f (bind m k).
Proof.
  intros Hm Hk w r w' Hrun.
  apply bind_inv in Hrun as [(a & w1 & H1 & H2) | (e & H1 & ->)].
  - rewrite (Hk a _ _ _ H2). eapply Hm; eauto.
  - eapply Hm; eauto.
Qed.

Lemma preserves_ext env X (f : World -> X) c :
  (forall ev w, f (record ev w) = f w) -> preserves f (ext env c).
Proof.
  intros Hf w r w' H. unfold ext in H.
  destruct (raises env c (log w)); inversion H; subst; apply Hf.
Qed.

Lemma preserves_ask env A X (f : World -> X) c (v : list event -> A) :
  (forall ev w, f (record ev w) = f w) -> preserves f (ask env c v).
Proof.
  intros Hf w r w' H. unfold ask in H.
  destruct (raises env c (log w)); inversion H; subst; apply Hf.
Qed.

Ltac preserves_step :=
  lazymatch goal with
  | |- preserves _ (bind _ _) => apply preserves_bind; [ | intros ? ]
  | |- preserves _ (ret _) => apply preserves_ret
  | |- preserves _ (raise _) => apply preserves_raise
  | |- preserves _ get_world => apply preserves_get_world
  | |- preserves _ (modify _) => apply preserves_modify; intros; reflexivity
  | |- preserves _ (ext _ _) => apply preserves_ext; intros; reflexivity
  | |- preserves _ (ask _ _ _) => apply preserves_ask; intros; reflexivity
  | |- preserves _ (match ?x with _ => _ end) => destruct x
  | |- preserves _ ?m => let h := head_of m in unfold h
  end.

(** [_instance_update] leaves the request's dict objects alone. *)
Lemma _instance_update_frame env u kwargs w r w' :
  _instance_update env u kwargs w = (r, w') ->
  request_spec_obj w' = request_spec_obj w /\
  filter_properties_obj w' = filter_properties_obj w.
Proof.
  intro H. split.
  - assert (Hp : preserves request_spec_obj (_instance_update env u kwargs))
      by (repeat preserves_step).
    exact (Hp _ _ _ H).
  - assert (Hp : preserves filter_properties_obj (_instance_update env u kwargs))
      by (repeat preserves_step).
    exact (Hp _ _ _ H).
Qed.

Lemma tracker_event_not_scheduler evs rs fp o :
  Forall tracker_event evs -> ~ In (Ev (scheduler_run_instance rs fp) o) evs.
Proof.
  intros Hf Hin. rewrite Forall_forall in Hf. apply Hf in Hin.
  discriminate Hin.
Qed.

Lemma reschedule_without_events u e (w w' : World) (r : result bool) :
  log w' = log w -> r <> Ok true ->
  exists evs,
    log w' = evs ++ log w /\
    Forall (avoiding is_log_original_error) evs /\
    (forall rs fp o, In (Ev (scheduler_run_instance rs fp) o) evs ->
                     resubmitted u e w rs fp) /\
    (r = Ok true ->
     exists rs fp, In (Ev (scheduler_run_instance rs fp) None) evs).
Proof.
  intros Hl Hr. exists []. split; [exact Hl|]. split; [constructor|]. split.
  - intros rs fp o Hin. destruct Hin.
  - intro Habs. contradiction.
Qed.

Lemma _reschedule_run env u e ts w r w' :
  _reschedule env u (scheduler_rpcapi_run_instance env) ts (Some e) w = (r, w') ->
  exists evs,
    log w' = evs ++ log w /\
    Forall (avoiding is_log_original_error) evs /\
    (forall rs fp o, In (Ev (scheduler_run_instance rs fp) o) evs ->
                     resubmitted u e w rs fp) /\
    (r = Ok true ->
     exists rs fp, In (Ev (scheduler_run_instance rs fp) None) evs).
Proof.
  intro H.
  unfold _reschedule in H. unfold bind at 1, get_world in H.
  destruct (fp_retry (filter_properties_obj w)) as [retry|] eqn:Hretry.
  2:{ inversion H; subst.
      apply reschedule_without_events; [reflexivity | discriminate]. }
  destruct (retry_truthy retry) eqn:Htruthy;
    cbv beta iota delta [negb] in H.
  2:{ inversion H; subst.
      apply reschedule_without_events; [reflexivity | discriminate]. }
  destruct (request_spec_obj w) as [rs0|] eqn:Hrs.
  2:{ inversion H; subst.
      apply reschedule_without_events; [reflexivity | discriminate]. }
  destruct (request_spec_truthy (Some rs0)) eqn:Hrst;
    cbv beta iota delta [negb] in H.
  2:{ inversion H; subst.
      apply reschedule_without_events; [reflexivity | discriminate]. }
  unfold bind at 1, modify in H.
  set (w1 := set_request_spec_obj _ w) in H.
  destruct (num_attempts retry) as [n|] eqn:Hn.
  2:{ unfold bind at 1, raise in H. inversion H; subst.
      apply reschedule_without_events; [reflexivity | discriminate]. }
  unfold bind at 1, ret in H.
  apply bind_inv in H as [(a & w2 & Hu & H) | (e' & Hu & ->)].
  2:{ destruct (_instance_update_log _ _ _ _ _ _ Hu) as (evs & Hl & Hf).
      exists (evs ++ [Ev (conductor_instance_update u [kw_task_state (Some ts)])
                         (raises env (conductor_instance_update u
                                        [kw_task_state (Some ts)]) (log w))]).
      split; [rewrite Hl; rewrite <- app_assoc; reflexivity|]. repeat split.
      - apply Forall_app. split.
        + eapply Forall_impl; [|exact Hf]. intros [c o'] Hc.
          unfold tracker_event, avoiding in *. simpl in *.
          destruct c; try discriminate Hc; reflexivity.
        + repeat constructor.
      - intros rs fp o Hin. apply in_app_or in Hin as [Hin|[Hin|[]]].
        + exfalso. eapply tracker_event_not_scheduler; eauto.
        + discriminate Hin.
      - intro Habs; discriminate Habs. }
  destruct (_instance_update_log _ _ _ _ _ _ Hu) as (evs & Hl & Hf).
  destruct (_instance_update_frame _ _ _ _ _ _ Hu) as (Hfr1 & Hfr2).
  unfold bind at 1, modify in H.
  unfold bind at 1, scheduler_rpcapi_run_instance in H.
  unfold bind at 1, get_world in H. simpl in H.
  rewrite Hfr1, Hfr2 in H. simpl in H.
  set (rs' := Some {| rs_instance_uuids := Some [u];
                      rs_security_group := rs_security_group rs0;
                      rs_other_keys := rs_other_keys rs0 |}) in *.
  set (fp' := {| fp_retry := Some {| num_attempts := Some n;
                                     retry_hosts := retry_hosts retry;
                                     retry_exc := Some (format_exception e) |};
                 fp_limits := fp_limits (filter_properties_obj w) |}) in *.
  assert (Hres : resubmitted u e w rs' fp').
  { exists retry, rs0. rewrite Hn. repeat split; auto. }
  unfold ext in H. simpl in H.
  destruct (raises env (scheduler_run_instance rs' fp') (log w2)) as [es|] eqn:Hs;
    inversion H; subst; simpl.
  - exists (Ev (scheduler_run_instance rs' fp') (Some es) :: evs
            ++ [Ev (conductor_instance_update u [kw_task_state (Some ts)])
                   (raises env (conductor_instance_update u
                                  [kw_task_state (Some ts)]) (log w))]).
    split; [rewrite Hl; simpl; rewrite <- app_assoc; reflexivity|].
    repeat split.
    + constructor; [reflexivity|]. apply Forall_app. split.
      * eapply Forall_impl; [|exact Hf]. intros [c o'] Hc.
        unfold tracker_event, avoiding in *. simpl in *.
        destruct c; try discriminate Hc; reflexivity.
      * repeat constructor.
    + intros rs fp o [Hin|Hin].
      * inversion Hin; subst. exact Hres.
      * apply in_app_or in Hin as [Hin|[Hin|[]]].
        -- exfalso. eapply tracker_event_not_scheduler; eauto.
        -- discriminate Hin.
    + intro Habs; discriminate Habs.
  - exists (Ev (scheduler_run_instance rs' fp') None :: evs
            ++ [Ev (conductor_instance_update u [kw_task_state (Some ts)])
                   (raises env (conductor_instance_update u
                                  [kw_task_state (Some ts)]) (log w))]).
    split; [rewrite Hl; simpl; rewrite <- app_assoc; reflexivity|].
    repeat split.
    + constructor; [reflexivity|]. apply Forall_app. split.
      * eapply Forall_impl; [|exact Hf]. intros [c o'] Hc.
        unfold tracker_event, avoiding in *. simpl in *.
        destruct c; try discriminate Hc; reflexivity.
      * repeat constructor.
    + intros rs fp o [Hin|Hin].
      * inversion Hin; subst. exact Hres.
      * apply in_app_or in Hin as [Hin|[Hin|[]]].
        -- exfalso. eapply tracker_event_not_scheduler; eauto.
        -- discriminate Hin.
    + intros _. exists rs', fp'. left. reflexivity.
Qed.

Lemma in_new_events w w' pre ev post :
  log w' = pre ++ ev :: post ++ log w -> In ev (new_events w w').
Proof.
  intro H. rewrite (new_events_app w w' (pre ++ ev :: post)).
  - apply in_or_app. right. left. reflexivity.
  - rewrite H, <- app_assoc. reflexivity.
Qed.

Lemma build_failed_hard env i e :
  is_InstanceNotFound e = false ->
  is_UnexpectedTaskStateError e = false ->
  build_failed env i e = _reschedule_or_reraise env i e.
Proof. destruct e; simpl; intros H1 H2; try discriminate; reflexivity. Qed.

Lemma resubmitted_frame u e w w' rs fp :
  request_spec_obj w' = request_spec_obj w ->
  filter_properties_obj w' = filter_properties_obj w ->
  resubmitted u e w' rs fp -> resubmitted u e w rs fp.
Proof.
  intros H1 H2 (retry & rs0 & Ha & Hb & Hc & Hd & He & Hf).
  exists retry, rs0. rewrite <- H1, <- H2. auto 10.
Qed.

Lemma in_singleton_scheduler c o' rs fp o :
  is_scheduler_run_instance c = false ->
  ~ In (Ev (scheduler_run_instance rs fp) o) [Ev c o'].
Proof.
  intros Hc [Hin|[]]. inversion Hin; subst. discriminate Hc.
Qed.

(** Whenever [_reschedule_or_reraise] reaches the scheduler, the request
    carried truthy retry metadata and a truthy request spec, and the
    scheduler is handed the failure under [retry['exc']] with the attempt
    count as it came. It returns only after a scheduler call that
    returned. *)
Lemma _reschedule_or_reraise_calls env i e w r w' :
  _reschedule_or_reraise env i e w = (r, w') ->
  exists evs,
    log w' = evs ++ log w /\
    (forall rs fp o, In (Ev (scheduler_run_instance rs fp) o) evs ->
                     resubmitted (uuid i) e w rs fp) /\
    (r = Ok tt ->
     exists rs fp, In (Ev (scheduler_run_instance rs fp) None) evs).
Proof.
  unfold _reschedule_or_reraise. intro H.
  apply bind_inv in H as [([] & w1 & Hfault & H) | (e1 & Hfault & ->)];
    unfold ext in Hfault;
    destruct (raises env (add_instance_fault_from_exc (uuid i) e) (log w))
      eqn:Ef; inversion Hfault; subst; clear Hfault.
  2:{ eexists [_]. split; [reflexivity|]. split.
      - intros rs fp o Hin. exfalso.
        eapply in_singleton_scheduler; [|exact Hin]. reflexivity.
      - intro Habs; discriminate Habs. }
  set (w1 := record (Ev (add_instance_fault_from_exc (uuid i) e) None) w) in *.
  apply bind_inv in H as [([] & w2 & Hd & H) | (e2 & Hd & ->)];
    unfold try_except, _deallocate_network, ext in Hd;
    destruct (raises env (network_deallocate_for_instance (uuid i)) (log w1))
      eqn:Ed; inversion Hd; subst; clear Hd.
  2:{ eexists [_; _; _]. split; [reflexivity|]. split.
      - intros rs fp o [Hin|[Hin|[Hin|[]]]]; discriminate Hin.
      - intro Habs; discriminate Habs. }
  set (w2 := record (Ev (network_deallocate_for_instance (uuid i)) None) w1) in *.
  apply bind_inv in H as [(resched & w3 & Hr & H) | (e3 & Hr & ->)].
  - unfold try_except in Hr.
    destruct (_reschedule env (uuid i) (scheduler_rpcapi_run_instance env)
                task_states.SCHEDULING (Some e) w2) as [rr w4] eqn:Hrs.
    destruct (_reschedule_run _ _ _ _ _ _ _ Hrs)
      as (evs & Hl & _ & Hsched & Hok).
    assert (Hsched' : forall rs fp o,
               In (Ev (scheduler_run_instance rs fp) o) evs ->
               resubmitted (uuid i) e w rs fp).
    { intros rs fp o Hin. eapply resubmitted_frame; [| |eapply Hsched; eauto];
        reflexivity. }
    assert (Hw3 : exists evs3, log w3 = evs3 ++ log w /\
               (forall rs fp o, In (Ev (scheduler_run_instance rs fp) o) evs3 ->
                                resubmitted (uuid i) e w rs fp) /\
               (resched = true ->
                exists rs fp, In (Ev (scheduler_run_instance rs fp) None) evs3)).
    { destruct rr as [b|e4].
      - inversion Hr; subst.
        exists (evs ++ [Ev (network_deallocate_for_instance (uuid i)) None;
                        Ev (add_instance_fault_from_exc (uuid i) e) None]).
        split; [rewrite Hl; simpl; rewrite <- app_assoc; reflexivity|]. split.
        + intros rs fp o Hin. apply in_app_or in Hin as [Hin|[Hin|[Hin|[]]]];
            try discriminate Hin. eauto.
        + intros ->. destruct (Hok eq_refl) as (rs & fp & Hin).
          exists rs, fp. apply in_or_app. left. exact Hin.
      - unfold bind, note, ret in Hr. inversion Hr; subst.
        exists (Ev (LOG_exception "Error trying to reschedule" e4) None :: evs
                ++ [Ev (network_deallocate_for_instance (uuid i)) None;
                    Ev (add_instance_fault_from_exc (uuid i) e) None]).
        split; [simpl; rewrite Hl; simpl; rewrite <- app_assoc; reflexivity|].
        split.
        + intros rs fp o [Hin|Hin]; [discriminate Hin|].
          apply in_app_or in Hin as [Hin|[Hin|[Hin|[]]]];
            try discriminate Hin. eauto.
        + intro Habs; discriminate Habs. }
    destruct Hw3 as (evs3 & Hl3 & Hs3 & Hok3).
    destruct resched.
    + unfold _log_original_error, note in H. inversion H; subst.
      exists (Ev (log_original_error e (uuid i)) None :: evs3).
      split; [simpl; rewrite Hl3; reflexivity|]. split.
      * intros rs fp o [Hin|Hin]; [discriminate Hin | eauto].
      * intros _. destruct (Hok3 eq_refl) as (rs & fp & Hin).
        exists rs, fp. right. exact Hin.
    + inversion H; subst. exists evs3. split; [exact Hl3|]. split; [exact Hs3|].
      intro Habs; discriminate Habs.
  - unfold try_except in Hr.
    destruct (_reschedule env (uuid i) (scheduler_rpcapi_run_instance env)
                task_states.SCHEDULING (Some e) w2) as [[b|e4] w4];
      [discriminate Hr|].
    unfold bind, note, ret in Hr. discriminate Hr.
Qed.

(** With the fault recorded and the network deallocated,
    [_reschedule_or_reraise] follows the outcome of [_reschedule]: the
    original error is logged when the build was rescheduled, and re-raised
    without that log line otherwise. *)
Lemma _reschedule_or_reraise_outcome env i e w rr w4 :
  let w1 := after_call (add_instance_fault_from_exc (uuid i) e) w in
  let w2 := after_call (network_deallocate_for_instance (uuid i)) w1 in
  raises env (add_instance_fault_from_exc (uuid i) e) (log w) = None ->
  raises env (network_deallocate_for_instance (uuid i)) (log w1) = None ->
  _reschedule env (uuid i) (scheduler_rpcapi_run_instance env)
              task_states.SCHEDULING (Some e) w2 = (rr, w4) ->
  _reschedule_or_reraise env i e w
  = match rr with
    | Ok true =>
        (Ok tt, record (Ev (log_original_error e (uuid i)) None) w4)
    | Ok false => (Raise e, w4)
    | Raise e' =>
        (Raise e,
         record (Ev (LOG_exception "Error trying to reschedule" e') None) w4)
    end.
Proof.
  intros w1 w2 Hf Hd Hr. unfold _reschedule_or_reraise.
  unfold bind at 1, ext at 1. rewrite Hf. fold (after_call (add_instance_fault_from_exc (uuid i) e) w). fold w1.
  unfold bind at 1, try_except at 1, _deallocate_network, ext at 1.
  rewrite Hd. fold (after_call (network_deallocate_for_instance (uuid i)) w1).
  fold w2.
  unfold bind at 1, try_except at 1. rewrite Hr.
  destruct rr as [[|]|e']; reflexivity.
Qed.

(** With truthy retry metadata that has an attempt count, a truthy request
    spec and the task state reset accepted, [_reschedule] calls the
    scheduler with the two dict objects as mutated. *)
Lemma _reschedule_resubmits env u e ts w retry n rs0 a w3 :
  let rs' := Some {| rs_instance_uuids := Some [u];
                      rs_security_group := rs_security_group rs0;
                      rs_other_keys := rs_other_keys rs0 |} in
  let fp' := {| fp_retry := Some {| num_attempts := Some n;
                                    retry_hosts := retry_hosts retry;
                                    retry_exc := Some (format_exception e) |};
                fp_limits := fp_limits (filter_properties_obj w) |} in
  fp_retry (filter_properties_obj w) = Some retry ->
  num_attempts retry = Some n ->
  request_spec_obj w = Some rs0 ->
  request_spec_truthy (Some rs0) = true ->
  _instance_update env u [kw_task_state (Some ts)] (set_request_spec_obj rs' w)
  = (Ok a, w3) ->
  let o := raises env (scheduler_run_instance rs' fp') (log w3) in
  _reschedule env u (scheduler_rpcapi_run_instance env) ts (Some e) w
  = (match o with None => Ok true | Some es => Raise es end,
     record (Ev (scheduler_run_instance rs' fp') o)
            (set_filter_properties_obj fp' w3)).
Proof.
  intros rs' fp' Hretry Hn Hrs Hrst Hu o.
  destruct (_instance_update_frame _ _ _ _ _ _ Hu) as (Hfr1 & Hfr2).
  unfold _reschedule. unfold bind at 1, get_world.
  rewrite Hretry.
  assert (Htruthy : retry_truthy retry = true)
    by (unfold retry_truthy; rewrite Hn; reflexivity).
  rewrite Htruthy, Hrs, Hrst. cbv beta iota delta [negb].
  unfold bind at 1, modify. rewrite Hn.
  unfold bind at 1, ret. fold rs'.
  rewrite (bind_ok _ _ _ _ _ _ _ Hu).
  unfold bind at 1, modify.
  unfold bind at 1, scheduler_rpcapi_run_instance.
  unfold bind at 1, get_world. simpl.
  rewrite Hfr1, Hfr2. simpl. fold fp'.
  unfold ext. simpl. fold o.
  destruct o; reflexivity.
Qed.

(** As the claim is worded it fails twice. A build with retry metadata
    (attempt count 1) and a request spec that fails in spawn is handed back
    to the scheduler with the failure recorded but with the attempt count
    still 1: the manager never increments it. And a request whose
    filter properties hold 'retry' with an empty dict is not re-submitted. *)
Lemma C4_retry_count_not_incremented :
  (let r := _run_instance env_spawn_fails true None sample_instance
              world_retry in
   fst r = Ok tt /\
   fp_retry (filter_properties_obj world_retry)
   = Some {| num_attempts := Some 1; retry_hosts := Some ["host0"];
             retry_exc := None |} /\
   filter (fun ev => is_scheduler_run_instance (ev_call ev)) (log (snd r))
   = [ Ev (scheduler_run_instance
             (Some {| rs_instance_uuids := Some ["inst-1"];
                      rs_security_group := None; rs_other_keys := 3 |})
             {| fp_retry := Some {| num_attempts := Some 1;
                                    retry_hosts := Some ["host0"];
                                    retry_exc := Some ["Exception"] |};
                fp_limits := [] |}) None ]) /\
  (let r := _run_instance env_spawn_fails true None sample_instance
              world_empty_retry in
   fst r = Raise (OtherError 4) /\
   fp_retry (filter_properties_obj world_empty_retry) <> None /\
   existsb is_scheduler_run_instance (calls_of (snd r)) = false).
Proof. repeat split. discriminate. Qed.

(** C4 (amended). A build fails with a hard exception [e] in the claimed
    region. The scheduler is called only if the request carried a
    non-empty retry dict and a non-empty request spec, and it is then
    handed the request spec with instance_uuids set and the retry dict with
    the failure recorded under 'exc' and the attempt count unchanged.
    Conversely, when the retry dict has an attempt count, the request spec
    is non-empty, and recording the fault, deallocating the network and
    resetting the task state go through, the scheduler is called; the
    handler returns if that call returns and re-raises [e] if it raises. *)
Theorem C4_reschedule env i e w r w' :
  is_InstanceNotFound e = false ->
  is_UnexpectedTaskStateError e = false ->
  build_failed env i e w = (r, w') ->
  (forall rs fp o,
      In (Ev (scheduler_run_instance rs fp) o) (new_events w w') ->
      resubmitted (uuid i) e w rs fp) /\
  (forall retry n rs0 a w3,
      let w1 := after_call (add_instance_fault_from_exc (uuid i) e) w in
      let w2 := after_call (network_deallocate_for_instance (uuid i)) w1 in
      let rs' := Some {| rs_instance_uuids := Some [uuid i];
                          rs_security_group := rs_security_group rs0;
                          rs_other_keys := rs_other_keys rs0 |} in
      raises env (add_instance_fault_from_exc (uuid i) e) (log w) = None ->
      raises env (network_deallocate_for_instance (uuid i)) (log w1) = None ->
      fp_retry (filter_properties_obj w) = Some retry ->
      num_attempts retry = Some n ->
      request_spec_obj w = Some rs0 ->
      request_spec_truthy (Some rs0) = true ->
      _instance_update env (uuid i)
        [kw_task_state (Some task_states.SCHEDULING)]
        (set_request_spec_obj rs' w2) = (Ok a, w3) ->
      exists fp o,
        In (Ev (scheduler_run_instance rs' fp) o) (new_events w w') /\
        (o = None -> r = Ok tt) /\
        (o <> None -> r = Raise e)).
Proof.
  intros Hnf Hut Hrun. rewrite (build_failed_hard _ _ _ Hnf Hut) in Hrun.
  split.
  - destruct (_reschedule_or_reraise_calls _ _ _ _ _ _ Hrun)
      as (evs & Hl & Hs & _).
    rewrite (new_events_app _ _ _ Hl). exact Hs.
  - intros retry n rs0 a w3 w1 w2 rs' Hf Hd Hretry Hn Hrs Hrst Hu.
    pose proof (_reschedule_resubmits env (uuid i) e task_states.SCHEDULING
                  w2 retry n rs0 a w3 Hretry Hn Hrs Hrst Hu) as Hres.
    cbv zeta in Hres. fold rs' in Hres.
    rewrite (_reschedule_or_reraise_outcome env i e w _ _ Hf Hd Hres) in Hrun.
    destruct (_instance_update_log _ _ _ _ _ _ Hu) as (evs & Hl & _).
    match type of Hres with
    | context [raises env (scheduler_run_instance rs' ?fp) (log w3)] =>
        exists fp, (raises env (scheduler_run_instance rs' fp) (log w3));
        destruct (raises env (scheduler_run_instance rs' fp) (log w3)) eqn:Eo
    end; inversion Hrun; subst; clear Hrun.
    + split; [|split; [intro Habs; discriminate Habs | reflexivity]].
      eapply (in_new_events w _ [_] _ (evs ++ [_; _; _])).
      simpl. rewrite Hl. simpl. rewrite <- app_assoc. reflexivity.
    + split; [|split; [reflexivity | intro Habs; contradiction]].
      eapply (in_new_events w _ [_] _ (evs ++ [_; _; _])).
      simpl. rewrite Hl. simpl. rewrite <- app_assoc. reflexivity.
Qed.

Lemma C4_reschedule_witness :
  let r := build_failed env_spawn_fails sample_instance (OtherError 4)
             world_retry in
  fst r = Ok tt /\
  forall rs fp o,
    In (Ev (scheduler_run_instance rs fp) o) (new_events world_retry (snd r)) ->
    resubmitted "inst-1" (OtherError 4) world_retry rs fp.
Proof.
  intro r. split; [reflexivity|].
  destruct (C4_reschedule env_spawn_fails sample_instance (OtherError 4)
              world_retry (fst r) (snd r) eq_refl eq_refl eq_refl)
    as [Honly _].
  exact Honly.
Defined.

(** Without retry metadata, or without a request spec, [_reschedule]
    declines at once. *)
Lemma _reschedule_declines env u m ts exc w :
  fp_retry (filter_properties_obj w) = None \/
  request_spec_truthy (request_spec_obj w) = false ->
  _reschedule env u m ts exc w = (Ok false, w).
Proof.
  intros H. unfold _reschedule. unfold bind at 1, get_world.
  destruct (fp_retry (filter_properties_obj w)) as [retry|]; [|reflexivity].
  destruct (negb (retry_truthy retry)); [reflexivity|].
  destruct H as [H|H]; [discriminate H|].
  destruct (request_spec_obj w) as [rs0|]; [|reflexivity].
  rewrite H. reflexivity.
Qed.

Lemma tracker_event_avoids_log_original_error ev :
  tracker_event ev -> avoiding is_log_original_error ev.
Proof.
  destruct ev as [c o]. unfold tracker_event, avoiding. simpl.
  destruct c; intro H; try discriminate H; reflexivity.
Qed.

(** As the claim is worded it fails on its last clause: a build whose
    resource claim fails, with no retry metadata, is marked ERROR and
    re-raises the original exception, and nothing on the way logs the
    original traceback ([_log_original_error] is reserved for the
    rescheduled build and for a failed deallocation). *)
Lemma C3_original_traceback_not_logged :
  let r := _run_instance env_claim_fails true None sample_instance world0 in
  fst r = Raise ComputeResourcesUnavailable /\
  existsb marks_error (calls_of (snd r)) = true /\
  existsb is_log_original_error (calls_of (snd r)) = false /\
  existsb is_LOG_exception (calls_of (snd r)) = false /\
  calls_of (snd r)
  = [ driver_instance_exists "instance-00000001";
      image_service_show "img-1"; driver_get_available_nodes;
      conductor_instance_update "inst-1"
        [kw_vm_state vm_states.BUILDING; kw_task_state None;
         kw_expected_task_state [Some task_states.SCHEDULING; None]];
      driver_get_available_nodes; driver_get_available_nodes;
      rt_update_usage "node1" "inst-1";
      notify_about_instance_usage "inst-1" "create.start";
      conductor_block_device_mapping_get_all_by_instance "inst-1";
      rt_instance_claim "node1" "inst-1";
      add_instance_fault_from_exc "inst-1" ComputeResourcesUnavailable;
      network_deallocate_for_instance "inst-1";
      conductor_instance_update "inst-1" [kw_vm_state vm_states.ERROR];
      driver_get_available_nodes; rt_update_usage "node1" "inst-1" ].
Proof. repeat split. Qed.

(** C3 (amended). A build fails with a hard exception [e] in the claimed
    region and is not rescheduled ([_reschedule] declines, for want of retry
    metadata or of a request spec, or raises itself), the fault having been
    recorded and the network deallocated. Then the ERROR update is issued
    and, it not failing itself, the exception raised to the caller is [e],
    the original one. On this path [_log_original_error] is not called: the
    original traceback is logged only for a rescheduled build. *)
Theorem C3_not_rescheduled env is_first_time node i w im bdms rt w0 e w1
        rr w4 w6 :
  build_prelude env node i w = (Ok (im, bdms, rt), w0) ->
  claimed_region env rt i bdms w0 = (Raise e, w1) ->
  is_InstanceNotFound e = false ->
  is_UnexpectedTaskStateError e = false ->
  let w2 := after_call (add_instance_fault_from_exc (uuid i) e) w1 in
  let w3 := after_call (network_deallocate_for_instance (uuid i)) w2 in
  raises env (add_instance_fault_from_exc (uuid i) e) (log w1) = None ->
  raises env (network_deallocate_for_instance (uuid i)) (log w2) = None ->
  _reschedule env (uuid i) (scheduler_rpcapi_run_instance env)
              task_states.SCHEDULING (Some e) w3 = (rr, w4) ->
  rr <> Ok true ->
  let w5 := match rr with
            | Raise e' =>
                record (Ev (LOG_exception "Error trying to reschedule" e') None)
                       w4
            | Ok _ => w4
            end in
  _set_instance_error_state env (uuid i) w5 = (Ok tt, w6) ->
  _run_instance env is_first_time node i w = (Raise e, w6) /\
  (exists evs o,
      log w6 = evs ++ Ev (conductor_instance_update (uuid i)
                            [kw_vm_state vm_states.ERROR]) o :: log w5 /\
      Forall tracker_event evs /\
      (o = None \/ o = Some InstanceNotFound)) /\
  Forall (avoiding is_log_original_error) (new_events w1 w6).
Proof.
  intros Hp Hr Hnf Hut w2 w3 Hf Hd Hrs Hrr w5 Hs.
  destruct (_set_instance_error_state_log _ _ _ _ _ Hs)
    as (evs & o & _ & Hl & Hfa & Ho).
  assert (Hbf : build_failed env i e w1 = (Raise e, w5)).
  { rewrite (build_failed_hard _ _ _ Hnf Hut).
    rewrite (_reschedule_or_reraise_outcome env i e w1 _ _ Hf Hd Hrs).
    unfold w5. destruct rr as [[|]|e']; [contradiction | |]; reflexivity. }
  split; [|split].
  - rewrite (_run_instance_region_failed _ _ _ _ _ _ _ _ _ _ _ Hp Hr), Hbf.
    unfold save_and_reraise_exception. rewrite Hs. reflexivity.
  - exists evs, o. auto.
  - destruct (_reschedule_run _ _ _ _ _ _ _ Hrs) as (evr & Hlr & Hfr & _).
    assert (H5 : exists ev5, log w5 = ev5 ++ log w1 /\
                             Forall (avoiding is_log_original_error) ev5).
    { unfold w5. destruct rr as [b|e'].
      - exists (evr ++ [Ev (network_deallocate_for_instance (uuid i)) None;
                        Ev (add_instance_fault_from_exc (uuid i) e) None]).
        split; [rewrite Hlr; simpl; rewrite <- app_assoc; reflexivity|].
        apply Forall_app. split; [exact Hfr | repeat constructor].
      - exists (Ev (LOG_exception "Error trying to reschedule" e') None :: evr
                ++ [Ev (network_deallocate_for_instance (uuid i)) None;
                    Ev (add_instance_fault_from_exc (uuid i) e) None]).
        split; [simpl; rewrite Hlr; simpl; rewrite <- app_assoc; reflexivity|].
        constructor; [reflexivity|].
        apply Forall_app. split; [exact Hfr | repeat constructor]. }
    destruct H5 as (ev5 & Hl5 & Hf5).
    rewrite (new_events_app w1 w6 (evs ++ Ev (conductor_instance_update (uuid i)
                            [kw_vm_state vm_states.ERROR]) o :: ev5)).
    + apply Forall_app. split.
      * eapply Forall_impl; [|exact Hfa].
        apply tracker_event_avoids_log_original_error.
      * constructor; [reflexivity | exact Hf5].
    + rewrite Hl, Hl5, <- app_assoc. reflexivity.
Qed.

Lemma C3_not_rescheduled_witness :
  _run_instance env_claim_fails true None sample_instance world0
  = (Raise ComputeResourcesUnavailable,
     snd (_run_instance env_claim_fails true None sample_instance world0)).
Proof.
  edestruct (C3_not_rescheduled env_claim_fails true None sample_instance
               world0) as [Hrun _].
  - vm_compute. reflexivity.
  - vm_compute. reflexivity.
  - reflexivity.
  - reflexivity.
  - reflexivity.
  - reflexivity.
  - apply _reschedule_declines. left. reflexivity.
  - discriminate.
  - vm_compute. reflexivity.
  - rewrite Hrun. reflexivity.
Defined.

(** * Further properties of the manager's helpers *)

(** ** The registry of resource trackers *)

Lemma mem_head n d : mem n (n :: d) = true.
Proof. unfold mem. simpl. rewrite String.eqb_refl. reflexivity. Qed.

(** [_get_resource_tracker]: a tracker that was handed out is registered
    and is handed out again without asking the driver; a node without a
    tracker gets one only if the driver lists it; a failed lookup
    registers nothing. *)
Theorem _get_resource_tracker_registry env n w r w1 :
  _get_resource_tracker env n w = (r, w1) ->
  (forall rt, r = Ok rt ->
     rt = n /\
     mem n (_resource_tracker_dict w1) = true /\
     _get_resource_tracker env n w1 = (Ok n, w1) /\
     (mem n (_resource_tracker_dict w) = false ->
      mem n (available_nodes env (log w)) = true)) /\
  (forall e, r = Raise e ->
     _resource_tracker_dict w1 = _resource_tracker_dict w /\
     mem n (_resource_tracker_dict w) = false).
Proof.
  unfold _get_resource_tracker. unfold bind at 1, get_world.
  destruct (mem n (_resource_tracker_dict w)) eqn:Hm.
  - intro H. inversion H; subst. split.
    + intros rt Hrt. inversion Hrt; subst.
      repeat split; try assumption.
      * unfold bind at 1, get_world. rewrite Hm. reflexivity.
      * intro Habs. discriminate Habs.
    + intros e He. discriminate He.
  - unfold bind at 1, ask.
    destruct (raises env driver_get_available_nodes (log w)) as [e0|] eqn:Er.
    + intro H. inversion H; subst. split.
      * intros rt Hrt. discriminate Hrt.
      * intros e He. split; reflexivity.
    + destruct (mem n (available_nodes env (log w))) eqn:Ha;
        cbv beta iota delta [negb].
      * unfold bind, modify, ret. intro H. inversion H; subst. split.
        -- intros rt Hrt. injection Hrt as <-.
           split; [reflexivity|]. split; [apply mem_head|].
           split; [|intros _; reflexivity].
           unfold get_world.
           match goal with
           | |- context [mem n (_resource_tracker_dict ?W)] =>
               replace (mem n (_resource_tracker_dict W)) with true
                 by (symmetry; apply mem_head)
           end.
           reflexivity.
        -- intros e He. discriminate He.
      * intro H. inversion H; subst. split.
        -- intros rt Hrt. discriminate Hrt.
        -- intros e He. split; reflexivity.
Qed.

Lemma _get_resource_tracker_registry_witness :
  exists w1,
    _get_resource_tracker (env_of sample_instance quiet) "node1" world0
    = (Ok "node1", w1) /\
    _get_resource_tracker (env_of sample_instance quiet) "node1" w1
    = (Ok "node1", w1) /\
    fst (_get_resource_tracker env_unknown_node "node1" world0)
    = Raise NovaException.
Proof.
  eexists. split; [reflexivity|]. split; [|reflexivity].
  edestruct (_get_resource_tracker_registry (env_of sample_instance quiet)
               "node1" world0) as [Hok _]; [reflexivity|].
  destruct (Hok _ eq_refl) as (_ & _ & Hagain & _). exact Hagain.
Defined.

(** ** Record updates and resource usage *)

(** [_instance_update] reports usage to a resource tracker only for an
    instance the record store places on this host and on a node the driver
    lists, and then to the tracker of that node, for that instance. *)
Theorem _instance_update_tracks_own_host env u kwargs w r w' :
  _instance_update env u kwargs w = (r, w') ->
  let instance_ref := instance_update_result env u kwargs (log w) in
  forall n u' o,
    In (Ev (rt_update_usage n u') o) (new_events w w') ->
    host instance_ref = self_host env /\
    n = node instance_ref /\
    u' = uuid instance_ref /\
    mem (node instance_ref)
        (available_nodes env
           (log (after_call (conductor_instance_update u kwargs) w))) = true.
Proof.
  intros Hrun instance_ref n u' o Hin.
  unfold _instance_update in Hrun.
  apply bind_inv in Hrun as [(ref & w1 & Hask & Hrun) | (e & Hask & ->)];
    unfold ask in Hask;
    destruct (raises env (conductor_instance_update u kwargs) (log w)) eqn:E;
    inversion Hask; subst; clear Hask.
  2:{ rewrite (new_events_app w _ [Ev (conductor_instance_update u kwargs) (Some e)])
        in Hin by reflexivity.
      destruct Hin as [Hin|[]]. discriminate Hin. }
  fold instance_ref in Hrun.
  apply bind_inv in Hrun as [([] & w2 & Hrest & Hret) | (e & Hrest & ->)].
  - inversion Hret; subst. clear Hret.
    destruct (String.eqb (host instance_ref) (self_host env)) eqn:Hh.
    + apply String.eqb_eq in Hh.
      apply bind_inv in Hrest as [(nodes & w3 & Hn & Hrest) | (e & Hn & Habs)];
        [|discriminate Habs].
      unfold ask in Hn.
      destruct (raises env driver_get_available_nodes _) eqn:En;
        inversion Hn; subst; clear Hn.
      match type of Hrest with
      | context [mem (node instance_ref) ?l] => destruct (mem (node instance_ref) l) eqn:Hmem
      end.
      * apply bind_inv in Hrest as [(rt & w4 & Hrt & Hext) | (e & _ & Habs)];
          [|discriminate Habs].
        destruct (_get_resource_tracker_registry _ _ _ _ _ Hrt) as [Hok _].
        destruct (Hok _ eq_refl) as (-> & _).
        assert (Hem : emits (avoiding (fun c => match c with rt_update_usage _ _ => true | _ => false end))
                            (_get_resource_tracker env (node instance_ref)))
          by emits_auto.
        destruct (Hem _ _ _ Hrt) as (evs & Hl & Hf).
        unfold ext in Hext.
        destruct (raises env (rt_update_usage _ _) (log w4)) eqn:Eu;
          inversion Hext; subst; clear Hext.
        rewrite (new_events_app w _
                   (Ev (rt_update_usage (node instance_ref) (uuid instance_ref)) None
                    :: evs ++ [Ev driver_get_available_nodes None;
                               Ev (conductor_instance_update u kwargs) None]))
          in Hin
          by (simpl; rewrite Hl; simpl; rewrite <- app_assoc; reflexivity).
        destruct Hin as [Hin|Hin].
        -- inversion Hin; subst. auto.
        -- apply in_app_or in Hin as [Hin|[Hin|[Hin|[]]]];
             try discriminate Hin.
           rewrite Forall_forall in Hf. apply Hf in Hin. discriminate Hin.
      * inversion Hrest; subst.
        rewrite (new_events_app w _
                   [Ev driver_get_available_nodes None;
                    Ev (conductor_instance_update u kwargs) None])
          in Hin by reflexivity.
        destruct Hin as [Hin|[Hin|[]]]; discriminate Hin.
    + inversion Hrest; subst.
      rewrite (new_events_app w _ [Ev (conductor_instance_update u kwargs) None])
        in Hin by reflexivity.
      destruct Hin as [Hin|[]]. discriminate Hin.
  - destruct (String.eqb (host instance_ref) (self_host env)) eqn:Hh;
      [|discriminate Hrest].
    apply String.eqb_eq in Hh.
    apply bind_inv in Hrest as [(nodes & w3 & Hn & Hrest) | (e' & Hn & He)];
      unfold ask in Hn;
      destruct (raises env driver_get_available_nodes _) eqn:En;
      inversion Hn; subst; clear Hn.
    2:{ rewrite (new_events_app w _
                   [Ev driver_get_available_nodes (Some e');
                    Ev (conductor_instance_update u kwargs) None])
          in Hin by reflexivity.
        destruct Hin as [Hin|[Hin|[]]]; discriminate Hin. }
    match type of Hrest with
    | context [mem (node instance_ref) ?l] => destruct (mem (node instance_ref) l) eqn:Hmem
    end; [|discriminate Hrest].
    assert (Hem : emits (avoiding (fun c => match c with rt_update_usage _ _ => true | _ => false end))
                        (_get_resource_tracker env (node instance_ref)))
      by emits_auto.
    apply bind_inv in Hrest as [(rt & w4 & Hrt & Hext) | (e' & Hrt & He)].
    + destruct (_get_resource_tracker_registry _ _ _ _ _ Hrt) as [Hok _].
      destruct (Hok _ eq_refl) as (-> & _).
      destruct (Hem _ _ _ Hrt) as (evs & Hl & Hf).
      unfold ext in Hext.
      destruct (raises env (rt_update_usage _ _) (log w4)) eqn:Eu;
        inversion Hext; subst; clear Hext.
      rewrite (new_events_app w _
                 (Ev (rt_update_usage (node instance_ref) (uuid instance_ref)) (Some e)
                  :: evs ++ [Ev driver_get_available_nodes None;
                             Ev (conductor_instance_update u kwargs) None]))
        in Hin
        by (simpl; rewrite Hl; simpl; rewrite <- app_assoc; reflexivity).
      destruct Hin as [Hin|Hin].
      * inversion Hin; subst. auto.
      * apply in_app_or in Hin as [Hin|[Hin|[Hin|[]]]];
          try discriminate Hin.
        rewrite Forall_forall in Hf. apply Hf in Hin. discriminate Hin.
    + destruct (Hem _ _ _ Hrt) as (evs & Hl & Hf).
      rewrite (new_events_app w _
                 (evs ++ [Ev driver_get_available_nodes None;
                          Ev (conductor_instance_update u kwargs) None]))
        in Hin
        by (rewrite Hl; simpl; rewrite <- app_assoc; reflexivity).
      apply in_app_or in Hin as [Hin|[Hin|[Hin|[]]]];
        try discriminate Hin.
      rewrite Forall_forall in Hf. apply Hf in Hin. discriminate Hin.
Qed.

Lemma _instance_update_tracks_own_host_witness :
  let r := _instance_update (env_of sample_instance quiet) "inst-1"
             [kw_task_state None] world0 in
  In (Ev (rt_update_usage "node1" "inst-1") None) (new_events world0 (snd r)) /\
  host sample_instance = "host1" /\ node sample_instance = "node1".
Proof.
  intro r.
  assert (Hin : In (Ev (rt_update_usage "node1" "inst-1") None)
                   (new_events world0 (snd r))) by (vm_compute; auto).
  split; [exact Hin|].
  destruct (_instance_update_tracks_own_host (env_of sample_instance quiet)
              "inst-1" [kw_task_state None] world0 (fst r) (snd r) eq_refl
              "node1" "inst-1" None Hin) as (Hh & Hn & _).
  split; [exact Hh | symmetry; exact Hn].
Defined.

(** [_set_instance_error_state] never lets InstanceNotFound out: an
    instance destroyed under it is not an error. When the record store
    reports the instance gone, it returns having issued that one update. *)
Theorem _set_instance_error_state_tolerates_deletion env u w r w' :
  _set_instance_error_state env u w = (r, w') ->
  r <> Raise InstanceNotFound /\
  (raises env (conductor_instance_update u [kw_vm_state vm_states.ERROR])
          (log w) = Some InstanceNotFound ->
   r = Ok tt /\
   w' = record (Ev (conductor_instance_update u [kw_vm_state vm_states.ERROR])
                   (Some InstanceNotFound)) w).
Proof.
  unfold _set_instance_error_state, try_except. intro H.
  destruct (bind (_instance_update env u [kw_vm_state vm_states.ERROR])
                 (fun _ => ret tt) w) as [[[]|e] w1] eqn:Hb.
  - inversion H; subst. split; [discriminate|].
    intro Hr. apply bind_inv in Hb as [(a & w2 & Hu & _) | (e & _ & Habs)];
      [|discriminate Habs].
    rewrite (_instance_update_ok _ _ _ _ _ _ Hu) in Hr. discriminate Hr.
  - split.
    + destruct e; simpl in H; inversion H; subst; discriminate.
    + intro Hr. unfold _instance_update in Hb. unfold bind at 1 2, ask in Hb.
      rewrite Hr in Hb. inversion Hb; subst. simpl in H.
      inversion H; subst. split; reflexivity.
Qed.

Lemma _set_instance_error_state_tolerates_deletion_witness :
  _set_instance_error_state env_record_gone "inst-1" world0
  = (Ok tt,
     record (Ev (conductor_instance_update "inst-1" [kw_vm_state vm_states.ERROR])
                (Some InstanceNotFound)) world0).
Proof.
  destruct (_set_instance_error_state_tolerates_deletion env_record_gone
              "inst-1" world0
              (fst (_set_instance_error_state env_record_gone "inst-1" world0))
              (snd (_set_instance_error_state env_record_gone "inst-1" world0))
              eq_refl) as [_ Hgone].
  destruct (Hgone eq_refl) as [Hr Hw].
  reflexivity.
Defined.



(** ** Checks before a build *)

(** [_check_image_size]: an instance without an image reference is not
    checked, and the image service is not asked. With the image metadata
    at hand, the build is refused with ImageTooLarge exactly when the
    metadata has a size, [root_gb] is not 0, and the size exceeds
    [root_gb] GiB; otherwise the metadata is returned. *)
Theorem _check_image_size_bound env i w :
  (truthy_str (image_ref i) = false ->
   _check_image_size env i w = (Ok None, w)) /\
  (forall ref,
     image_ref i = Some ref -> ref <> "" ->
     raises env (image_service_show ref) (log w) = None ->
     let image_meta := image_show env ref (log w) in
     let too_large := exists size, im_size image_meta = Some size /\
                                   root_gb i <> 0 /\
                                   root_gb i * 1073741824 < size in
     (too_large ->
      _check_image_size env i w
      = (Raise ImageTooLarge, after_call (image_service_show ref) w)) /\
     (~ too_large ->
      _check_image_size env i w
      = (Ok (Some image_meta), after_call (image_service_show ref) w))).
Proof.
  split.
  - unfold _check_image_size, truthy_str.
    destruct (image_ref i) as [ref|]; [|reflexivity].
    intro H. rewrite H. reflexivity.
  - intros ref Href Hne Hshow image_meta too_large.
    assert (Hrun : _check_image_size env i w
                   = match im_size image_meta with
                     | None => (Ok (Some image_meta),
                                after_call (image_service_show ref) w)
                     | Some size =>
                         if Z.eqb (root_gb i) 0
                         then (Ok (Some image_meta),
                               after_call (image_service_show ref) w)
                         else if Z.ltb (root_gb i * 1024 * 1024 * 1024) size
                              then (Raise ImageTooLarge,
                                    after_call (image_service_show ref) w)
                              else (Ok (Some image_meta),
                                    after_call (image_service_show ref) w)
                     end).
    { unfold _check_image_size. rewrite Href.
      apply String.eqb_neq in Hne. rewrite Hne. cbv beta iota delta [negb].
      unfold bind at 1, ask. rewrite Hshow. fold image_meta.
      destruct (im_size image_meta) as [size|]; [|reflexivity].
      destruct (Z.eqb (root_gb i) 0); [reflexivity|].
      destruct (Z.ltb (root_gb i * 1024 * 1024 * 1024) size); reflexivity. }
    rewrite Hrun. unfold too_large. split.
    + intros (size & Hs & Hg & Hlt). rewrite Hs.
      apply Z.eqb_neq in Hg. rewrite Hg.
      replace (Z.ltb (root_gb i * 1024 * 1024 * 1024) size) with true
        by (symmetry; apply Z.ltb_lt; lia).
      reflexivity.
    + intro Hnot. destruct (im_size image_meta) as [size|]; [|reflexivity].
      destruct (Z.eqb (root_gb i) 0) eqn:Hg; [reflexivity|].
      destruct (Z.ltb (root_gb i * 1024 * 1024 * 1024) size) eqn:Hlt;
        [|reflexivity].
      exfalso. apply Hnot. exists size. apply Z.eqb_neq in Hg.
      apply Z.ltb_lt in Hlt.
      split; [reflexivity | split; [assumption | lia]].
Qed.

Lemma _check_image_size_bound_witness :
  _check_image_size env_big_image sample_instance world0
  = (Raise ImageTooLarge, after_call (image_service_show "img-1") world0).
Proof.
  destruct (_check_image_size_bound env_big_image sample_instance world0)
    as [_ H].
  destruct (H "img-1" eq_refl) as [Hlarge _].
  - discriminate.
  - reflexivity.
  - apply Hlarge. exists (11 * 1073741824).
    split; [reflexivity | split; [discriminate | reflexivity]].
Defined.

(** ** Access ips *)

Lemma access_ips_of_no_label network_name nw acc :
  has_label network_name nw = false ->
  fold_left
    (fun acc v =>
       if String.eqb (vif_label v) network_name then
         fold_left
           (fun acc' ip =>
              let acc4 := if Z.eqb (fst ip) 4 then (Some (snd ip), snd acc')
                          else acc' in
              if Z.eqb (fst ip) 6 then (fst acc4, Some (snd ip)) else acc4)
           (vif_fixed_ips v) acc
       else acc)
    nw acc = acc.
Proof.
  revert acc. induction nw as [|v nw IH]; intros acc H; [reflexivity|].
  simpl in H. apply orb_false_iff in H as [Hv Hnw].
  simpl. rewrite Hv. apply IH. exact Hnw.
Qed.

(** [_update_access_ip]: without a configured network name, or when no
    vif is on the network of that name, the instance comes back as it is
    and the record store is not called. Whatever it does, the only record
    update it may issue is one of this instance that writes access ips
    alone. *)
Theorem _update_access_ip_scope env i nw w :
  ((default_access_ip_network_name env = None \/
    default_access_ip_network_name env = Some "" \/
    (exists network_name, default_access_ip_network_name env = Some network_name /\
                          has_label network_name nw = false)) ->
   _update_access_ip env i nw w = (Ok i, w)) /\
  (forall r w' u kwargs o,
     _update_access_ip env i nw w = (r, w') ->
     In (Ev (conductor_instance_update u kwargs) o) (new_events w w') ->
     u = uuid i /\ kwargs <> [] /\ forallb is_access_ip_kw kwargs = true).
Proof.
  split.
  - intros [H | [H | (network_name & H & Hl)]]; unfold _update_access_ip;
      rewrite H; try reflexivity.
    destruct (String.eqb network_name ""); [reflexivity|].
    unfold access_ips_of. rewrite access_ips_of_no_label by exact Hl.
    reflexivity.
  - intros r w' u kwargs o Hrun Hin. unfold _update_access_ip in Hrun.
    assert (Hnone : (r, w') = (Ok i, w) -> False).
    { intro Heq. inversion Heq; subst. rewrite new_events_refl in Hin.
      destruct Hin. }
    assert (Hupd : forall k, _instance_update env (uuid i) k w = (r, w') ->
                             k <> [] -> forallb is_access_ip_kw k = true ->
                             u = uuid i /\ kwargs <> [] /\
                             forallb is_access_ip_kw kwargs = true).
    { intros k Hu Hk Hf.
      destruct (_instance_update_log _ _ _ _ _ _ Hu) as (evs & Hl & Hfa).
      rewrite (new_events_app w w' (evs ++ [Ev (conductor_instance_update (uuid i) k)
                 (raises env (conductor_instance_update (uuid i) k) (log w))]))
        in Hin by (rewrite Hl, <- app_assoc; reflexivity).
      apply in_app_or in Hin as [Hin|[Hin|[]]].
      - rewrite Forall_forall in Hfa. apply Hfa in Hin. discriminate Hin.
      - inversion Hin; subst. auto. }
    destruct (default_access_ip_network_name env) as [network_name|];
      [|exfalso; apply Hnone; symmetry; exact Hrun].
    destruct (String.eqb network_name "");
      [exfalso; apply Hnone; symmetry; exact Hrun|].
    destruct (access_ips_of network_name nw) as [[a4|] [a6|]].
    + eapply Hupd; [exact Hrun | discriminate | reflexivity].
    + eapply Hupd; [exact Hrun | discriminate | reflexivity].
    + eapply Hupd; [exact Hrun | discriminate | reflexivity].
    + exfalso; apply Hnone; symmetry; exact Hrun.
Qed.

Lemma _update_access_ip_scope_witness :
  _update_access_ip env_big_image sample_instance [private_vif] world0
  = (Ok sample_instance, world0).
Proof.
  destruct (_update_access_ip_scope env_big_image sample_instance
              [private_vif] world0) as [Hnoop _].
  apply Hnoop. right. right. exists "public". split; reflexivity.
Defined.


(** ** Spawning *)

Lemma in_avoiding p c o evs :
  Forall (avoiding p) evs -> In (Ev c o) evs -> p c = true -> False.
Proof.
  intros Hf Hin Hp. rewrite Forall_forall in Hf. apply Hf in Hin.
  unfold avoiding in Hin. simpl in Hin. congruence.
Qed.

(** [_spawn] writes vm_state ACTIVE only after the driver's spawn has
    returned, and returns only then: a failed spawn leaves no ACTIVE
    update behind. *)
Theorem _spawn_active_after_driver env i network_info w r w' :
  _spawn env i network_info w = (r, w') ->
  ((exists a, r = Ok a) \/
   (exists u kwargs o, marks_active (conductor_instance_update u kwargs) = true /\
                       In (Ev (conductor_instance_update u kwargs) o)
                          (new_events w w'))) ->
  exists u, In (Ev (driver_spawn u) None) (new_events w w').
Proof.
  intros Hrun Hcase. unfold _spawn in Hrun.
  assert (Hquiet : forall evs, log w' = evs ++ log w ->
                               Forall (avoiding marks_active) evs ->
                               (forall a, r <> Ok a) ->
                               exists u, In (Ev (driver_spawn u) None)
                                            (new_events w w')).
  { intros evs Hl Hf Hr. exfalso.
    destruct Hcase as [(a & Ha) | (u & k & o & Hm & Hin)].
    - eapply Hr; eauto.
    - rewrite (new_events_app _ _ _ Hl) in Hin. eapply in_avoiding; eauto. }
  apply bind_inv in Hrun as [(i1 & w1 & H1 & Hrun) | (e & H1 & ->)].
  2:{ assert (Hem : emits (avoiding marks_active)
                      (_instance_update env (uuid i)
                         [kw_vm_state vm_states.BUILDING;
                          kw_task_state (Some task_states.SPAWNING);
                          kw_expected_task_state
                            [Some task_states.BLOCK_DEVICE_MAPPING]]))
        by emits_auto.
      destruct (Hem _ _ _ H1) as (evs & Hl & Hf).
      apply (Hquiet evs Hl Hf). discriminate. }
  assert (Hem1 : emits (avoiding marks_active)
                   (_instance_update env (uuid i)
                      [kw_vm_state vm_states.BUILDING;
                       kw_task_state (Some task_states.SPAWNING);
                       kw_expected_task_state
                         [Some task_states.BLOCK_DEVICE_MAPPING]]))
    by emits_auto.
  destruct (Hem1 _ _ _ H1) as (evs1 & Hl1 & Hf1).
  apply bind_inv in Hrun as [([] & w2 & H2 & Hrun) | (e & H2 & ->)].
  2:{ assert (Hem : emits (avoiding marks_active)
                      (try_except
                         (_legacy_nw_info env network_info ;;;
                          ext env (driver_spawn (uuid i1)))
                         (fun e => note (LOG_exception "Instance failed to spawn" e) ;;;
                                   raise e)))
        by emits_auto.
      destruct (Hem _ _ _ H2) as (evs & Hl & Hf).
      apply (Hquiet (evs ++ evs1)).
      - rewrite Hl, Hl1. apply app_assoc.
      - apply Forall_app. split; assumption.
      - discriminate. }
  (* the driver's spawn returned *)
  unfold try_except in H2.
  destruct ((_legacy_nw_info env network_info ;;;
             ext env (driver_spawn (uuid i1))) w1) as [[[]|e] w2'] eqn:Hs.
  2:{ unfold bind, note, raise in H2. discriminate H2. }
  inversion H2; subst w2'. clear H2.
  apply bind_inv in Hs as [(nwl & w1' & Hleg & Hsp) | (e & _ & Habs)];
    [|discriminate Habs].
  unfold ext in Hsp.
  destruct (raises env (driver_spawn (uuid i1)) (log w1')) eqn:Esp;
    inversion Hsp; subst; clear Hsp.
  assert (Hleg' : emits any_event (_legacy_nw_info env network_info))
    by emits_auto.
  destruct (Hleg' _ _ _ Hleg) as (evl & Hll & _).
  assert (Hrest : emits any_event
            (current_power_state <- _get_power_state env i1 ;;
             w <- get_world ;;
             _instance_update env (uuid i1)
               [kw_power_state current_power_state;
                kw_vm_state vm_states.ACTIVE; kw_task_state None;
                kw_expected_task_state [Some task_states.SPAWNING];
                kw_launched_at (utcnow env (log w))]))
    by emits_auto.
  destruct (Hrest _ _ _ Hrun) as (evr & Hlr & _).
  exists (uuid i1).
  eapply (in_new_events w w' evr _ (evl ++ evs1)).
  rewrite Hlr. simpl. rewrite Hll, Hl1, <- app_assoc. reflexivity.
Qed.

Lemma _spawn_active_after_driver_witness :
  let r := _spawn (env_of sample_instance quiet) sample_instance [] world0 in
  (exists a, fst r = Ok a) /\
  In (Ev (driver_spawn "inst-1") None) (new_events world0 (snd r)).
Proof.
  intro r.
  assert (Hok : exists a, fst r = Ok a) by (eexists; reflexivity).
  split; [exact Hok|].
  destruct (_spawn_active_after_driver (env_of sample_instance quiet)
              sample_instance [] world0 (fst r) (snd r) eq_refl (or_introl Hok))
    as (u & Hin).
  vm_compute. auto 20.
Defined.

(** ** Failing builds *)

(** Whatever exception leaves [_run_instance], the last thing the build
    did was to issue the ERROR update of the instance (followed only by the
    resource tracker's bookkeeping). *)
Theorem _run_instance_raises_after_error_update env is_first_time node i w e w' :
  _run_instance env is_first_time node i w = (Raise e, w') ->
  exists evs o rest,
    new_events w w'
    = evs ++ Ev (conductor_instance_update (uuid i) [kw_vm_state vm_states.ERROR]) o
          :: rest /\
    Forall tracker_event evs.
Proof.
  unfold _run_instance. unfold try_except at 1. intro Hrun.
  match type of Hrun with
  | context [match ?body w with _ => _ end] =>
      assert (Hem : emits any_event body) by emits_auto;
      destruct (body w) as [[[]|eb] wb] eqn:Hb
  end; [discriminate Hrun|].
  destruct (Hem _ _ _ Hb) as (evb & Hlb & _).
  destruct (error_out_and_reraise env (uuid i) eb wb)
    as (r & w2 & evs & o & Hh & Hl & Hf & _).
  rewrite Hh in Hrun. inversion Hrun; subst.
  exists evs, o, evb. split; [|exact Hf].
  apply new_events_app. rewrite Hl, Hlb.
  rewrite <- app_assoc. reflexivity.
Qed.

Lemma _run_instance_raises_after_error_update_witness :
  exists evs o rest,
    new_events world0
      (snd (_run_instance env_claim_fails true None sample_instance world0))
    = evs ++ Ev (conductor_instance_update "inst-1" [kw_vm_state vm_states.ERROR]) o
          :: rest /\
    Forall tracker_event evs.
Proof.
  apply (_run_instance_raises_after_error_update env_claim_fails true None
           sample_instance world0 ComputeResourcesUnavailable).
  reflexivity.
Defined.

(** ** Edge cases of rescheduling *)

(** A retry dict without 'num_attempts': [_reschedule] raises KeyError
    before it calls anyone, the request spec already carrying the
    instance's uuid; [_reschedule_or_reraise] swallows that KeyError, logs
    it, and re-raises the original build error. *)
Theorem _reschedule_without_attempt_count env i e w retry rs0 :
  fp_retry (filter_properties_obj w) = Some retry ->
  retry_truthy retry = true ->
  num_attempts retry = None ->
  request_spec_obj w = Some rs0 ->
  request_spec_truthy (Some rs0) = true ->
  let rs' := Some {| rs_instance_uuids := Some [uuid i];
                      rs_security_group := rs_security_group rs0;
                      rs_other_keys := rs_other_keys rs0 |} in
  _reschedule env (uuid i) (scheduler_rpcapi_run_instance env)
              task_states.SCHEDULING (Some e) w
  = (Raise KeyError, set_request_spec_obj rs' w) /\
  (raises env (add_instance_fault_from_exc (uuid i) e) (log w) = None ->
   raises env (network_deallocate_for_instance (uuid i))
          (log (after_call (add_instance_fault_from_exc (uuid i) e) w)) = None ->
   _reschedule_or_reraise env i e w
   = (Raise e,
      record (Ev (LOG_exception "Error trying to reschedule" KeyError) None)
        (set_request_spec_obj rs'
           (after_call (network_deallocate_for_instance (uuid i))
              (after_call (add_instance_fault_from_exc (uuid i) e) w))))).
Proof.
  intros Hretry Htruthy Hn Hrs Hrst rs'.
  assert (Hkey : forall w0,
             fp_retry (filter_properties_obj w0) = Some retry ->
             request_spec_obj w0 = Some rs0 ->
             _reschedule env (uuid i) (scheduler_rpcapi_run_instance env)
                         task_states.SCHEDULING (Some e) w0
             = (Raise KeyError, set_request_spec_obj rs' w0)).
  { intros w0 H1 H2. unfold _reschedule. unfold bind at 1, get_world.
    rewrite H1, Htruthy, H2, Hrst. cbv beta iota delta [negb].
    unfold bind at 1, modify. rewrite Hn.
    unfold bind at 1, raise. reflexivity. }
  split; [apply Hkey; assumption|].
  intros Hf Hd.
  rewrite (_reschedule_or_reraise_outcome env i e w (Raise KeyError)
             (set_request_spec_obj rs'
                (after_call (network_deallocate_for_instance (uuid i))
                   (after_call (add_instance_fault_from_exc (uuid i) e) w)))
             Hf Hd).
  - reflexivity.
  - apply Hkey; assumption.
Qed.

Lemma _reschedule_without_attempt_count_witness :
  fst (_run_instance env_spawn_fails true None sample_instance
         world_retry_without_count) = Raise (OtherError 4) /\
  fst (_reschedule env_spawn_fails (uuid sample_instance)
         (scheduler_rpcapi_run_instance env_spawn_fails)
         task_states.SCHEDULING (Some (OtherError 4)) world_retry_without_count)
  = Raise KeyError.
Proof.
  split; [reflexivity|].
  rewrite (proj1 (_reschedule_without_attempt_count env_spawn_fails
                    sample_instance (OtherError 4) world_retry_without_count
                    _ _ eq_refl eq_refl eq_refl eq_refl eq_refl)).
  reflexivity.
Defined.

(** A network deallocation that fails ends [_reschedule_or_reraise] before
    any reschedule: the original build error is logged, and what is raised
    is the deallocation's exception. *)
Theorem _reschedule_or_reraise_deallocation_failed env i e w d :
  raises env (add_instance_fault_from_exc (uuid i) e) (log w) = None ->
  raises env (network_deallocate_for_instance (uuid i))
         (log (after_call (add_instance_fault_from_exc (uuid i) e) w)) = Some d ->
  exists w',
    _reschedule_or_reraise env i e w = (Raise d, w') /\
    log w' = [ Ev (log_original_error e (uuid i)) None;
               Ev (network_deallocate_for_instance (uuid i)) (Some d);
               Ev (add_instance_fault_from_exc (uuid i) e) None ] ++ log w.
Proof.
  intros Hf Hd. unfold _reschedule_or_reraise.
  unfold bind at 1, ext at 1. rewrite Hf.
  unfold bind at 1, try_except at 1, _deallocate_network, ext at 1.
  unfold after_call in Hd. rewrite Hd.
  eexists. split; reflexivity.
Qed.

Lemma _reschedule_or_reraise_deallocation_failed_witness :
  fst (_reschedule_or_reraise env_deallocate_fails sample_instance
         (OtherError 4) world_retry) = Raise (OtherError 6).
Proof.
  destruct (_reschedule_or_reraise_deallocation_failed env_deallocate_fails
              sample_instance (OtherError 4) world_retry (OtherError 6)
              eq_refl eq_refl) as (w' & Hrun & _).
  rewrite Hrun. reflexivity.
Defined.

(** ** Loops *)

(** A loop that runs to its end ran its body on every element, and the
    log of each of those runs is kept. *)
Lemma for_each_ok A (xs : list A) (f : A -> M unit) w w' :
  (forall x, emits any_event (f x)) ->
  for_each xs f w = (Ok tt, w') ->
  forall x, In x xs ->
    exists w1 w2 pre post,
      f x w1 = (Ok tt, w2) /\
      log w1 = pre ++ log w /\ log w' = post ++ log w2.
Proof.
  intros Hf. revert w. induction xs as [|y xs IH]; intros w Hrun x Hin;
    [destruct Hin|].
  simpl in Hrun.
  apply bind_inv in Hrun as [([] & wy & Hy & Hrest) | (e & _ & Habs)];
    [|discriminate Habs].
  destruct Hin as [<- | Hin].
  - assert (Hem : emits any_event (for_each xs f))
      by (apply emits_for_each; exact Hf).
    destruct (Hem _ _ _ Hrest) as (post & Hl & _).
    exists w, wy, [], post. auto.
  - destruct (IH _ Hrest x Hin) as (w1 & w2 & pre & post & Hx & Hl1 & Hl2).
    destruct (Hf y _ _ _ Hy) as (evy & Hly & _).
    exists w1, w2, (pre ++ evy), post. repeat split; auto.
    rewrite Hl1, Hly. apply app_assoc.
Qed.

(** Every event of a loop is an event of the body on some element. *)
Lemma for_each_events A (Q : A -> event -> Prop) (xs : list A)
      (f : A -> M unit) w r w' :
  (forall x, In x xs -> emits (Q x) (f x)) ->
  for_each xs f w = (r, w') ->
  exists evs, log w' = evs ++ log w /\
              Forall (fun ev => exists x, In x xs /\ Q x ev) evs.
Proof.
  revert w. induction xs as [|y xs IH]; intros w Hf Hrun.
  - inversion Hrun; subst. exists []. split; [reflexivity | constructor].
  - simpl in Hrun.
    assert (Hy : emits (Q y) (f y)) by (apply Hf; left; reflexivity).
    apply bind_inv in Hrun as [([] & wy & Hfy & Hrest) | (e & Hfy & ->)].
    + destruct (Hy _ _ _ Hfy) as (evy & Hly & Hqy).
      destruct (IH wy) as (evs & Hl & Hq); [|exact Hrest|].
      { intros x Hx. apply Hf. right. exact Hx. }
      exists (evs ++ evy). split; [rewrite Hl, Hly; apply app_assoc|].
      apply Forall_app. split.
      * eapply Forall_impl; [|exact Hq]. intros ev (x & Hx & Hqx).
        exists x. split; [right; exact Hx | exact Hqx].
      * eapply Forall_impl; [|exact Hqy]. intros ev Hqe.
        exists y. split; [left; reflexivity | exact Hqe].
    + destruct (Hy _ _ _ Hfy) as (evy & Hly & Hqy).
      exists evy. split; [exact Hly|].
      eapply Forall_impl; [|exact Hqy]. intros ev Hqe.
      exists y. split; [left; reflexivity | exact Hqe].
Qed.

(** ** Cleaning up volumes *)

Lemma flagged_volume b :
  flagged_for_deletion b = true ->
  volume_id b = Some (volume_of b) /\ delete_on_termination b = true.
Proof.
  unfold flagged_for_deletion, volume_of, truthy_str.
  destruct (volume_id b) as [v|]; simpl; intro H;
    [|discriminate H].
  apply andb_true_iff in H as [_ H]. auto.
Qed.

(** [_cleanup_volumes] deletes no volume but those of block device rows
    that have a volume and are flagged delete_on_termination; when it
    returns, it has deleted every one of them. *)
Theorem _cleanup_volumes_flagged_only env instance_uuid bdms w r w' :
  _cleanup_volumes env instance_uuid bdms w = (r, w') ->
  (forall v o,
     In (Ev (volume_delete v) o) (new_events w w') ->
     exists b, In b bdms /\ volume_id b = Some v /\
               delete_on_termination b = true) /\
  (r = Ok tt ->
   forall b, In b bdms -> flagged_for_deletion b = true ->
             In (Ev (volume_delete (volume_of b)) None) (new_events w w')).
Proof.
  intro Hrun. unfold _cleanup_volumes in Hrun. split.
  - intros v o Hin.
    apply (for_each_events bdm
             (fun b ev => is_volume_delete (ev_call ev) = true ->
                          flagged_for_deletion b = true /\
                          ev_call ev = volume_delete (volume_of b)))
      in Hrun as (evs & Hl & Hq).
    2:{ intros b _. fold (flagged_for_deletion b).
        destruct (flagged_for_deletion b) eqn:Hfl.
        - apply emits_bind; [|intros _]; apply emits_ext; intro o';
            simpl; intro H; try discriminate H. auto.
        - apply emits_ret. }
    rewrite (new_events_app _ _ _ Hl) in Hin.
    rewrite Forall_forall in Hq. destruct (Hq _ Hin) as (b & Hb & Hqb).
    destruct (Hqb eq_refl) as (Hfl & Hc). simpl in Hc. inversion Hc; subst.
    destruct (flagged_volume b Hfl) as (Hv & Hd).
    exists b. auto.
  - intros -> b Hb Hfl.
    eapply for_each_ok in Hrun as (w1 & w2 & pre & post & Hx & Hl1 & Hl2);
      [|intro x; emits_auto|exact Hb].
    cbv beta in Hx.
    fold (flagged_for_deletion b) in Hx. rewrite Hfl in Hx.
    apply bind_inv in Hx as [([] & wg & Hg & Hd) | (e & _ & Habs)];
      [|discriminate Habs].
    unfold ext in Hg, Hd.
    destruct (raises env (volume_get (volume_of b)) (log w1));
      inversion Hg; subst; clear Hg.
    destruct (raises env (volume_delete (volume_of b)) _);
      inversion Hd; subst; clear Hd.
    eapply (in_new_events w w' post _ (_ :: pre)).
    rewrite Hl2. simpl. rewrite Hl1. reflexivity.
Qed.

Lemma _cleanup_volumes_flagged_only_witness :
  let r := _cleanup_volumes (env_of sample_instance quiet) "inst-1"
             sample_bdms world0 in
  fst r = Ok tt /\
  filter (fun ev => is_volume_delete (ev_call ev)) (log (snd r))
  = [Ev (volume_delete "vol-1") None].
Proof.
  intro r. split; [reflexivity|].
  destruct (_cleanup_volumes_flagged_only (env_of sample_instance quiet)
              "inst-1" sample_bdms world0 (fst r) (snd r) eq_refl)
    as [_ Hall].
  pose proof (Hall eq_refl _ (or_introl eq_refl) eq_refl) as Hin.
  reflexivity.
Defined.

(** ** Shutting an instance down *)

(** Equations between logs: the same events, differently bracketed. *)
Ltac log_eq :=
  repeat match goal with
         | x := _ : World |- _ => subst x
         end;
  repeat (rewrite <- ?app_assoc; simpl);
  reflexivity.

Lemma tracker_event_avoids ev p :
  (forall c, is_tracker_call c = true -> p c = false) ->
  tracker_event ev -> avoiding p ev.
Proof. intros Hp Ht. apply Hp. exact Ht. Qed.

(** When the network deallocation of [_shutdown_instance] fails, the
    ERROR update is issued, the shutdown raises, and the driver is never
    asked to destroy the guest. *)
Theorem _shutdown_instance_deallocation_failed env i bdms w r w' d :
  _shutdown_instance env i bdms w = (r, w') ->
  In (Ev (network_deallocate_for_instance (uuid i)) (Some d)) (new_events w w') ->
  (exists e, r = Raise e) /\
  Forall (avoiding is_driver_destroy) (new_events w w') /\
  exists o,
    In (Ev (conductor_instance_update (uuid i) [kw_vm_state vm_states.ERROR]) o)
       (new_events w w').
Proof.
  intros Hrun Hin. unfold _shutdown_instance in Hrun.
  apply bind_inv in Hrun as [([] & w1 & H1 & Hrun) | (e & H1 & ->)];
    unfold _notify_about_instance_usage, ext in H1;
    destruct (raises env (notify_about_instance_usage (uuid i) "shutdown.start")
                     (log w)) eqn:E1; inversion H1; subst; clear H1.
  2:{ rewrite (new_events_app w _ [_]) in Hin by reflexivity.
      destruct Hin as [Hin|[]]. discriminate Hin. }
  set (w1 := record (Ev (notify_about_instance_usage (uuid i) "shutdown.start")
                        None) w) in *.
  assert (Hem2 : emits (avoiding (fun c => is_network_deallocate c
                                           || is_driver_destroy c))
                   (try_except (_get_instance_nw_info env i)
                      (fun e => match e with
                                | NetworkNotFound => ret []
                                | _ => raise e
                                end))) by emits_auto.
  apply bind_inv in Hrun as [(nwi & w2 & H2 & Hrun) | (e & H2 & ->)];
    destruct (Hem2 _ _ _ H2) as (ev2 & Hl2 & Hf2).
  2:{ exfalso.
      rewrite (new_events_app w _ (ev2 ++ [Ev (notify_about_instance_usage
                                                 (uuid i) "shutdown.start") None]))
        in Hin by (rewrite Hl2; log_eq).
      apply in_app_or in Hin as [Hin|[Hin|[]]]; [|discriminate Hin].
      eapply in_avoiding; [exact Hf2 | exact Hin | reflexivity]. }
  apply bind_inv in Hrun as [([] & w3 & H3 & Hrun) | (e & H3 & ->)];
    unfold try_except, _deallocate_network, ext in H3;
    destruct (raises env (network_deallocate_for_instance (uuid i)) (log w2))
      as [d'|] eqn:E3.
  - destruct (error_out_and_reraise env (uuid i) d'
                (record (Ev (network_deallocate_for_instance (uuid i)) (Some d'))
                        w2)) as (r0 & w4 & evs & o & Hh & _).
    rewrite Hh in H3. discriminate H3.
  - inversion H3; subst w3. clear H3. exfalso.
    match type of Hrun with
    | ?rest _ = _ =>
        assert (Hem : emits (avoiding is_network_deallocate) rest)
          by emits_auto
    end.
    destruct (Hem _ _ _ Hrun) as (evr & Hlr & Hfr).
    rewrite (new_events_app w _
               (evr ++ Ev (network_deallocate_for_instance (uuid i)) None
                    :: ev2 ++ [Ev (notify_about_instance_usage
                                     (uuid i) "shutdown.start") None]))
      in Hin
      by (rewrite Hlr; simpl; rewrite Hl2; log_eq).
    apply in_app_or in Hin as [Hin|[Hin|Hin]].
    + eapply in_avoiding; [exact Hfr | exact Hin | reflexivity].
    + discriminate Hin.
    + apply in_app_or in Hin as [Hin|[Hin|[]]]; [|discriminate Hin].
      eapply in_avoiding; [exact Hf2 | exact Hin | reflexivity].
  - destruct (error_out_and_reraise env (uuid i) d'
                (record (Ev (network_deallocate_for_instance (uuid i)) (Some d'))
                        w2)) as (r0 & w4 & evs & o & Hh & Hl & Hf & _).
    rewrite Hh in H3. inversion H3; subst. clear H3.
    assert (Hnew : new_events w w'
                   = evs ++ Ev (conductor_instance_update (uuid i)
                                  [kw_vm_state vm_states.ERROR]) o
                         :: Ev (network_deallocate_for_instance (uuid i)) (Some d')
                         :: ev2 ++ [Ev (notify_about_instance_usage
                                          (uuid i) "shutdown.start") None]).
    { apply new_events_app. rewrite Hl. simpl. rewrite Hl2. log_eq. }
    rewrite Hnew. split; [eexists; reflexivity|]. split.
    + apply Forall_app. split.
      * eapply Forall_impl; [|exact Hf]. intros ev Ht.
        apply tracker_event_avoids; [|exact Ht].
        intros c Hc. destruct c; try discriminate Hc; reflexivity.
      * constructor; [reflexivity|]. constructor; [reflexivity|].
        apply Forall_app. split; [|repeat constructor].
        eapply Forall_impl; [|exact Hf2]. intros [c o'] Hc.
        unfold avoiding in *. simpl in *.
        apply orb_false_iff in Hc as [_ Hc]. exact Hc.
    + exists o. apply in_or_app. right. left. reflexivity.
  - discriminate H3.
Qed.

Lemma _shutdown_instance_deallocation_failed_witness :
  let r := _shutdown_instance env_deallocate_fails sample_instance sample_bdms
             world0 in
  In (Ev (network_deallocate_for_instance "inst-1") (Some (OtherError 6)))
     (new_events world0 (snd r)) /\
  fst r = Raise (OtherError 6) /\
  Forall (avoiding is_driver_destroy) (new_events world0 (snd r)).
Proof.
  intro r.
  assert (Hin : In (Ev (network_deallocate_for_instance "inst-1")
                       (Some (OtherError 6))) (new_events world0 (snd r)))
    by (vm_compute; auto 10).
  split; [exact Hin|]. split; [reflexivity|].
  destruct (_shutdown_instance_deallocation_failed env_deallocate_fails
              sample_instance sample_bdms world0 (fst r) (snd r)
              (OtherError 6) eq_refl Hin) as (_ & Hno & _).
  exact Hno.
Defined.

Lemma only_gone_ext env c w :
  only_gone env -> is_volume_call c = false ->
  (forall u, c <> network_get_instance_nw_info u) ->
  ext env c w = (Ok tt, after_call c w).
Proof.
  intros Hg Hv Hn. unfold ext.
  destruct (raises env c (log w)) as [e|] eqn:E; [|reflexivity].
  exfalso. destruct (Hg _ _ _ E) as [[Hc _] | [[u Hc] _]].
  - congruence.
  - eapply Hn; eauto.
Qed.

Lemma for_each_all_ok A (xs : list A) (f : A -> M unit) :
  (forall x w, exists w' evs, f x w = (Ok tt, w') /\ log w' = evs ++ log w) ->
  forall w, exists w' evs,
      for_each xs f w = (Ok tt, w') /\ log w' = evs ++ log w.
Proof.
  intro Hf. induction xs as [|x xs IH]; intro w; simpl.
  - exists w, []. split; reflexivity.
  - destruct (Hf x w) as (w1 & ev1 & H1 & L1).
    destruct (IH w1) as (w2 & ev2 & H2 & L2).
    exists w2, (ev2 ++ ev1). split.
    + rewrite (bind_ok _ _ _ _ _ _ _ H1). exact H2.
    + rewrite L2, L1. apply app_assoc.
Qed.

(** Releasing one volume when volumes and disks may be gone: never an
    exception. *)
Lemma release_volume_tolerates_gone env i b w :
  only_gone env ->
  exists w' evs,
    try_except
      (ext env (volume_get (volume_of b)) ;;;
       ext env (driver_get_volume_connector (uuid i)) ;;;
       ext env (volume_terminate_connection (volume_of b)) ;;;
       ext env (volume_detach (volume_of b)))
      (fun e => match e with
                | DiskNotFound => ret tt
                | VolumeNotFound => ret tt
                | _ => raise e
                end) w = (Ok tt, w') /\
    log w' = evs ++ log w.
Proof.
  intro Hg. unfold try_except.
  assert (Hvol : forall c w0,
             is_volume_call c = true ->
             (ext env c w0 = (Ok tt, after_call c w0)) \/
             (exists e, ext env c w0 = (Raise e, record (Ev c (Some e)) w0) /\
                        (e = DiskNotFound \/ e = VolumeNotFound))).
  { intros c w0 Hc. unfold ext.
    destruct (raises env c (log w0)) as [e|] eqn:E; [right|left; reflexivity].
    exists e. split; [reflexivity|].
    destruct (Hg _ _ _ E) as [[_ He] | [[u Hu] _]]; [exact He|].
    subst c. discriminate Hc. }
  destruct (Hvol (volume_get (volume_of b)) w eq_refl)
    as [H1 | (e & H1 & He)].
  2:{ rewrite (bind_raise _ _ _ _ _ _ _ H1).
      eexists _, [_]. destruct He as [-> | ->]; split; reflexivity. }
  rewrite (bind_ok _ _ _ _ _ _ _ H1).
  rewrite (bind_ok _ _ _ _ _ _ _
             (only_gone_ext env (driver_get_volume_connector (uuid i)) _
                Hg eq_refl ltac:(discriminate))).
  match goal with
  | |- context [bind (ext env (volume_terminate_connection _)) _ ?W] =>
      destruct (Hvol (volume_terminate_connection (volume_of b)) W eq_refl)
        as [H3 | (e & H3 & He)]
  end.
  2:{ rewrite (bind_raise _ _ _ _ _ _ _ H3).
      eexists _, [_; _; _]. destruct He as [-> | ->]; split; reflexivity. }
  rewrite (bind_ok _ _ _ _ _ _ _ H3).
  match goal with
  | |- context [ext env (volume_detach _) ?W] =>
      destruct (Hvol (volume_detach (volume_of b)) W eq_refl)
        as [H4 | (e & H4 & He)]
  end.
  - rewrite H4. eexists _, [_; _; _; _]. split; reflexivity.
  - rewrite H4. eexists _, [_; _; _; _].
    destruct He as [-> | ->]; split; reflexivity.
Qed.

(** [_shutdown_instance] goes through, and has the driver destroy the
    guest, when nothing fails but network information, volumes and disks
    being already gone (NetworkNotFound, VolumeNotFound, DiskNotFound). *)
Theorem _shutdown_instance_tolerates_gone env i bdms w :
  only_gone env ->
  exists w',
    _shutdown_instance env i bdms w = (Ok tt, w') /\
    In (Ev (driver_destroy (uuid i)) None) (new_events w w').
Proof.
  intro Hg. unfold _shutdown_instance.
  assert (Hq : forall c w0,
             is_volume_call c = false ->
             (forall u, c <> network_get_instance_nw_info u) ->
             ext env c w0 = (Ok tt, after_call c w0))
    by (intros; apply only_gone_ext; assumption).
  unfold _notify_about_instance_usage, _deallocate_network, _legacy_nw_info,
    _get_instance_volume_block_device_info.
  rewrite (bind_ok _ _ _ _ _ _ _
             (Hq (notify_about_instance_usage (uuid i) "shutdown.start") w
                eq_refl ltac:(discriminate))).
  set (w1 := after_call (notify_about_instance_usage (uuid i) "shutdown.start") w).
  assert (H2 : exists nwi w2 o,
             try_except (_get_instance_nw_info env i)
               (fun e => match e with
                         | NetworkNotFound => ret []
                         | _ => raise e
                         end) w1 = (Ok nwi, w2) /\
             log w2 = Ev (network_get_instance_nw_info (uuid i)) o :: log w1).
  { unfold try_except, _get_instance_nw_info, ask.
    destruct (raises env (network_get_instance_nw_info (uuid i)) (log w1))
      as [e|] eqn:E.
    - destruct (Hg _ _ _ E) as [[Hc _] | [_ ->]]; [discriminate Hc|].
      do 3 eexists. split; reflexivity.
    - do 3 eexists. split; reflexivity. }
  destruct H2 as (nwi & w2 & o2 & H2 & L2).
  rewrite (bind_ok _ _ _ _ _ _ _ H2).
  set (w3 := after_call (network_deallocate_for_instance (uuid i)) w2).
  assert (H3 : try_except (ext env (network_deallocate_for_instance (uuid i)))
                 (fun e =>
                    save_and_reraise_exception e
                      (_set_instance_error_state env (uuid i))) w2
               = (Ok tt, w3)).
  { unfold try_except.
    rewrite (Hq (network_deallocate_for_instance (uuid i)) w2 eq_refl
               ltac:(discriminate)). reflexivity. }
  rewrite (bind_ok _ _ _ _ _ _ _ H3). cbv zeta.
  rewrite (bind_ok _ _ _ _ _ _ _ (eq_refl : ret tt w3 = (Ok tt, w3))).
  set (w4 := after_call driver_legacy_nwinfo w3).
  assert (H4 : (ext env driver_legacy_nwinfo ;;; ret nwi) w3 = (Ok nwi, w4)).
  { rewrite (bind_ok _ _ _ _ _ _ _
               (Hq driver_legacy_nwinfo w3 eq_refl ltac:(discriminate))).
    reflexivity. }
  rewrite (bind_ok _ _ _ _ _ _ _ H4).
  rewrite (bind_ok _ _ _ _ _ _ _
             (Hq (driver_destroy (uuid i)) w4 eq_refl ltac:(discriminate))).
  set (w5 := after_call (driver_destroy (uuid i)) w4).
  destruct (for_each_all_ok bdm (_get_volume_bdms bdms)
              (fun b =>
                 try_except
                   (ext env (volume_get (volume_of b)) ;;;
                    ext env (driver_get_volume_connector (uuid i)) ;;;
                    ext env (volume_terminate_connection (volume_of b)) ;;;
                    ext env (volume_detach (volume_of b)))
                   (fun e => match e with
                             | DiskNotFound => ret tt
                             | VolumeNotFound => ret tt
                             | _ => raise e
                             end))
              (fun b w0 => release_volume_tolerates_gone env i b w0 Hg) w5)
    as (w6 & ev6 & H6 & L6).
  rewrite (bind_ok _ _ _ _ _ _ _ H6).
  rewrite (Hq (notify_about_instance_usage (uuid i) "shutdown.end") w6
             eq_refl ltac:(discriminate)).
  eexists. split; [reflexivity|].
  eapply (in_new_events w _ (_ :: ev6) _ [_; _; _; _]).
  simpl. rewrite L6. simpl. rewrite L2. reflexivity.
Qed.


Lemma _shutdown_instance_tolerates_gone_witness :
  only_gone env_already_gone /\
  fst (_shutdown_instance env_already_gone sample_instance sample_bdms world0)
  = Ok tt.
Proof.
  assert (Hg : only_gone env_already_gone).
  { intros c l e H. destruct c; simpl in H; inversion H; subst.
    - right. split; [eexists; reflexivity | reflexivity].
    - left. split; [reflexivity | right; reflexivity]. }
  split; [exact Hg|].
  destruct (_shutdown_instance_tolerates_gone env_already_gone sample_instance
              sample_bdms world0 Hg) as (w' & Hrun & _).
  rewrite Hrun. reflexivity.
Defined.

(** ** Deleting an instance *)

Lemma bind_inv_emits A B P (m : M A) (k : A -> M B) w r w' :
  emits P m ->
  bind m k w = (r, w') ->
  (exists a w1 evs,
      m w = (Ok a, w1) /\ log w1 = evs ++ log w /\ Forall P evs /\
      k a w1 = (r, w')) \/
  (exists e evs, r = Raise e /\ log w' = evs ++ log w /\ Forall P evs).
Proof.
  intros Hm Hrun.
  apply bind_inv in Hrun as [(a & w1 & H1 & H2) | (e & H1 & ->)].
  - destruct (Hm _ _ _ H1) as (evs & L & F). left. eauto 8.
  - destruct (Hm _ _ _ H1) as (evs & L & F). right. eauto.
Qed.

Lemma not_in_avoiding p ev evs :
  Forall (avoiding p) evs -> p (ev_call ev) = true -> ~ In ev evs.
Proof.
  intros F Hp Hin. rewrite Forall_forall in F.
  specialize (F _ Hin). unfold avoiding in F. congruence.
Qed.

(** A failed deletion is the last thing [_cleanup_volumes] does. *)
Lemma _cleanup_volumes_stops_at_failure env u bdms w r w' :
  _cleanup_volumes env u bdms w = (r, w') ->
  exists evs,
    log w' = evs ++ log w /\
    forall v e, In (Ev (volume_delete v) (Some e)) evs ->
                exists rest, evs = Ev (volume_delete v) (Some e) :: rest.
Proof.
  unfold _cleanup_volumes. revert w.
  induction bdms as [|b bdms IH]; intros w Hrun; simpl in Hrun.
  - inversion Hrun; subst. exists []. split; [reflexivity|].
    intros v e [].
  - destruct (truthy_str (volume_id b) && delete_on_termination b).
    + unfold bind at 1 2 in Hrun. unfold ext at 1 in Hrun.
      destruct (raises env (volume_get (volume_of b)) (log w)) as [e1|].
      { inversion Hrun; subst. exists [Ev (volume_get (volume_of b)) (Some e1)].
        split; [reflexivity|].
        intros v e [H | []]. discriminate H. }
      unfold ext at 1 in Hrun.
      match type of Hrun with
      | context [raises env (volume_delete ?x) ?l] =>
          destruct (raises env (volume_delete x) l) as [e2|]
      end.
      { inversion Hrun; subst.
        exists [Ev (volume_delete (volume_of b)) (Some e2);
                Ev (volume_get (volume_of b)) None].
        split; [reflexivity|].
        intros v e [H | [H | []]]; [|discriminate H].
        inversion H; subst. eauto. }
      apply IH in Hrun as (evs & L & Hlast).
      exists (evs ++ [Ev (volume_delete (volume_of b)) None;
                      Ev (volume_get (volume_of b)) None]).
      split; [rewrite L; rewrite <- app_assoc; reflexivity|].
      intros v e Hin. apply in_app_or in Hin as [Hin | [H | [H | []]]];
        [|discriminate H|discriminate H].
      destruct (Hlast _ _ Hin) as (rest & ->). eexists. reflexivity.
    + unfold bind at 1 in Hrun. simpl in Hrun.
      apply IH in Hrun. exact Hrun.
Qed.

(** [_delete_instance] ignores a failed volume deletion: the call right
    after the failed [volume_delete] is the update of the record to DELETED
    with the task state cleared. *)
Theorem _delete_instance_ignores_cleanup_failure env i bdms w r w' v e :
  _delete_instance env i bdms w = (r, w') ->
  In (Ev (volume_delete v) (Some e)) (new_events w w') ->
  exists post pre t o,
    new_events w w' =
      post ++
      Ev (conductor_instance_update (uuid i)
            [kw_vm_state vm_states.DELETED; kw_task_state None;
             kw_terminated_at t]) o ::
      Ev (volume_delete v) (Some e) :: pre.
Proof.
  intros Hrun Hin. unfold _delete_instance in Hrun. cbv zeta in Hrun.
  assert (Hstop : forall evs,
             log w' = evs ++ log w ->
             Forall (avoiding is_volume_delete) evs -> False).
  { intros evs L F. rewrite (new_events_app _ _ _ L) in Hin.
    exact (not_in_avoiding is_volume_delete (Ev (volume_delete v) (Some e)) _ F
             eq_refl Hin). }
  eapply (bind_inv_emits _ _ (avoiding is_volume_delete)) in Hrun
    as [([] & w1 & ev1 & _ & L1 & F1 & Hrun) | (x & evs & _ & L & F)];
    [ | exfalso; eauto | emits_auto ].
  eapply (bind_inv_emits _ _ (avoiding is_volume_delete)) in Hrun
    as [([] & w2 & ev2 & _ & L2 & F2 & Hrun) | (x & evs & _ & L & F)];
    [ | exfalso; apply (Hstop (evs ++ ev1));
        [rewrite L, L1; apply app_assoc | apply Forall_app; auto]
      | emits_auto ].
  eapply (bind_inv_emits _ _ (avoiding is_volume_delete)) in Hrun
    as [([] & w3 & ev3 & _ & L3 & F3 & Hrun) | (x & evs & _ & L & F)];
    [ | exfalso; apply (Hstop (evs ++ ev2 ++ ev1));
        [rewrite L, L2, L1; rewrite <- !app_assoc; reflexivity
        | repeat (apply Forall_app; split); auto]
      | emits_auto ].
  apply bind_inv in Hrun as [([] & w4 & Hclean & Hrun) | (x & Hclean & _)].
  2:{ unfold try_except in Hclean.
      destruct (_cleanup_volumes env (uuid i) bdms w3) as [[[]|?] ?];
        discriminate Hclean. }
  assert (Hc : exists r4, _cleanup_volumes env (uuid i) bdms w3 = (r4, w4)).
  { unfold try_except in Hclean.
    destruct (_cleanup_volumes env (uuid i) bdms w3) as [[[]|?] ?];
      inversion Hclean; subst; eauto. }
  destruct Hc as (r4 & Hc).
  apply _cleanup_volumes_stops_at_failure in Hc as (ev4 & L4 & Hlast).
  unfold bind at 1, get_world at 1 in Hrun.
  set (update := conductor_instance_update (uuid i)
                   [kw_vm_state vm_states.DELETED; kw_task_state None;
                    kw_terminated_at (utcnow env (log w4))]) in *.
  assert (Hfin : forall ev6 ev5,
             Forall (avoiding is_volume_delete) ev6 ->
             Forall tracker_event ev5 ->
             log w' = ev6 ++ ev5 ++
                      Ev update (raises env update (log w4)) :: log w4 ->
             exists post pre t o,
               new_events w w' =
                 post ++
                 Ev (conductor_instance_update (uuid i)
                       [kw_vm_state vm_states.DELETED; kw_task_state None;
                        kw_terminated_at t]) o ::
                 Ev (volume_delete v) (Some e) :: pre).
  { intros ev6 ev5 F6 F5 L.
    assert (F5' : Forall (avoiding is_volume_delete) ev5).
    { eapply Forall_impl; [|exact F5]. intro ev.
      apply tracker_event_avoids. intros c Hc. destruct c; try discriminate Hc;
        reflexivity. }
    assert (L' : log w' =
                 (ev6 ++ ev5 ++ Ev update (raises env update (log w4)) ::
                  ev4 ++ ev3 ++ ev2 ++ ev1) ++ log w).
    { rewrite L, L4, L3, L2, L1.
      repeat (rewrite <- ?app_assoc; simpl). reflexivity. }
    rewrite (new_events_app _ _ _ L') in Hin |- *.
    assert (Hno : forall evs, Forall (avoiding is_volume_delete) evs ->
                              ~ In (Ev (volume_delete v) (Some e)) evs).
    { intros evs F. apply (not_in_avoiding is_volume_delete); auto. }
    assert (Hex : forall evs, In (Ev (volume_delete v) (Some e)) evs ->
                              Forall (avoiding is_volume_delete) evs -> False).
    { intros evs Hi F. exact (Hno evs F Hi). }
    apply in_app_or in Hin as [Hin | Hin];
      [exfalso; exact (Hex _ Hin F6)|].
    apply in_app_or in Hin as [Hin | Hin];
      [exfalso; exact (Hex _ Hin F5')|].
    destruct Hin as [Hin | Hin]; [discriminate Hin|].
    apply in_app_or in Hin as [Hin | Hin].
    - destruct (Hlast _ _ Hin) as (rest & ->).
      exists (ev6 ++ ev5), (rest ++ ev3 ++ ev2 ++ ev1),
        (utcnow env (log w4)), (raises env update (log w4)).
      rewrite <- app_assoc. reflexivity.
    - exfalso.
      apply in_app_or in Hin as [Hin | Hin]; [exact (Hex _ Hin F3)|].
      apply in_app_or in Hin as [Hin | Hin];
        [exact (Hex _ Hin F2) | exact (Hex _ Hin F1)]. }
  apply bind_inv in Hrun as [(i' & w5 & Hupd & Hrun) | (x & Hupd & _)].
  - apply _instance_update_log in Hupd as (ev5 & L5 & F5).
    assert (Hem : emits (avoiding is_volume_delete)
              (ext env (conductor_instance_destroy (uuid i')) ;;;
               ext env (conductor_block_device_mapping_destroy
                          (map bdm_id bdms)) ;;;
               _notify_about_instance_usage env i' "delete.end" ;;;
               if vnc_enabled env || spice_enabled env
               then ext env (consoleauth_delete_tokens_for_instance (uuid i'))
               else ret tt))
      by emits_auto.
    destruct (Hem _ _ _ Hrun) as (ev6 & L6 & F6).
    apply (Hfin ev6 ev5 F6 F5). rewrite L6, L5. reflexivity.
  - apply _instance_update_log in Hupd as (ev5 & L5 & F5).
    apply (Hfin [] ev5 (Forall_nil _) F5). exact L5.
Qed.

Lemma _delete_instance_ignores_cleanup_failure_witness :
  exists post pre t o,
    new_events world0
      (snd (_delete_instance env_volume_delete_fails sample_instance
              sample_bdms world0)) =
      post ++
      Ev (conductor_instance_update (uuid sample_instance)
            [kw_vm_state vm_states.DELETED; kw_task_state None;
             kw_terminated_at t]) o ::
      Ev (volume_delete "vol-1") (Some (OtherError 7)) :: pre.
Proof.
  apply (_delete_instance_ignores_cleanup_failure env_volume_delete_fails
           sample_instance sample_bdms world0
           (fst (_delete_instance env_volume_delete_fails sample_instance
                   sample_bdms world0))
           (snd (_delete_instance env_volume_delete_fails sample_instance
                   sample_bdms world0))
           "vol-1" (OtherError 7)).
  - apply surjective_pairing.
  - vm_compute. tauto.
Defined.
